(** * perfEvents_linux.cpp: perf-event sampling engine of async-profiler

    A shallow embedding of [src/perfEvents_linux.cpp] and the properties of
    its event catalog, per-thread counter life cycle, signal handler and
    ring-buffer reader.

    Conventions.
    - C integers are [Z]; a cast to an unsigned w-bit type is written out as
      [_ mod 2^w] ([u32], [u64]).  The data model is LP64 Linux
      ([sizeof(long) = sizeof(void* ) = 8]), little endian.
    - A C string is a [string]; a [char*] that may be [NULL] is an
      [option string].
    - A pointer into the static table [AVAILABLE_EVENTS] is the index of the
      entry; the table itself is part of the state, because [getBreakpoint]
      and [getTracepoint] overwrite fields of its template entries.
    - What the operating system answers (symbol lookup, file contents,
      [perf_event_open], [mmap], [read]) is an oracle record [OS]; what the
      program does to the operating system is appended to a trace.
    - An execution that leaves defined behaviour (indexing outside an array,
      dereferencing [NULL]) is [Fault]; one that never returns is [Spin]. *)

From Stdlib Require Import ZArith Ascii String List Lia.
From Stdlib Require Strings.Byte.
From stdpp Require Import base option list gmap strings relations.

Local Open Scope Z_scope.

(** ** Outcomes of a C call *)

Inductive outcome (A : Type) : Type :=
  | Done (a : A)
  | Fault
  | Spin.
Arguments Done {A} a.
Arguments Fault {A}.
Arguments Spin {A}.

#[global] Instance outcome_ret : MRet outcome := fun A a => Done a.
#[global] Instance outcome_bind : MBind outcome := fun A B f m =>
  match m with
  | Done a => f a
  | Fault => Fault
  | Spin => Spin
  end.

(** [p[i]] for an array [p] and a C [int] index; outside the array the access
    is undefined. *)
Definition index {A} (l : list A) (i : Z) : outcome A :=
  if i <? 0 then Fault
  else match l !! Z.to_nat i with
       | Some a => Done a
       | None => Fault
       end.

(** ** The parts of libc the file calls *)

Module LibC.

Definition LONG_MAX : Z := 2 ^ 63 - 1.
Definition LONG_MIN : Z := - 2 ^ 63.

Definition u32 (x : Z) : Z := x mod 2 ^ 32.
Definition u64 (x : Z) : Z := x mod 2 ^ 64.
(** [(int) x] as gcc defines it: reduction modulo 2^32 into the signed range. *)
Definition int (x : Z) : Z := (x + 2 ^ 31) mod 2 ^ 32 - 2 ^ 31.

Definition code (a : ascii) : Z := Z.of_N (N_of_ascii a).

Definition isspace (a : ascii) : bool :=
  (code a =? 32) || ((9 <=? code a) && (code a <=? 13)).

Definition digit_val (a : ascii) : option Z :=
  let n := code a in
  if (48 <=? n) && (n <=? 57) then Some (n - 48)
  else if (97 <=? n) && (n <=? 122) then Some (n - 87)
  else if (65 <=? n) && (n <=? 90) then Some (n - 55)
  else None.

Definition is_digit_in (base : Z) (a : ascii) : bool :=
  match digit_val a with
  | Some d => d <? base
  | None => false
  end.

Fixpoint skip_space (s : string) : string :=
  match s with
  | String a r => if isspace a then skip_space r else s
  | EmptyString => s
  end.

(** The longest prefix of digits of [base], accumulated without bound; the
    callers clamp. *)
Fixpoint digits (base acc : Z) (s : string) : Z :=
  match s with
  | String a r =>
      match digit_val a with
      | Some d => if d <? base then digits base (acc * base + d) r else acc
      | None => acc
      end
  | EmptyString => acc
  end.

(** [strtol(s, NULL, base)] for [base] 0, 10 or 16: white space, an optional
    sign, with base 0 or 16 an optional [0x] followed by a hex digit, with
    base 0 a leading [0] for octal; the value is clamped to [long]. *)
Definition strtol (s : string) (base : Z) : Z :=
  let s1 := skip_space s in
  let '(neg, s2) :=
    match s1 with
    | String a r =>
        if Ascii.eqb a "-" then (true, r)
        else if Ascii.eqb a "+" then (false, r)
        else (false, s1)
    | EmptyString => (false, s1)
    end in
  let '(b, s3) :=
    match s2 with
    | String z (String x (String h r)) =>
        if Ascii.eqb z "0" && (Ascii.eqb x "x" || Ascii.eqb x "X")
           && ((base =? 0) || (base =? 16)) && is_digit_in 16 h
        then (16, String h r)
        else if Ascii.eqb z "0" && (base =? 0) then (8, s2)
        else (if base =? 0 then 10 else base, s2)
    | String z _ =>
        if Ascii.eqb z "0" && (base =? 0) then (8, s2)
        else (if base =? 0 then 10 else base, s2)
    | EmptyString => (if base =? 0 then 10 else base, s2)
    end in
  let v := digits b 0 s3 in
  if neg : bool then Z.max LONG_MIN (- v) else Z.min LONG_MAX v.

(** [long long] is [long] on LP64. *)
Definition strtoll := strtol.

(** glibc: [atoi(s)] is [(int) strtol(s, NULL, 10)]. *)
Definition atoi (s : string) : Z := int (strtol s 10).

(** [strcmp(a, b) == 0] *)
Definition streq (a b : string) : bool := String.eqb a b.

(** [strncmp(s, p, strlen(p)) == 0] *)
Definition has_prefix (p s : string) : bool := String.prefix p s.

(** [strchr(s, c) != NULL] *)
Fixpoint contains (c : ascii) (s : string) : bool :=
  match s with
  | String a r => Ascii.eqb a c || contains c r
  | EmptyString => false
  end.

(** [p = strrchr(buf, c); *p++ = 0]: the buffer is cut at the last [c];
    the result is what stays in [buf] and the string [p] points to. *)
Fixpoint cut_last (c : ascii) (s : string) : option (string * string) :=
  match s with
  | EmptyString => None
  | String a r =>
      match cut_last c r with
      | Some (pre, suf) => Some (String a pre, suf)
      | None => if Ascii.eqb a c then Some (EmptyString, r) else None
      end
  end.

(** [*strchr(buf, c) = d]; without a [c] in [buf] this writes through
    [NULL]. *)
Fixpoint replace_first (c d : ascii) (s : string) : outcome string :=
  match s with
  | EmptyString => Fault
  | String a r =>
      if Ascii.eqb a c then Done (String d r)
      else r' ← replace_first c d r; Done (String a r')
  end.

Fixpoint take (n : nat) (s : string) : string :=
  match n, s with
  | S n', String a r => String a (take n' r)
  | _, _ => EmptyString
  end.

Fixpoint drop (n : nat) (s : string) : string :=
  match n, s with
  | S n', String _ r => drop n' r
  | _, _ => s
  end.

(** [char buf[16] = init; read(fd, buf, 15)]: the bytes read overwrite the
    beginning of the initial contents; the rest of the buffer is zero. *)
Definition read_over (init contents : string) : string :=
  let got := take 15 contents in
  String.append got (drop (String.length got) init).

End LibC.

(** ** Kernel ABI constants ([linux/perf_event.h], [linux/hw_breakpoint.h]) *)

Definition PERF_TYPE_HARDWARE : Z := 0.
Definition PERF_TYPE_SOFTWARE : Z := 1.
Definition PERF_TYPE_TRACEPOINT : Z := 2.
Definition PERF_TYPE_HW_CACHE : Z := 3.
Definition PERF_TYPE_BREAKPOINT : Z := 5.

Definition PERF_COUNT_SW_CPU_CLOCK : Z := 0.
Definition PERF_COUNT_SW_PAGE_FAULTS : Z := 2.
Definition PERF_COUNT_SW_CONTEXT_SWITCHES : Z := 3.

Definition PERF_COUNT_HW_CPU_CYCLES : Z := 0.
Definition PERF_COUNT_HW_INSTRUCTIONS : Z := 1.
Definition PERF_COUNT_HW_CACHE_REFERENCES : Z := 2.
Definition PERF_COUNT_HW_CACHE_MISSES : Z := 3.
Definition PERF_COUNT_HW_BRANCH_INSTRUCTIONS : Z := 4.
Definition PERF_COUNT_HW_BRANCH_MISSES : Z := 5.
Definition PERF_COUNT_HW_BUS_CYCLES : Z := 6.

Definition PERF_COUNT_HW_CACHE_L1D : Z := 0.
Definition PERF_COUNT_HW_CACHE_LL : Z := 2.
Definition PERF_COUNT_HW_CACHE_DTLB : Z := 3.
Definition PERF_COUNT_HW_CACHE_OP_READ : Z := 0.
Definition PERF_COUNT_HW_CACHE_RESULT_MISS : Z := 1.

Definition HW_BREAKPOINT_R : Z := 1.
Definition HW_BREAKPOINT_W : Z := 2.
Definition HW_BREAKPOINT_RW : Z := 3.
Definition HW_BREAKPOINT_X : Z := 4.

Definition PERF_SAMPLE_CALLCHAIN : Z := 32.
Definition PERF_RECORD_SAMPLE : Z := 9.
(** [(__u64)-4095] *)
Definition PERF_CONTEXT_MAX : Z := 2 ^ 64 - 4095.

Definition sizeof_long : Z := 8.
Definition sizeof_u64 : Z := 8.

(** [#define LOAD_MISS(perf_hw_cache_id)]; [<<] binds tighter than [|]. *)
Definition LOAD_MISS (perf_hw_cache_id : Z) : Z :=
  Z.lor (Z.lor perf_hw_cache_id (Z.shiftl PERF_COUNT_HW_CACHE_OP_READ 8))
        (Z.shiftl PERF_COUNT_HW_CACHE_RESULT_MISS 16).

(** ** The environment *)

(** [struct perf_event_attr], the fields the file sets; all others stay 0. *)
Record perf_event_attr : Type := {
  attr_size : Z;
  attr_type : Z;
  attr_config : Z;
  attr_bp_addr : Z;
  attr_bp_type : Z;
  attr_bp_len : Z;
  attr_precise_ip : Z;
  attr_sample_period : Z;
  attr_sample_type : Z;
  attr_disabled : Z;
  attr_wakeup_events : Z;
  attr_exclude_idle : Z
}.

(** The answers of the platform.  [DEFAULT_INTERVAL] comes from a header of
    the profiler that is not part of this file; [PERF_PAGE_SIZE] is
    [sysconf(_SC_PAGESIZE)]. *)
Record OS : Type := {
  DEFAULT_INTERVAL : Z;
  PERF_PAGE_SIZE : Z;
  sizeof_attr : Z;
  (** [dlsym(RTLD_DEFAULT, name)] as an address, 0 when there is no symbol *)
  dlsym : string -> Z;
  (** [open(path, O_RDONLY)] and one [read]: [None] when [open] fails,
      otherwise the bytes a read of the whole file returns *)
  slurp : string -> option string;
  (** [syscall(__NR_perf_event_open, &attr, tid, -1, -1, 0)]: a descriptor, or -1 *)
  perf_event_open : perf_event_attr -> Z -> Z;
  (** [mmap(NULL, 2 * PERF_PAGE_SIZE, ..., fd, 0)]: an address, [None] for [MAP_FAILED] *)
  mmap : Z -> option Z;
  (** the [d_name]s that [readdir] returns for [/proc/self/task], [None] when
      [opendir] fails *)
  task_dir : option (list string);
  (** [read(fd, &counter, 8)]: the value when exactly 8 bytes arrive *)
  read_counter : Z -> option Z
}.

(** ** Event catalog *)

Module FunctionWithCounter.
Record t : Type := { name : option string; counter_arg : Z }.
End FunctionWithCounter.

Module PerfEventType.

Record t : Type := {
  name : option string;
  default_interval : Z;
  precise_ip : Z;
  type : Z;
  config : Z;
  bp_type : Z;
  bp_len : Z;
  counter_arg : Z
}.

(** An initializer with five values; the remaining members are zero. *)
Definition entry (n : string) (interval precise ty cfg : Z) : t :=
  {| name := Some n; default_interval := interval; precise_ip := precise;
     type := ty; config := cfg; bp_type := 0; bp_len := 0; counter_arg := 0 |}.

(** [{NULL}] *)
Definition terminator : t :=
  {| name := None; default_interval := 0; precise_ip := 0; type := 0;
     config := 0; bp_type := 0; bp_len := 0; counter_arg := 0 |}.

Definition KNOWN_FUNCTIONS : list FunctionWithCounter.t :=
  let f n a := {| FunctionWithCounter.name := Some n;
                  FunctionWithCounter.counter_arg := a |} in
  [ f "malloc"%string 1; f "mmap"%string 2; f "read"%string 3;
    f "write"%string 3; f "send"%string 3; f "recv"%string 3;
    f "sendto"%string 3; f "recvfrom"%string 3;
    {| FunctionWithCounter.name := None; FunctionWithCounter.counter_arg := 0 |} ].

(** The loops over the tables, as recursion over the entries from the
    current one on; running off the end of an array is a [Fault]. *)
Fixpoint findCounterArg_from (funcs : list FunctionWithCounter.t)
    (name : string) : outcome Z :=
  match funcs with
  | [] => Fault
  | func :: rest =>
      match FunctionWithCounter.name func with
      | None => Done 0
      | Some n =>
          if LibC.streq name n then Done (FunctionWithCounter.counter_arg func)
          else findCounterArg_from rest name
      end
  end.

Definition findCounterArg (name : string) : outcome Z :=
  findCounterArg_from KNOWN_FUNCTIONS name.

Fixpoint findByType_from (events : list t) (i : nat) (ty : Z) : outcome nat :=
  match events with
  | [] => Fault
  | event :: rest =>
      if type event =? ty then Done i else findByType_from rest (S i) ty
  end.

Definition findByType (tbl : list t) (ty : Z) : outcome nat :=
  findByType_from tbl 0%nat ty.

Fixpoint lookup_name_from (events : list t) (i : nat) (n : string)
    : outcome (option nat) :=
  match events with
  | [] => Fault
  | event :: rest =>
      match name event with
      | None => Done None
      | Some en =>
          if LibC.streq n en then Done (Some i)
          else lookup_name_from rest (S i) n
      end
  end.

Section Catalog.
Variable os : OS.

Definition AVAILABLE_EVENTS : list t :=
  [ entry "cpu" (DEFAULT_INTERVAL os) 2 PERF_TYPE_SOFTWARE PERF_COUNT_SW_CPU_CLOCK;
    entry "page-faults" 1 2 PERF_TYPE_SOFTWARE PERF_COUNT_SW_PAGE_FAULTS;
    entry "context-switches" 1 2 PERF_TYPE_SOFTWARE PERF_COUNT_SW_CONTEXT_SWITCHES;

    entry "cycles" 1000000 2 PERF_TYPE_HARDWARE PERF_COUNT_HW_CPU_CYCLES;
    entry "instructions" 1000000 2 PERF_TYPE_HARDWARE PERF_COUNT_HW_INSTRUCTIONS;
    entry "cache-references" 1000000 0 PERF_TYPE_HARDWARE PERF_COUNT_HW_CACHE_REFERENCES;
    entry "cache-misses" 1000 0 PERF_TYPE_HARDWARE PERF_COUNT_HW_CACHE_MISSES;
    entry "branches" 1000000 2 PERF_TYPE_HARDWARE PERF_COUNT_HW_BRANCH_INSTRUCTIONS;
    entry "branch-misses" 1000 2 PERF_TYPE_HARDWARE PERF_COUNT_HW_BRANCH_MISSES;
    entry "bus-cycles" 1000000 0 PERF_TYPE_HARDWARE PERF_COUNT_HW_BUS_CYCLES;

    entry "L1-dcache-load-misses" 1000000 0 PERF_TYPE_HW_CACHE (LOAD_MISS PERF_COUNT_HW_CACHE_L1D);
    entry "LLC-load-misses" 1000 0 PERF_TYPE_HW_CACHE (LOAD_MISS PERF_COUNT_HW_CACHE_LL);
    entry "dTLB-load-misses" 1000 0 PERF_TYPE_HW_CACHE (LOAD_MISS PERF_COUNT_HW_CACHE_DTLB);

    entry "mem:breakpoint" 1 0 PERF_TYPE_BREAKPOINT 0;
    entry "trace:tracepoint" 1 0 PERF_TYPE_TRACEPOINT 0;

    terminator ].

(** [char buf[256]; strncpy(buf, name, sizeof(buf))]: a name of 256
    characters or more leaves [buf] without its terminating zero, and
    the searches that follow run past the array. *)
Definition copy_name (name : string) : outcome string :=
  if Z.of_nat (String.length name) <? 256 then Done name else Fault.

(** Parse access type [:rwx] *)
Definition parse_access (buf : string) (bp_type bp_len : Z) : string * Z * Z :=
  match LibC.cut_last ":" buf with
  | Some (buf', c) =>
      if LibC.streq c "r" then (buf', HW_BREAKPOINT_R, bp_len)
      else if LibC.streq c "w" then (buf', HW_BREAKPOINT_W, bp_len)
      else if LibC.streq c "x" then (buf', HW_BREAKPOINT_X, sizeof_long)
      else (buf', HW_BREAKPOINT_RW, bp_len)
  | None => (buf, bp_type, bp_len)
  end.

(** Parse length [/8] *)
Definition parse_length (buf : string) (bp_len : Z) : string * Z :=
  match LibC.cut_last "/" buf with
  | Some (buf', c) => (buf', LibC.u32 (LibC.strtol c 0))
  | None => (buf, bp_len)
  end.

(** Parse offset [+0x1234] *)
Definition parse_offset (buf : string) : string * Z :=
  match LibC.cut_last "+" buf with
  | Some (buf', c) => (buf', LibC.u64 (LibC.strtoll c 0))
  | None => (buf, 0)
  end.

(** Parse symbol or absolute address; [None] is the [return NULL]. *)
Definition parse_address (buf : string) : option Z :=
  if LibC.has_prefix "0x" buf then Some (LibC.u64 (LibC.strtoll buf 0))
  else
    let addr := LibC.u64 (dlsym os buf) in
    if addr =? 0 then None else Some addr.

(** The function after the access type has been cut off [buf]. *)
Definition getBreakpoint_rest (tbl : list t) (buf : string) (bp_type bp_len : Z)
    : outcome (option nat * list t) :=
  let '(buf, bp_len) := parse_length buf bp_len in
  let '(buf, offset) := parse_offset buf in
  match parse_address buf with
  | None => Done (None, tbl)
  | Some addr =>
      breakpoint ← findByType tbl PERF_TYPE_BREAKPOINT;
      e ← index tbl (Z.of_nat breakpoint);
      arg ← (if bp_type =? HW_BREAKPOINT_X then findCounterArg buf else Done 0);
      Done (Some breakpoint,
            <[breakpoint :=
                {| name := name e; default_interval := default_interval e;
                   precise_ip := precise_ip e; type := type e;
                   config := LibC.u64 (addr + offset);
                   bp_type := bp_type; bp_len := bp_len;
                   counter_arg := arg |}]> tbl)
  end.

(** Breakpoint format: func[+offset][/len][:rwx].  The result is the
    pointer returned ([None] for [NULL]) and the table after the call. *)
Definition getBreakpoint (tbl : list t) (name : string) (bp_type bp_len : Z)
    : outcome (option nat * list t) :=
  buf ← copy_name name;
  let '(buf, bp_type, bp_len) := parse_access buf bp_type bp_len in
  getBreakpoint_rest tbl buf bp_type bp_len.

Definition getTracepoint (tbl : list t) (tracepoint_id : Z)
    : outcome (nat * list t) :=
  tracepoint ← findByType tbl PERF_TYPE_TRACEPOINT;
  e ← index tbl (Z.of_nat tracepoint);
  Done (tracepoint,
        <[tracepoint :=
            {| name := name e; default_interval := default_interval e;
               precise_ip := precise_ip e; type := type e;
               config := LibC.u64 tracepoint_id;
               bp_type := bp_type e; bp_len := bp_len e;
               counter_arg := counter_arg e |}]> tbl).

(** Get perf_event_attr.config numeric value of the given tracepoint name
    by reading /sys/kernel/debug/tracing/events/<name>/id file *)
Definition findTracepointId (name : string) : outcome Z :=
  let path := String.append "/sys/kernel/debug/tracing/events/"
                (String.append name "/id") in
  if 256 <=? Z.of_nat (String.length path) then Done 0
  else
    buf ← LibC.replace_first ":" "/" path;
    match slurp os buf with
    | None => Done 0
    | Some contents => Done (LibC.atoi (LibC.read_over "0" contents))
    end.

Definition forName (tbl : list t) (name : string)
    : outcome (option nat * list t) :=
  (* Hardware breakpoint *)
  if LibC.has_prefix "mem:" name then
    getBreakpoint tbl (LibC.drop 4 name) HW_BREAKPOINT_RW 1
  (* Raw tracepoint ID *)
  else if LibC.has_prefix "trace:" name then
    let tracepoint_id := LibC.atoi (LibC.drop 6 name) in
    if 0 <? tracepoint_id then
      '(i, tbl') ← getTracepoint tbl tracepoint_id; Done (Some i, tbl')
    else Done (None, tbl)
  else
    (* Look through the table of predefined perf events *)
    found ← lookup_name_from tbl 0%nat name;
    match found with
    | Some event => Done (Some event, tbl)
    | None =>
        (* Kernel tracepoints defined in debugfs *)
        tracepoint_id ← (if LibC.contains ":" name then findTracepointId name
                         else Done 0);
        if 0 <? tracepoint_id then
          '(i, tbl') ← getTracepoint tbl tracepoint_id; Done (Some i, tbl')
        else
          (* Finally, treat event as a function name and return an
             execution breakpoint *)
          getBreakpoint tbl name HW_BREAKPOINT_X sizeof_long
    end.

End Catalog.

End PerfEventType.

(** ** Per-thread counters and the world they live in *)

(** The mapping of one counter: the two cursors of the control page and the
    bytes of the data page that follows it. *)
Record perf_event_mmap_page : Type := {
  data_head : Z;
  data_tail : Z;
  data : Z -> Byte.byte
}.

(** What the kernel hands out: nothing written, nothing read. *)
Definition fresh_page : perf_event_mmap_page :=
  {| data_head := 0; data_tail := 0; data := fun _ => Byte.x00 |}.

(** Modelled from the spec: the mutual-exclusion guard [SpinLock] of
    [spinLock.h], which every slot inherits.  [reset] makes it free,
    [tryLock] takes it when it is free and reports whether it did, [lock]
    waits until it is free, [unlock] frees it.  [_lock] says it is held. *)
Record PerfEvent : Type := {
  _lock : bool;
  _fd : Z;
  _page : option Z
}.

(** A slot as [calloc] leaves it. *)
Definition zero_event : PerfEvent :=
  {| _lock := false; _fd := 0; _page := None |}.

Record siginfo_t : Type := { si_code : Z; si_fd : Z }.

(** Modelled from the spec: [StackFrame(ucontext).arg0()] .. [arg3()] of
    [stackFrame.h] read the first four call arguments out of the saved
    registers of the interrupted thread. *)
Record ucontext_t : Type := { arg0 : Z; arg1 : Z; arg2 : Z; arg3 : Z }.

Inductive ioctl_request : Type :=
  | PERF_EVENT_IOC_RESET
  | PERF_EVENT_IOC_REFRESH
  | PERF_EVENT_IOC_DISABLE.

Inductive fcntl_command : Type :=
  | F_SETFL_O_ASYNC
  | F_SETSIG_SIGPROF
  | F_SETOWN_EX_TID (tid : Z).

Inductive jvmti_event : Type :=
  | JVMTI_EVENT_THREAD_START
  | JVMTI_EVENT_THREAD_END.

Inductive message : Type :=
  | tid_warning (tid max_events : Z)
  | perror (what : string).

(** What the program does to the outside, in the order it does it. *)
Inductive effect : Type :=
  | Stderr (m : message)
  | SysPerfEventOpen (attr : perf_event_attr) (tid : Z)
  | SysMmap (fd : Z)
  | SysMunmap (page : Z)
  | SysFcntl (fd : Z) (cmd : fcntl_command)
  | SysIoctl (fd : Z) (req : ioctl_request) (arg : Z)
  | SysClose (fd : Z)
  | SysRead (fd : Z)
  | SysSigaction
  | SetEventNotificationMode (enable : bool) (ev : jvmti_event)
  | RecordSample (ucontext : ucontext_t) (counter : Z).

Inductive sighandler : Type :=
  | SigDefault
  | SigPerfEvents.

(** [Error] of the profiler: [Error::OK] or a message. *)
Inductive Error : Type :=
  | OK
  | Err (msg : string).

(** The static members of [PerfEvents] and [PerfEventType], and the part of
    the process they act on. *)
Record state : Type := {
  _max_events : Z;
  _events : list PerfEvent;
  _event_type : option nat;
  _interval : Z;
  table : list PerfEventType.t;
  memory : gmap Z perf_event_mmap_page;
  sigprof : sighandler;
  trace : list effect
}.

Definition emit (e : effect) (st : state) : state :=
  {| _max_events := _max_events st; _events := _events st;
     _event_type := _event_type st; _interval := _interval st;
     table := table st; memory := memory st; sigprof := sigprof st;
     trace := trace st ++ [e] |}.

Definition set_events (evs : list PerfEvent) (st : state) : state :=
  {| _max_events := _max_events st; _events := evs;
     _event_type := _event_type st; _interval := _interval st;
     table := table st; memory := memory st; sigprof := sigprof st;
     trace := trace st |}.

Definition set_memory (m : gmap Z perf_event_mmap_page) (st : state) : state :=
  {| _max_events := _max_events st; _events := _events st;
     _event_type := _event_type st; _interval := _interval st;
     table := table st; memory := m; sigprof := sigprof st;
     trace := trace st |}.

(** [_events[tid] = e] *)
Definition store_event (tid : Z) (e : PerfEvent) (st : state) : state :=
  set_events (<[Z.to_nat tid := e]> (_events st)) st.

(** [*_event_type] *)
Definition active_type (st : state) : outcome PerfEventType.t :=
  match _event_type st with
  | None => Fault
  | Some i => index (table st) (Z.of_nat i)
  end.

(** [*page] for a non-null [page] *)
Definition deref (st : state) (page : Z) : outcome perf_event_mmap_page :=
  match memory st !! page with
  | Some p => Done p
  | None => Fault
  end.

(** ** The ring buffer reader's view of a mapping *)

Module RingBuffer.
Section Ring.
Variable os : OS.
Variable page : perf_event_mmap_page.

(** An [n]-byte little-endian load at byte [off] of the data page.  The
    mapping ends with the data page: a load that is not inside it is
    outside the mapping. *)
Fixpoint le_bytes (n : nat) (off : Z) : Z :=
  match n with
  | O => 0
  | S n' => Z.of_N (Byte.to_N (data page off)) + 256 * le_bytes n' (off + 1)
  end.

Definition load (n : nat) (off : Z) : outcome Z :=
  if (0 <=? off) && (off + Z.of_nat n <=? PERF_PAGE_SIZE os)
  then Done (le_bytes n off)
  else Fault.

(** [seek(offset)]: the new [_offset]; the header returned is at this
    offset of the data page. *)
Definition seek (offset : Z) : Z :=
  Z.land (LibC.u64 offset) (PERF_PAGE_SIZE os - 1).

(** [hdr->type] and [hdr->size] of [struct perf_event_header]
    ([__u32 type; __u16 misc; __u16 size]) at [_offset]. *)
Definition hdr_type (_offset : Z) : outcome Z := load 4 _offset.
Definition hdr_size (_offset : Z) : outcome Z := load 2 (_offset + 6).

(** [next()]: the new [_offset] and the word read there. *)
Definition next (_offset : Z) : outcome (Z * Z) :=
  let o := Z.land (_offset + sizeof_u64) (PERF_PAGE_SIZE os - 1) in
  v ← load 8 o; Done (o, v).
End Ring.
End RingBuffer.

(** ** PerfEvents *)

Module PerfEvents.
Section Engine.
Variable os : OS.

Definition make_attr (et : PerfEventType.t) (interval : Z) : perf_event_attr :=
  let bp := PerfEventType.type et =? PERF_TYPE_BREAKPOINT in
  {| attr_size := sizeof_attr os;
     attr_type := PerfEventType.type et;
     attr_config := if bp then 0 else PerfEventType.config et;
     attr_bp_addr := if bp then PerfEventType.config et else 0;
     attr_bp_type := if bp then PerfEventType.bp_type et else 0;
     attr_bp_len := if bp then PerfEventType.bp_len et else 0;
     attr_precise_ip := PerfEventType.precise_ip et;
     attr_sample_period := LibC.u64 interval;
     attr_sample_type := PERF_SAMPLE_CALLCHAIN;
     attr_disabled := 1;
     attr_wakeup_events := 1;
     attr_exclude_idle := 1 |}.

Definition createForThread (tid : Z) (st : state) : outcome (bool * state) :=
  if tid >=? _max_events st then
    Done (false, emit (Stderr (tid_warning tid (_max_events st))) st)
  else
    et ← active_type st;
    let attr := make_attr et (_interval st) in
    let fd := LibC.int (perf_event_open os attr tid) in
    let st := emit (SysPerfEventOpen attr tid) st in
    if fd =? -1 then
      Done (false, emit (Stderr (perror "perf_event_open failed")) st)
    else
      let page := mmap os fd in
      let st := emit (SysMmap fd) st in
      let st := match page with
                | Some p => set_memory (<[p := fresh_page]> (memory st)) st
                | None => emit (Stderr (perror "perf_event mmap failed")) st
                end in
      _ ← index (_events st) tid;
      let st := store_event tid {| _lock := false; _fd := fd; _page := page |} st in
      let st := emit (SysFcntl fd F_SETFL_O_ASYNC) st in
      let st := emit (SysFcntl fd F_SETSIG_SIGPROF) st in
      let st := emit (SysFcntl fd (F_SETOWN_EX_TID tid)) st in
      let st := emit (SysIoctl fd PERF_EVENT_IOC_RESET 0) st in
      let st := emit (SysIoctl fd PERF_EVENT_IOC_REFRESH 1) st in
      Done (true, st).

(** The [readdir] loop of [createForAllThreads]. *)
Fixpoint createForEntries (entries : list string) (success : bool) (st : state)
    : outcome (bool * state) :=
  match entries with
  | [] => Done (success, st)
  | d_name :: rest =>
      if LibC.has_prefix "." d_name then createForEntries rest success st
      else
        let tid := LibC.atoi d_name in
        '(ok, st) ← createForThread tid st;
        createForEntries rest (success || ok) st
  end.

Definition createForAllThreads (st : state) : outcome (bool * state) :=
  match task_dir os with
  | Some entries => createForEntries entries false st
  | None => Done (false, st)
  end.

Definition destroyForThread (tid : Z) (st : state) : outcome state :=
  if tid >=? _max_events st then Done st
  else
    event ← index (_events st) tid;
    let '(event, st) :=
      if negb (_fd event =? 0) then
        let st := emit (SysIoctl (_fd event) PERF_EVENT_IOC_DISABLE 0) st in
        let st := emit (SysClose (_fd event)) st in
        let event := {| _lock := _lock event; _fd := 0; _page := _page event |} in
        (event, store_event tid event st)
      else (event, st) in
    match _page event with
    | Some p =>
        (* lock() on a guard that nobody is going to free never returns *)
        if _lock event then Spin
        else
          let st := store_event tid {| _lock := true; _fd := _fd event; _page := Some p |} st in
          let st := emit (SysMunmap p) (set_memory (delete p (memory st)) st) in
          let st := store_event tid {| _lock := true; _fd := _fd event; _page := None |} st in
          Done (store_event tid {| _lock := false; _fd := _fd event; _page := None |} st)
    | None => Done st
    end.

(** [for (int i = 0; i < _max_events; i++)], started at [i] with
    [n] slots to go. *)
Fixpoint destroyFrom (n : nat) (i : Z) (st : state) : outcome state :=
  match n with
  | O => Done st
  | S n' => st ← destroyForThread i st; destroyFrom n' (i + 1) st
  end.

Definition destroyForAllThreads (st : state) : outcome state :=
  destroyFrom (Z.to_nat (_max_events st)) 0 st.

Definition installSignalHandler (st : state) : state :=
  let st := emit SysSigaction st in
  {| _max_events := _max_events st; _events := _events st;
     _event_type := _event_type st; _interval := _interval st;
     table := table st; memory := memory st; sigprof := SigPerfEvents;
     trace := trace st |}.

Definition signalHandler (signo : Z) (siginfo : siginfo_t) (ucontext : ucontext_t)
    (st : state) : outcome state :=
  if si_code siginfo <=? 0 then
    (* Looks like an external signal; don't treat as a profiling event *)
    Done st
  else
    et ← active_type st;
    let arg := PerfEventType.counter_arg et in
    let '(counter, st) :=
      if arg =? 1 then (LibC.u64 (arg0 ucontext), st)
      else if arg =? 2 then (LibC.u64 (arg1 ucontext), st)
      else if arg =? 3 then (LibC.u64 (arg2 ucontext), st)
      else if arg =? 4 then (LibC.u64 (arg3 ucontext), st)
      else
        (match read_counter os (si_fd siginfo) with
         | Some v => LibC.u64 v
         | None => 1
         end, emit (SysRead (si_fd siginfo)) st) in
    let st := emit (RecordSample ucontext counter) st in
    let st := emit (SysIoctl (si_fd siginfo) PERF_EVENT_IOC_RESET 0) st in
    let st := emit (SysIoctl (si_fd siginfo) PERF_EVENT_IOC_REFRESH 1) st in
    Done st.

Definition getMaxPID : Z :=
  match slurp os "/proc/sys/kernel/pid_max" with
  | Some contents => LibC.atoi (LibC.read_over "65536" contents)
  | None => LibC.atoi "65536"
  end.

Definition start (event : string) (interval : Z) (st : state)
    : outcome (Error * state) :=
  '(et, tbl) ← PerfEventType.forName os (table st) event;
  let st := {| _max_events := _max_events st; _events := _events st;
               _event_type := et; _interval := _interval st;
               table := tbl; memory := memory st; sigprof := sigprof st;
               trace := trace st |} in
  match et with
  | None => Done (Err "Unsupported event type", st)
  | Some _ =>
      if interval <? 0 then Done (Err "interval must be positive", st)
      else
        interval ← (if interval =? 0
                    then e ← active_type st; Done (PerfEventType.default_interval e)
                    else Done interval);
        let max_events := getMaxPID in
        let realloc := negb (max_events =? _max_events st) in
        let st := {| _max_events := if realloc then max_events else _max_events st;
                     _events := if realloc
                                then replicate (Z.to_nat max_events) zero_event
                                else _events st;
                     _event_type := _event_type st; _interval := interval;
                     table := table st; memory := memory st;
                     sigprof := sigprof st; trace := trace st |} in
        let st := installSignalHandler st in
        let st := emit (SetEventNotificationMode true JVMTI_EVENT_THREAD_START) st in
        let st := emit (SetEventNotificationMode true JVMTI_EVENT_THREAD_END) st in
        '(ok, st) ← createForAllThreads st;
        if ok : bool then Done (OK, st)
        else Done (Err "Perf events unavailble. See stderr of the target process.", st)
  end.

Definition stop (st : state) : outcome state :=
  let st := emit (SetEventNotificationMode false JVMTI_EVENT_THREAD_START) st in
  let st := emit (SetEventNotificationMode false JVMTI_EVENT_THREAD_END) st in
  destroyForAllThreads st.

(** The array of [count] names, the terminating [NULL] of the table
    included. *)
Definition getAvailableEvents : list (option string) :=
  PerfEventType.name <$> PerfEventType.AVAILABLE_EVENTS os.

(** [callchain[depth] = iptr], in the caller's array *)
Definition store_ip (callchain : list Z) (depth ip : Z) : outcome (list Z) :=
  _ ← index callchain depth; Done (<[Z.to_nat depth := ip]> callchain).

Section CallChain.
Variable page : perf_event_mmap_page.
Variables max_depth jit_min_address jit_max_address : Z.

(** [while (nr-- > 0 && depth < max_depth)]; the argument [nr] is the
    number of iterations the counter still allows. *)
Fixpoint read_ips (nr : nat) (_offset depth : Z) (callchain : list Z)
    : outcome (Z * list Z) :=
  match nr with
  | O => Done (depth, callchain)
  | S nr' =>
      if depth <? max_depth then
        '(_offset, ip) ← RingBuffer.next os page _offset;
        if ip <? PERF_CONTEXT_MAX then
          if (jit_min_address <=? ip) && (ip <? jit_max_address) then
            (* Stop at the first Java frame *)
            Done (depth, callchain)
          else
            callchain ← store_ip callchain depth ip;
            read_ips nr' _offset (depth + 1) callchain
        else read_ips nr' _offset depth callchain
      else Done (depth, callchain)
  end.

(** [while (tail < head)]; nothing bounds the number of records the
    loop steps over, so the model counts them down from [fuel]. *)
Fixpoint scan (fuel : nat) (tail head : Z) (callchain : list Z)
    : outcome (Z * list Z) :=
  if tail <? head then
    match fuel with
    | O => Spin
    | S fuel' =>
        let hdr := RingBuffer.seek os tail in
        ty ← RingBuffer.hdr_type os page hdr;
        if ty =? PERF_RECORD_SAMPLE then
          '(_offset, nr) ← RingBuffer.next os page hdr;
          read_ips (Z.to_nat nr) _offset 0 callchain
        else
          size ← RingBuffer.hdr_size os page hdr;
          scan fuel' (LibC.u64 (tail + size)) head callchain
    end
  else Done (0, callchain).
End CallChain.

(** The result is the depth returned, the caller's array and the state
    after the call. *)
Definition getCallChain (fuel : nat) (ucontext : ucontext_t) (tid : Z)
    (callchain : list Z) (max_depth jit_min_address jit_max_address : Z)
    (st : state) : outcome (Z * list Z * state) :=
  event ← index (_events st) tid;
  if _lock event then
    (* the event is being destroyed *)
    Done (0, callchain, st)
  else
    let st := store_event tid {| _lock := true; _fd := _fd event;
                                 _page := _page event |} st in
    '(depth, callchain, st) ←
      match _page event with
      | Some p =>
          page ← deref st p;
          '(depth, callchain) ←
            scan page max_depth jit_min_address jit_max_address fuel
                 (data_tail page) (data_head page) callchain;
          Done (depth, callchain,
                set_memory (<[p := {| data_head := data_head page;
                                      data_tail := data_head page;
                                      data := data page |}]> (memory st)) st)
      | None => Done (0, callchain, st)
      end;
    Done (depth, callchain,
          store_event tid {| _lock := false; _fd := _fd event;
                             _page := _page event |} st).

End Engine.
End PerfEvents.

(** ** What the kernel does between two calls of the reader *)

(** The kernel is the producer of the ring: it moves the write cursor
    forward and fills the data page; the read cursor belongs to the
    consumer. *)
Definition kernel_writes (pg pg' : perf_event_mmap_page) : Prop :=
  data_tail pg' = data_tail pg /\ data_head pg <= data_head pg'.

(** The life of the mapping [p] of thread [tid] while the counter is open:
    calls of [getCallChain] for the thread, and the kernel writing records. *)
Inductive ring_step (os : OS) (tid p : Z) : state -> state -> Prop :=
  | ring_read fuel ucontext callchain max_depth jit_min jit_max st depth callchain' st' :
      PerfEvents.getCallChain os fuel ucontext tid callchain max_depth jit_min jit_max st
        = Done (depth, callchain', st') ->
      ring_step os tid p st st'
  | ring_produce st pg pg' :
      memory st !! p = Some pg ->
      kernel_writes pg pg' ->
      ring_step os tid p st (set_memory (<[p := pg']> (memory st)) st).

(** The records from cursor [t] to the write cursor, as the kernel lays them
    out: the cursor has reached the write cursor, or a sample record starts
    at [t], or a record of another type with a positive size that is a
    multiple of 8, followed by records. *)
Inductive records (os : OS) (pg : perf_event_mmap_page) : Z -> Prop :=
  | records_end t :
      data_head pg <= t ->
      records os pg t
  | records_sample t :
      t < data_head pg ->
      RingBuffer.le_bytes pg 4 (RingBuffer.seek os t) = PERF_RECORD_SAMPLE ->
      records os pg t
  | records_skip t size :
      t < data_head pg ->
      RingBuffer.le_bytes pg 4 (RingBuffer.seek os t) <> PERF_RECORD_SAMPLE ->
      size = RingBuffer.le_bytes pg 2 (RingBuffer.seek os t + 6) ->
      0 < size -> size mod 8 = 0 ->
      records os pg (t + size) ->
      records os pg t.

(** A ring the kernel has filled according to its ABI: the page size is a
    power of two, the read cursor is 8-byte aligned, the write cursor is far
    from the end of the 64-bit range, and records lie between the two. *)
Record ring_wf (os : OS) (pg : perf_event_mmap_page) : Prop := {
  wf_page_size : exists k, 3 <= k /\ PERF_PAGE_SIZE os = 2 ^ k;
  wf_tail : 0 <= data_tail pg /\ data_tail pg mod 8 = 0;
  wf_head : data_head pg <= 2 ^ 64 - 2 ^ 16;
  wf_records : records os pg (data_tail pg)
}.

(** The tables keep their names and types: only [config], [bp_type],
    [bp_len] and [counter_arg] of the two template entries are written. *)
Definition catalog_shape (os : OS) (tbl : list PerfEventType.t) : Prop :=
  PerfEventType.name <$> tbl = PerfEventType.name <$> PerfEventType.AVAILABLE_EVENTS os
  /\ PerfEventType.type <$> tbl = PerfEventType.type <$> PerfEventType.AVAILABLE_EVENTS os.

(** What the reader is meant to keep of the words of one sample: the
    addresses that are not context markers, up to the first one in the
    excluded range, and [max_depth] of them at most. *)
Fixpoint before_first (stop : Z -> bool) (l : list Z) : list Z :=
  match l with
  | [] => []
  | x :: r => if stop x then [] else x :: before_first stop r
  end.

Definition call_chain_of (max_depth jit_min jit_max : Z) (ips : list Z) : list Z :=
  take (Z.to_nat max_depth)
    (before_first (fun ip => (jit_min <=? ip) && (ip <? jit_max))
       (List.filter (fun ip => ip <? PERF_CONTEXT_MAX) ips)).

(** The [nr] words that [next()] returns after [_offset], as the loads give
    them. *)
Fixpoint ring_words (os : OS) (pg : perf_event_mmap_page) (nr : nat) (_offset : Z)
    : list Z :=
  match nr with
  | O => []
  | S nr' =>
      let o := Z.land (_offset + sizeof_u64) (PERF_PAGE_SIZE os - 1) in
      RingBuffer.le_bytes pg 8 o :: ring_words os pg nr' o
  end.

(** [ips] are the words of a sample record in the ring of thread [tid], or
    no words at all. *)
Definition sample_of (os : OS) (st : state) (tid : Z) (ips : list Z) : Prop :=
  ips = [] \/
  exists ev p pg t _offset nr,
    _events st !! Z.to_nat tid = Some ev
    /\ _page ev = Some p
    /\ memory st !! p = Some pg
    /\ t < data_head pg
    /\ RingBuffer.hdr_type os pg (RingBuffer.seek os t) = Done PERF_RECORD_SAMPLE
    /\ RingBuffer.next os pg (RingBuffer.seek os t) = Done (_offset, nr)
    /\ ips = ring_words os pg (Z.to_nat nr) _offset.

(** ** A concrete environment, for examples *)

Module Demo.

Definition newline : string := String (ascii_of_nat 10) EmptyString.

Definition os : OS :=
  {| DEFAULT_INTERVAL := 10000000;
     PERF_PAGE_SIZE := 4096;
     sizeof_attr := 112;
     dlsym := fun s => if String.eqb s "foo" then 4198400 else 0;
     slurp := fun p => if String.eqb p "/proc/sys/kernel/pid_max"
                       then Some (String.append "8" newline) else None;
     perf_event_open := fun _ tid => 3 + tid;
     mmap := fun fd => Some (65536 * fd);
     task_dir := Some ["."; ".."; "5"; "6"]%string;
     read_counter := fun _ => Some 7 |}.

(** A data page given by its 64-bit words; the rest of the page is zero. *)
Definition byte_of (w i : Z) : Byte.byte :=
  default Byte.x00 (Byte.of_N (Z.to_N ((w / 256 ^ i) mod 256))).

Definition page_of_words (ws : list Z) : Z -> Byte.byte :=
  fun off => byte_of (nth (Z.to_nat (off / 8)) ws 0) (off mod 8).

(** [type | misc << 32 | size << 48] *)
Definition header (ty size : Z) : Z := ty + size * 2 ^ 48.

(** One record of another kind (type 1, 16 bytes), then a sample with four
    words: an address, a context marker, an address inside
    [[4096, 8192)] and one more address. *)
Definition page : perf_event_mmap_page :=
  {| data_head := 64; data_tail := 0;
     data := page_of_words
               [ header 1 16; 0;
                 header PERF_RECORD_SAMPLE 48; 4; 100; 2 ^ 64 - 512; 5000; 200 ] |}.

Definition ucontext : ucontext_t := {| arg0 := 0; arg1 := 0; arg2 := 0; arg3 := 0 |}.

(** Eight slots, the event "cycles" selected, nothing open. *)
Definition idle : state :=
  {| _max_events := 8; _events := replicate 8 zero_event;
     _event_type := Some 3%nat; _interval := 1000000;
     table := PerfEventType.AVAILABLE_EVENTS os;
     memory := ∅; sigprof := SigPerfEvents; trace := [] |}.

(** Thread 5 has its counter open on descriptor 8, mapped at 524288, and
    the kernel has written [page]. *)
Definition sampling : state :=
  {| _max_events := 8;
     _events := <[5%nat := {| _lock := false; _fd := 8; _page := Some 524288 |}]>
                  (replicate 8 zero_event);
     _event_type := Some 3%nat; _interval := 1000000;
     table := PerfEventType.AVAILABLE_EVENTS os;
     memory := {[ 524288 := page ]}; sigprof := SigPerfEvents; trace := [] |}.

(** [sampling] after the reader has been through the ring of thread 5. *)
Definition sampled : state :=
  set_memory (<[524288 := {| data_head := 64; data_tail := 64; data := data page |}]>
                (memory sampling)) sampling.

End Demo.

(** ** Closing every counter *)

(** The mappings that are left when the buffers of the given slots have
    been unmapped, one slot after the other. *)
Definition unmap_all (evs : list PerfEvent) (m : gmap Z perf_event_mmap_page)
    : gmap Z perf_event_mmap_page :=
  foldl (fun m ev => match _page ev with
                     | Some p => delete p m
                     | None => m
                     end) m evs.

(** What [destroyForThread] does to the outside for a slot: the counter is
    disabled and closed when the handle is not 0, the buffer is unmapped
    when there is one. *)
Definition teardown_effects (ev : PerfEvent) : list effect :=
  (if _fd ev =? 0 then []
   else [SysIoctl (_fd ev) PERF_EVENT_IOC_DISABLE 0; SysClose (_fd ev)])
  ++ match _page ev with
     | Some p => [SysMunmap p]
     | None => []
     end.

(** ** Numbers in files *)

(** A string of decimal digits, as the kernel writes a number. *)
Fixpoint decimal (s : string) : bool :=
  match s with
  | EmptyString => true
  | String a r => LibC.is_digit_in 10 a && decimal r
  end.

(** The line feed that ends the number. *)
Definition LF : ascii := ascii_of_nat 10.

(** ** An environment with a tracing file system *)

Module DemoTrace.

(** [Demo.os] with the id file of the tracepoint sched:sched_switch. *)
Definition os : OS :=
  {| DEFAULT_INTERVAL := 10000000;
     PERF_PAGE_SIZE := 4096;
     sizeof_attr := 112;
     dlsym := dlsym Demo.os;
     slurp := fun p =>
       if String.eqb p "/sys/kernel/debug/tracing/events/sched/sched_switch/id"
       then Some (String.append "314" (String LF EmptyString))
       else slurp Demo.os p;
     perf_event_open := perf_event_open Demo.os;
     mmap := mmap Demo.os;
     task_dir := task_dir Demo.os;
     read_counter := read_counter Demo.os |}.

End DemoTrace.

(** ** States that the operations leave *)

Module DemoRun.

Definition state_of {A : Type} (r : outcome (A * state)) : state :=
  match r with
  | Done (_, st) => st
  | _ => Demo.idle
  end.

(** [Demo.idle] after a counter has been opened for thread 5. *)
Definition created : state :=
  state_of (PerfEvents.createForThread Demo.os 5 Demo.idle).

(** [Demo.idle] after counters have been opened for the threads 5 and 6 of
    the task directory. *)
Definition created_all : state :=
  state_of (PerfEvents.createForAllThreads Demo.os Demo.idle).

(** A session whose slot array is too short for the threads 5 and 6. *)
Definition small : state :=
  {| _max_events := 4; _events := replicate 4 zero_event;
     _event_type := Some 3%nat; _interval := 1000000;
     table := PerfEventType.AVAILABLE_EVENTS Demo.os;
     memory := ∅; sigprof := SigPerfEvents; trace := [] |}.

(** [small] after the attempt to open a counter for every thread. *)
Definition refused : state :=
  state_of (PerfEvents.createForAllThreads Demo.os small).

(** [Demo.idle] after a start with the event "cycles" and interval 0. *)
Definition started : state :=
  state_of (PerfEvents.start Demo.os "cycles" 0 Demo.idle).

(** [Demo.sampling] after the counter of thread 5 has been closed. *)
Definition destroyed : state :=
  match PerfEvents.destroyForThread 5 Demo.sampling with
  | Done st => st
  | _ => Demo.sampling
  end.

End DemoRun.

(** * Properties *)

(** ** Arrays and outcomes *)

Lemma index_Done {A} (l : list A) (i : Z) (a : A) :
  index l i = Done a <-> 0 <= i /\ l !! Z.to_nat i = Some a.
Proof.
  unfold index. destruct (Z.ltb_spec i 0).
  - split; [discriminate | lia].
  - destruct (l !! Z.to_nat i) eqn:E; split.
    + intros [= ->]. auto.
    + intros [_ [= ->]]. reflexivity.
    + discriminate.
    + intros [_ [=]].
Qed.

Lemma index_beyond {A} (l : list A) (i : Z) :
  Z.of_nat (length l) <= i -> index l i = Fault.
Proof.
  intros H. unfold index. destruct (Z.ltb_spec i 0); [reflexivity|].
  rewrite lookup_ge_None_2; [reflexivity | lia].
Qed.

Lemma index_inside {A} (l : list A) (i : Z) :
  0 <= i < Z.of_nat (length l) -> exists a, index l i = Done a.
Proof.
  intros H. destruct (lookup_lt_is_Some_2 l (Z.to_nat i)) as [a Ha]; [lia|].
  exists a. apply index_Done. split; [lia | exact Ha].
Qed.

(** ** The event catalog *)

Lemma lookup_name_from_names (t1 t2 : list PerfEventType.t) (i : nat) (n : string) :
  PerfEventType.name <$> t1 = PerfEventType.name <$> t2 ->
  PerfEventType.lookup_name_from t1 i n = PerfEventType.lookup_name_from t2 i n.
Proof.
  revert t2 i. induction t1 as [|e1 t1 IH]; intros [|e2 t2] i H; try discriminate.
  - reflexivity.
  - simpl in H. injection H as Hn Ht. simpl. rewrite Hn.
    destruct (PerfEventType.name e2); [|reflexivity].
    destruct (LibC.streq n s); [reflexivity | apply IH, Ht].
Qed.

Lemma findByType_from_types (t1 t2 : list PerfEventType.t) (i : nat) (ty : Z) :
  PerfEventType.type <$> t1 = PerfEventType.type <$> t2 ->
  PerfEventType.findByType_from t1 i ty = PerfEventType.findByType_from t2 i ty.
Proof.
  revert t2 i. induction t1 as [|e1 t1 IH]; intros [|e2 t2] i H; try discriminate.
  - reflexivity.
  - simpl in H. injection H as Hn Ht. simpl. rewrite Hn.
    destruct (PerfEventType.type e2 =? ty); [reflexivity | apply IH, Ht].
Qed.

Lemma lookup_name_from_found (tbl : list PerfEventType.t) (i j : nat) (n : string) :
  PerfEventType.lookup_name_from tbl i n = Done (Some j) ->
  exists e, (i <= j)%nat /\ tbl !! (j - i)%nat = Some e /\ PerfEventType.name e = Some n.
Proof.
  revert i. induction tbl as [|e tbl IH]; intros i H; simpl in H; [discriminate|].
  destruct (PerfEventType.name e) as [en|] eqn:En; [|discriminate].
  destruct (LibC.streq n en) eqn:E.
  - injection H as <-. exists e. rewrite Nat.sub_diag.
    apply String.eqb_eq in E. subst en. auto.
  - apply IH in H as (e' & Hle & Hl & Hn). exists e'.
    split; [lia|]. split; [|exact Hn].
    replace (j - i)%nat with (S (j - S i)) by lia. exact Hl.
Qed.

Lemma catalog_shape_length (os : OS) (tbl : list PerfEventType.t) :
  catalog_shape os tbl -> length tbl = 16%nat.
Proof.
  intros [H _]. apply (f_equal length) in H. rewrite !length_fmap in H. exact H.
Qed.

Lemma catalog_shape_init (os : OS) : catalog_shape os (PerfEventType.AVAILABLE_EVENTS os).
Proof. split; reflexivity. Qed.

Lemma findByType_breakpoint (os : OS) (tbl : list PerfEventType.t) :
  catalog_shape os tbl ->
  exists e, PerfEventType.findByType tbl PERF_TYPE_BREAKPOINT = Done 13%nat
            /\ tbl !! 13%nat = Some e
            /\ PerfEventType.type e = PERF_TYPE_BREAKPOINT.
Proof.
  intros Hs. pose proof (catalog_shape_length os tbl Hs) as Hlen.
  destruct Hs as [_ Ht].
  destruct (lookup_lt_is_Some_2 tbl 13) as [e He]; [lia|].
  exists e. split; [|split; [exact He|]].
  - unfold PerfEventType.findByType.
    rewrite (findByType_from_types _ _ _ _ Ht). reflexivity.
  - apply (f_equal (fun l => l !! 13%nat)) in Ht.
    rewrite list_lookup_fmap, He in Ht. simpl in Ht. congruence.
Qed.

Lemma findCounterArg_total (name : string) :
  exists a, PerfEventType.findCounterArg name = Done a.
Proof.
  unfold PerfEventType.findCounterArg, PerfEventType.KNOWN_FUNCTIONS. simpl.
  repeat (destruct (LibC.streq name _); [eauto|]). eauto.
Qed.

(** When the address part resolves, the breakpoint template of the table is
    filled in and returned. *)
Lemma getBreakpoint_rest_resolved (os : OS) (tbl : list PerfEventType.t)
    (buf buf1 buf2 : string) (bt bl bl1 off addr : Z) :
  catalog_shape os tbl ->
  PerfEventType.parse_length buf bl = (buf1, bl1) ->
  PerfEventType.parse_offset buf1 = (buf2, off) ->
  PerfEventType.parse_address os buf2 = Some addr ->
  exists e arg,
    tbl !! 13%nat = Some e
    /\ PerfEventType.type e = PERF_TYPE_BREAKPOINT
    /\ (if bt =? HW_BREAKPOINT_X then PerfEventType.findCounterArg buf2 else Done 0) = Done arg
    /\ PerfEventType.getBreakpoint_rest os tbl buf bt bl
       = Done (Some 13%nat,
               <[13%nat :=
                   {| PerfEventType.name := PerfEventType.name e;
                      PerfEventType.default_interval := PerfEventType.default_interval e;
                      PerfEventType.precise_ip := PerfEventType.precise_ip e;
                      PerfEventType.type := PerfEventType.type e;
                      PerfEventType.config := LibC.u64 (addr + off);
                      PerfEventType.bp_type := bt;
                      PerfEventType.bp_len := bl1;
                      PerfEventType.counter_arg := arg |}]> tbl).
Proof.
  intros Hs Hl Ho Ha.
  destruct (findByType_breakpoint os tbl Hs) as (e & Hf & He & Hty).
  assert (Harg : exists arg,
    (if bt =? HW_BREAKPOINT_X then PerfEventType.findCounterArg buf2 else Done 0) = Done arg).
  { destruct (bt =? HW_BREAKPOINT_X); [apply findCounterArg_total | eauto]. }
  destruct Harg as [arg Harg].
  exists e, arg. split; [exact He|]. split; [exact Hty|]. split; [exact Harg|].
  assert (Hi : index tbl (Z.of_nat 13) = Done e) by (apply index_Done; split; [lia | exact He]).
  unfold PerfEventType.getBreakpoint_rest. rewrite Hl, Ho, Ha, Hf.
  unfold mbind, outcome_bind. rewrite Hi, Harg. reflexivity.
Qed.

Lemma getBreakpoint_rest_unresolved (os : OS) (tbl : list PerfEventType.t)
    (buf buf1 buf2 : string) (bt bl bl1 off : Z) :
  PerfEventType.parse_length buf bl = (buf1, bl1) ->
  PerfEventType.parse_offset buf1 = (buf2, off) ->
  PerfEventType.parse_address os buf2 = None ->
  PerfEventType.getBreakpoint_rest os tbl buf bt bl = Done (None, tbl).
Proof.
  intros Hl Ho Ha. unfold PerfEventType.getBreakpoint_rest. rewrite Hl, Ho, Ha. reflexivity.
Qed.

(** Writing the mutable fields of an entry keeps the shape of the table. *)
Lemma catalog_shape_insert (os : OS) (tbl : list PerfEventType.t) (i : nat)
    (e e' : PerfEventType.t) :
  catalog_shape os tbl ->
  tbl !! i = Some e ->
  PerfEventType.name e' = PerfEventType.name e ->
  PerfEventType.type e' = PerfEventType.type e ->
  catalog_shape os (<[i := e']> tbl).
Proof.
  intros [Hn Ht] He Hname Htype. split.
  - rewrite list_fmap_insert, Hname, <- Hn. apply list_insert_id.
    rewrite list_lookup_fmap, He. reflexivity.
  - rewrite list_fmap_insert, Htype, <- Ht. apply list_insert_id.
    rewrite list_lookup_fmap, He. reflexivity.
Qed.

Lemma getBreakpoint_keeps_shape (os : OS) (tbl tbl' : list PerfEventType.t)
    (n : string) (bt bl : Z) (r : option nat) :
  catalog_shape os tbl ->
  PerfEventType.getBreakpoint os tbl n bt bl = Done (r, tbl') ->
  catalog_shape os tbl'.
Proof.
  intros Hs. unfold PerfEventType.getBreakpoint.
  destruct (PerfEventType.copy_name n) as [buf| |]; try discriminate. simpl.
  destruct (PerfEventType.parse_access buf bt bl) as [[buf0 bt0] bl0].
  destruct (PerfEventType.parse_length buf0 bl0) as [buf1 bl1] eqn:Hl.
  destruct (PerfEventType.parse_offset buf1) as [buf2 off] eqn:Ho.
  destruct (PerfEventType.parse_address os buf2) as [addr|] eqn:Ha.
  - destruct (getBreakpoint_rest_resolved os tbl buf0 buf1 buf2 bt0 bl0 bl1 off addr
                Hs Hl Ho Ha) as (e & arg & He & _ & _ & ->).
    intros [= _ <-]. apply (catalog_shape_insert os tbl 13 e); auto.
  - rewrite (getBreakpoint_rest_unresolved os tbl buf0 buf1 buf2 bt0 bl0 bl1 off Hl Ho Ha).
    intros [= _ <-]. exact Hs.
Qed.

Lemma getTracepoint_keeps_shape (os : OS) (tbl tbl' : list PerfEventType.t)
    (id : Z) (i : nat) :
  catalog_shape os tbl ->
  PerfEventType.getTracepoint tbl id = Done (i, tbl') ->
  catalog_shape os tbl'.
Proof.
  intros Hs. unfold PerfEventType.getTracepoint.
  destruct (PerfEventType.findByType tbl PERF_TYPE_TRACEPOINT) as [j| |];
    try discriminate. simpl.
  destruct (index tbl (Z.of_nat j)) as [e| |] eqn:Ei; try discriminate. simpl.
  apply index_Done in Ei as [_ He]. rewrite Nat2Z.id in He.
  intros [= _ <-]. apply (catalog_shape_insert os tbl j e); auto.
Qed.

(** The shape is an invariant of the catalog: it holds for the table as
    initialised, and every resolution keeps it. *)
Lemma forName_keeps_shape (os : OS) (tbl tbl' : list PerfEventType.t)
    (n : string) (r : option nat) :
  catalog_shape os tbl ->
  PerfEventType.forName os tbl n = Done (r, tbl') ->
  catalog_shape os tbl'.
Proof.
  intros Hs. unfold PerfEventType.forName.
  destruct (LibC.has_prefix "mem:" n); [apply getBreakpoint_keeps_shape, Hs|].
  assert (Htp : forall id,
    (if 0 <? id
     then PerfEventType.getTracepoint tbl id ≫= (fun '(i, t) => Done (Some i, t))
     else Done (None, tbl)) = Done (r, tbl') -> catalog_shape os tbl').
  { intros id. destruct (0 <? id); [|intros [= _ <-]; exact Hs].
    destruct (PerfEventType.getTracepoint tbl id) as [[i t]| |] eqn:Eg; try discriminate.
    simpl. intros [= _ <-]. exact (getTracepoint_keeps_shape os tbl t id i Hs Eg). }
  destruct (LibC.has_prefix "trace:" n); [apply Htp|].
  destruct (PerfEventType.lookup_name_from tbl 0 n) as [[j|]| |]; try discriminate; simpl.
  - intros [= _ <-]. exact Hs.
  - destruct (if LibC.contains ":" n then PerfEventType.findTracepointId os n else Done 0)
      as [id| |]; try discriminate. simpl.
    destruct (0 <? id) eqn:Eid.
    + intros H. apply (Htp id). rewrite Eid. exact H.
    + apply getBreakpoint_keeps_shape, Hs.
Qed.

Lemma parse_address_symbol (os : OS) (buf : string) :
  LibC.has_prefix "0x" buf = false ->
  LibC.u64 (dlsym os buf) <> 0 ->
  PerfEventType.parse_address os buf = Some (LibC.u64 (dlsym os buf)).
Proof.
  intros Hp Hs. unfold PerfEventType.parse_address. rewrite Hp.
  destruct (Z.eqb_spec (LibC.u64 (dlsym os buf)) 0); [contradiction | reflexivity].
Qed.

Lemma forName_lookup (os : OS) (tbl : list PerfEventType.t) (n : string) :
  catalog_shape os tbl ->
  PerfEventType.lookup_name_from tbl 0 n
  = PerfEventType.lookup_name_from (PerfEventType.AVAILABLE_EVENTS os) 0 n.
Proof. intros [Hn _]. apply lookup_name_from_names, Hn. Qed.

(** C4: with a symbol foo that resolves, "mem:foo+0x10/4:w" gives the
    breakpoint descriptor with address foo + 0x10 (in 64-bit arithmetic),
    length 4 and write access, and the bare name "foo" gives the breakpoint
    descriptor with the address of foo, execute access and the length of a
    pointer. *)
Theorem C4_breakpoint_spec_parsing (os : OS) (tbl : list PerfEventType.t) :
  catalog_shape os tbl ->
  LibC.u64 (dlsym os "foo") <> 0 ->
  (exists i tbl' d,
      PerfEventType.forName os tbl "mem:foo+0x10/4:w" = Done (Some i, tbl')
      /\ tbl' !! i = Some d
      /\ PerfEventType.type d = PERF_TYPE_BREAKPOINT
      /\ PerfEventType.config d = LibC.u64 (dlsym os "foo" + 0x10)
      /\ PerfEventType.bp_len d = 4
      /\ PerfEventType.bp_type d = HW_BREAKPOINT_W)
  /\ (exists i tbl' d,
      PerfEventType.forName os tbl "foo" = Done (Some i, tbl')
      /\ tbl' !! i = Some d
      /\ PerfEventType.type d = PERF_TYPE_BREAKPOINT
      /\ PerfEventType.config d = LibC.u64 (dlsym os "foo")
      /\ PerfEventType.bp_len d = sizeof_long
      /\ PerfEventType.bp_type d = HW_BREAKPOINT_X).
Proof.
  intros Hs Hfoo.
  pose proof (catalog_shape_length os tbl Hs) as Hlen.
  assert (Haddr : PerfEventType.parse_address os "foo" = Some (LibC.u64 (dlsym os "foo")))
    by (apply parse_address_symbol; [reflexivity | exact Hfoo]).
  split.
  - assert (E : PerfEventType.forName os tbl "mem:foo+0x10/4:w"
                = PerfEventType.getBreakpoint_rest os tbl "foo+0x10/4" HW_BREAKPOINT_W 1)
      by reflexivity.
    destruct (getBreakpoint_rest_resolved os tbl "foo+0x10/4" "foo+0x10" "foo"
                HW_BREAKPOINT_W 1 4 16 _ Hs eq_refl eq_refl Haddr)
      as (e & arg & He & Hty & _ & Hr).
    rewrite E, Hr. do 3 eexists. split; [reflexivity|].
    split; [apply list_lookup_insert_eq; lia|]. simpl.
    split; [exact Hty|]. split; [|auto].
    unfold LibC.u64. apply Zplus_mod_idemp_l.
  - assert (E : PerfEventType.forName os tbl "foo"
                = PerfEventType.getBreakpoint_rest os tbl "foo" HW_BREAKPOINT_X sizeof_long).
    { unfold PerfEventType.forName.
      change (LibC.has_prefix "mem:" "foo") with false.
      change (LibC.has_prefix "trace:" "foo") with false.
      cbv iota. rewrite (forName_lookup os tbl "foo" Hs). reflexivity. }
    destruct (getBreakpoint_rest_resolved os tbl "foo" "foo" "foo"
                HW_BREAKPOINT_X sizeof_long sizeof_long 0 _ Hs eq_refl eq_refl Haddr)
      as (e & arg & He & Hty & _ & Hr).
    rewrite E, Hr. do 3 eexists. split; [reflexivity|].
    split; [apply list_lookup_insert_eq; lia|]. simpl.
    split; [exact Hty|]. split; [|auto].
    rewrite Z.add_0_r. unfold LibC.u64. apply Zmod_mod.
Qed.

Lemma C4_witness :
  catalog_shape Demo.os (PerfEventType.AVAILABLE_EVENTS Demo.os)
  /\ LibC.u64 (dlsym Demo.os "foo") <> 0
  /\ (exists i tbl' d,
      PerfEventType.forName Demo.os (PerfEventType.AVAILABLE_EVENTS Demo.os)
        "mem:foo+0x10/4:w" = Done (Some i, tbl')
      /\ tbl' !! i = Some d
      /\ PerfEventType.type d = PERF_TYPE_BREAKPOINT
      /\ PerfEventType.config d = LibC.u64 (dlsym Demo.os "foo" + 0x10)
      /\ PerfEventType.bp_len d = 4
      /\ PerfEventType.bp_type d = HW_BREAKPOINT_W)
  /\ (exists i tbl' d,
      PerfEventType.forName Demo.os (PerfEventType.AVAILABLE_EVENTS Demo.os)
        "foo" = Done (Some i, tbl')
      /\ tbl' !! i = Some d
      /\ PerfEventType.type d = PERF_TYPE_BREAKPOINT
      /\ PerfEventType.config d = LibC.u64 (dlsym Demo.os "foo")
      /\ PerfEventType.bp_len d = sizeof_long
      /\ PerfEventType.bp_type d = HW_BREAKPOINT_X).
Proof.
  split; [split; reflexivity|]. split; [vm_compute; discriminate|].
  apply (C4_breakpoint_spec_parsing Demo.os (PerfEventType.AVAILABLE_EVENTS Demo.os));
    [split; reflexivity | vm_compute; discriminate].
Defined.

(** The stages of the breakpoint parser on that specification. *)
Example parse_stages :
  PerfEventType.parse_access "foo+0x10/4:w" HW_BREAKPOINT_RW 1
    = ("foo+0x10/4"%string, HW_BREAKPOINT_W, 1)
  /\ PerfEventType.parse_length "foo+0x10/4" 1 = ("foo+0x10"%string, 4)
  /\ PerfEventType.parse_offset "foo+0x10" = ("foo"%string, 16).
Proof. repeat split. Qed.

(** An unresolved symbol is the failure of the whole resolution. *)
Example forName_unresolved_symbol :
  PerfEventType.forName Demo.os (PerfEventType.AVAILABLE_EVENTS Demo.os) "mem:bar+0x10/4:w"
  = Done (None, PerfEventType.AVAILABLE_EVENTS Demo.os).
Proof. reflexivity. Qed.

(** The names of the table, one by one: each is found at its own position,
    and only the two templates carry a prefix that [forName] tests first. *)
Lemma listed_name_cases (os : OS) (n : string) :
  Some n ∈ PerfEvents.getAvailableEvents os ->
  (exists j, PerfEventType.lookup_name_from (PerfEventType.AVAILABLE_EVENTS os) 0 n
             = Done (Some j))
  /\ (n = "mem:breakpoint"%string \/ n = "trace:tracepoint"%string
      \/ (LibC.has_prefix "mem:" n = false /\ LibC.has_prefix "trace:" n = false)).
Proof.
  intros H. apply list_elem_of_In in H. simpl in H.
  repeat (destruct H as [H | H];
          [ injection H as <-; split; [eexists; reflexivity | tauto] | ]);
    destruct H as [H | []]; discriminate H.
Qed.

Lemma tracepoint_template_unresolved (os : OS) (tbl : list PerfEventType.t) :
  PerfEventType.forName os tbl "trace:tracepoint" = Done (None, tbl).
Proof. reflexivity. Qed.

(** C3, as the code has it: every name of the listing other than the two
    templates "mem:breakpoint" and "trace:tracepoint" resolves, to the table
    entry of that name, and the table stays as it is. *)
Theorem C3_listed_counters_resolve (os : OS) (tbl : list PerfEventType.t) (n : string) :
  catalog_shape os tbl ->
  Some n ∈ PerfEvents.getAvailableEvents os ->
  n <> "mem:breakpoint"%string ->
  n <> "trace:tracepoint"%string ->
  exists i e,
    PerfEventType.forName os tbl n = Done (Some i, tbl)
    /\ tbl !! i = Some e
    /\ PerfEventType.name e = Some n.
Proof.
  intros Hs Hin Hmem Htrace.
  destruct (listed_name_cases os n Hin) as [[j Hj] [? | [? | [Hp1 Hp2]]]];
    [contradiction.. |].
  rewrite <- (forName_lookup os tbl n Hs) in Hj.
  destruct (lookup_name_from_found tbl 0 j n Hj) as (e & _ & He & Hn).
  rewrite Nat.sub_0_r in He.
  exists j, e. split; [|auto].
  unfold PerfEventType.forName. rewrite Hp1, Hp2, Hj. reflexivity.
Qed.

Lemma C3_witness :
  catalog_shape Demo.os (PerfEventType.AVAILABLE_EVENTS Demo.os)
  /\ Some "cache-misses"%string ∈ PerfEvents.getAvailableEvents Demo.os
  /\ "cache-misses"%string <> "mem:breakpoint"%string
  /\ "cache-misses"%string <> "trace:tracepoint"%string
  /\ exists i e,
    PerfEventType.forName Demo.os (PerfEventType.AVAILABLE_EVENTS Demo.os) "cache-misses"
      = Done (Some i, PerfEventType.AVAILABLE_EVENTS Demo.os)
    /\ PerfEventType.AVAILABLE_EVENTS Demo.os !! i = Some e
    /\ PerfEventType.name e = Some "cache-misses"%string.
Proof.
  assert (Hin : Some "cache-misses"%string ∈ PerfEvents.getAvailableEvents Demo.os)
    by (apply list_elem_of_In; simpl; tauto).
  split; [split; reflexivity|]. split; [exact Hin|].
  split; [discriminate|]. split; [discriminate|].
  apply (C3_listed_counters_resolve Demo.os (PerfEventType.AVAILABLE_EVENTS Demo.os)
           "cache-misses"); [split; reflexivity | exact Hin | discriminate..].
Defined.

(** C3 as stated fails: "trace:tracepoint" is in the listing, and [forName]
    returns [NULL] for it, because [atoi("tracepoint")] is 0. *)
Lemma C3_counterexample :
  ~ (forall (os : OS) (n : string),
        Some n ∈ PerfEvents.getAvailableEvents os ->
        exists i tbl',
          PerfEventType.forName os (PerfEventType.AVAILABLE_EVENTS os) n
            = Done (Some i, tbl')).
Proof.
  intros H.
  destruct (H Demo.os "trace:tracepoint"%string) as (i & tbl' & E).
  - apply list_elem_of_In. simpl. tauto.
  - rewrite tracepoint_template_unresolved in E. discriminate E.
Qed.

(** ** An access suffix outside r, w, x *)

Lemma cut_last_absent (c : ascii) (s : string) :
  LibC.contains c s = false -> LibC.cut_last c s = None.
Proof.
  induction s as [|a s IH]; simpl; [reflexivity|].
  intros H. apply orb_false_iff in H as [Ha Hs].
  rewrite (IH Hs), Ha. reflexivity.
Qed.

Lemma cut_last_append (c : ascii) (pre suf : string) :
  LibC.contains c suf = false ->
  LibC.cut_last c (pre +:+ String c suf) = Some (pre, suf).
Proof.
  intros H. induction pre as [|a pre IH]; simpl.
  - rewrite (cut_last_absent c suf H), Ascii.eqb_refl. reflexivity.
  - rewrite IH. reflexivity.
Qed.

Lemma parse_access_other (pre suf : string) (bp_type bp_len : Z) :
  LibC.contains ":" suf = false ->
  suf <> "r"%string -> suf <> "w"%string -> suf <> "x"%string ->
  PerfEventType.parse_access (pre +:+ String ":" suf) bp_type bp_len
  = (pre, HW_BREAKPOINT_RW, bp_len).
Proof.
  intros Hc Hr Hw Hx. unfold PerfEventType.parse_access, LibC.streq.
  rewrite (cut_last_append _ pre suf Hc).
  apply String.eqb_neq in Hr, Hw, Hx. rewrite Hr, Hw, Hx. reflexivity.
Qed.

(** C10: a breakpoint specification whose text after the last ':' is not
    "r", "w" or "x" is not rejected.  The parser goes on with the text before
    that ':' and read-write access: the call returns; when the address part
    resolves, the result is the breakpoint descriptor with read-write access,
    and the only failure left is an address part that does not resolve. *)
Theorem C10_unknown_access_is_read_write (os : OS) (tbl : list PerfEventType.t)
    (pre suf : string) (bp_type bp_len : Z) :
  catalog_shape os tbl ->
  LibC.contains ":" suf = false ->
  suf <> "r"%string -> suf <> "w"%string -> suf <> "x"%string ->
  (String.length (pre +:+ String ":" suf) < 256)%nat ->
  PerfEventType.getBreakpoint os tbl (pre +:+ String ":" suf) bp_type bp_len
    = PerfEventType.getBreakpoint_rest os tbl pre HW_BREAKPOINT_RW bp_len
  /\ match PerfEventType.getBreakpoint os tbl (pre +:+ String ":" suf) bp_type bp_len with
     | Done (Some i, tbl') =>
         exists d, tbl' !! i = Some d
                   /\ PerfEventType.type d = PERF_TYPE_BREAKPOINT
                   /\ PerfEventType.bp_type d = HW_BREAKPOINT_RW
     | Done (None, tbl') =>
         tbl' = tbl
         /\ PerfEventType.parse_address os
              (PerfEventType.parse_offset (PerfEventType.parse_length pre bp_len).1).1 = None
     | Fault | Spin => False
     end.
Proof.
  intros Hs Hc Hr Hw Hx Hlen.
  assert (E : PerfEventType.getBreakpoint os tbl (pre +:+ String ":" suf) bp_type bp_len
              = PerfEventType.getBreakpoint_rest os tbl pre HW_BREAKPOINT_RW bp_len).
  { unfold PerfEventType.getBreakpoint, PerfEventType.copy_name.
    destruct (Z.ltb_spec (Z.of_nat (String.length (pre +:+ String ":" suf))) 256); [|lia].
    simpl. rewrite (parse_access_other pre suf _ _ Hc Hr Hw Hx). reflexivity. }
  split; [exact E|]. rewrite E.
  destruct (PerfEventType.parse_length pre bp_len) as [buf1 bl1] eqn:Hl. simpl.
  destruct (PerfEventType.parse_offset buf1) as [buf2 off] eqn:Ho. simpl.
  destruct (PerfEventType.parse_address os buf2) as [addr|] eqn:Ha.
  - destruct (getBreakpoint_rest_resolved os tbl pre buf1 buf2 HW_BREAKPOINT_RW
                bp_len bl1 off addr Hs Hl Ho Ha) as (e & arg & He & Hty & _ & Hr').
    rewrite Hr'. eexists. split.
    { apply list_lookup_insert_eq. rewrite (catalog_shape_length os tbl Hs). lia. }
    simpl. split; [exact Hty | reflexivity].
  - rewrite (getBreakpoint_rest_unresolved os tbl pre buf1 buf2 _ _ bl1 off Hl Ho Ha).
    auto.
Qed.

Lemma C10_witness :
  catalog_shape Demo.os (PerfEventType.AVAILABLE_EVENTS Demo.os)
  /\ LibC.contains ":" "rw" = false
  /\ "rw"%string <> "r"%string /\ "rw"%string <> "w"%string /\ "rw"%string <> "x"%string
  /\ (String.length ("foo" +:+ String ":" "rw") < 256)%nat
  /\ PerfEventType.getBreakpoint Demo.os (PerfEventType.AVAILABLE_EVENTS Demo.os)
       ("foo" +:+ String ":" "rw") HW_BREAKPOINT_RW 1
     = PerfEventType.getBreakpoint_rest Demo.os (PerfEventType.AVAILABLE_EVENTS Demo.os)
         "foo" HW_BREAKPOINT_RW 1
  /\ match PerfEventType.getBreakpoint Demo.os (PerfEventType.AVAILABLE_EVENTS Demo.os)
             ("foo" +:+ String ":" "rw") HW_BREAKPOINT_RW 1 with
     | Done (Some i, tbl') =>
         exists d, tbl' !! i = Some d
                   /\ PerfEventType.type d = PERF_TYPE_BREAKPOINT
                   /\ PerfEventType.bp_type d = HW_BREAKPOINT_RW
     | Done (None, tbl') =>
         tbl' = PerfEventType.AVAILABLE_EVENTS Demo.os
         /\ PerfEventType.parse_address Demo.os
              (PerfEventType.parse_offset (PerfEventType.parse_length "foo" 1).1).1 = None
     | Fault | Spin => False
     end.
Proof.
  split; [split; reflexivity|]. split; [reflexivity|].
  split; [discriminate|]. split; [discriminate|]. split; [discriminate|].
  split; [simpl; lia|].
  apply (C10_unknown_access_is_read_write Demo.os (PerfEventType.AVAILABLE_EVENTS Demo.os)
           "foo" "rw" HW_BREAKPOINT_RW 1);
    [split; reflexivity | reflexivity | discriminate.. | simpl; lia].
Defined.

(** The same through [forName], for "mem:foo:rw". *)
Example forName_mem_foo_rw :
  exists tbl',
    PerfEventType.forName Demo.os (PerfEventType.AVAILABLE_EVENTS Demo.os) "mem:foo:rw"
      = Done (Some 13%nat, tbl')
    /\ PerfEventType.bp_type <$> tbl' !! 13%nat = Some HW_BREAKPOINT_RW
    /\ PerfEventType.config <$> tbl' !! 13%nat = Some (dlsym Demo.os "foo").
Proof. eexists. split; [reflexivity|]. split; reflexivity. Qed.

(** ** Thread ids at or beyond the capacity *)

Lemma createForThread_beyond (os : OS) (tid : Z) (st : state) :
  _max_events st <= tid ->
  PerfEvents.createForThread os tid st
  = Done (false, emit (Stderr (tid_warning tid (_max_events st))) st).
Proof.
  intros Hge. unfold PerfEvents.createForThread.
  destruct (Z.geb_spec tid (_max_events st)); [reflexivity | lia].
Qed.

Lemma destroyForThread_beyond (tid : Z) (st : state) :
  _max_events st <= tid -> PerfEvents.destroyForThread tid st = Done st.
Proof.
  intros Hge. unfold PerfEvents.destroyForThread.
  destruct (Z.geb_spec tid (_max_events st)); [reflexivity | lia].
Qed.

(** C6: for a tid at or beyond the capacity, createForThread writes the
    warning, returns false and leaves every slot as it was; destroyForThread
    returns with the whole state as it was. *)
Theorem C6_tid_beyond_capacity (os : OS) (tid : Z) (st : state) :
  _max_events st <= tid ->
  (exists st',
      PerfEvents.createForThread os tid st = Done (false, st')
      /\ trace st' = trace st ++ [Stderr (tid_warning tid (_max_events st))]
      /\ _events st' = _events st
      /\ memory st' = memory st)
  /\ PerfEvents.destroyForThread tid st = Done st.
Proof.
  intros Hge. split.
  - eexists. split; [apply createForThread_beyond, Hge|]. simpl. auto.
  - apply destroyForThread_beyond, Hge.
Qed.

Lemma C6_witness :
  _max_events Demo.idle <= 8
  /\ ((exists st',
        PerfEvents.createForThread Demo.os 8 Demo.idle = Done (false, st')
        /\ trace st' = trace Demo.idle ++ [Stderr (tid_warning 8 (_max_events Demo.idle))]
        /\ _events st' = _events Demo.idle
        /\ memory st' = memory Demo.idle)
      /\ PerfEvents.destroyForThread 8 Demo.idle = Done Demo.idle).
Proof.
  split; [simpl; lia | apply (C6_tid_beyond_capacity Demo.os 8 Demo.idle); simpl; lia].
Defined.

(** ** The signal handler *)

(** C8: a signal whose si_code is at most 0 makes the handler return at
    once: the state, and with it the trace of samples, reads and ioctls, is
    the one before the call. *)
Theorem C8_external_signal_ignored (os : OS) (signo : Z) (siginfo : siginfo_t)
    (ucontext : ucontext_t) (st : state) :
  si_code siginfo <= 0 ->
  PerfEvents.signalHandler os signo siginfo ucontext st = Done st.
Proof.
  intros H. unfold PerfEvents.signalHandler.
  destruct (Z.leb_spec (si_code siginfo) 0); [reflexivity | lia].
Qed.

Lemma C8_witness :
  si_code {| si_code := 0; si_fd := 8 |} <= 0
  /\ PerfEvents.signalHandler Demo.os 27 {| si_code := 0; si_fd := 8 |}
       Demo.ucontext Demo.sampling = Done Demo.sampling.
Proof.
  split; [simpl; lia | apply C8_external_signal_ignored; simpl; lia].
Defined.

(** A signal of the kernel does reach the sink and re-arms the counter. *)
Example signalHandler_kernel_signal :
  PerfEvents.signalHandler Demo.os 27 {| si_code := 1; si_fd := 8 |}
    Demo.ucontext Demo.sampling
  = Done (emit (SysIoctl 8 PERF_EVENT_IOC_REFRESH 1)
           (emit (SysIoctl 8 PERF_EVENT_IOC_RESET 0)
             (emit (RecordSample Demo.ucontext 7)
               (emit (SysRead 8) Demo.sampling)))).
Proof. reflexivity. Qed.

(** ** A start that fails early *)

(** C2: when the name resolves to no descriptor, or the interval is
    negative, start returns an error and has opened nothing: the slot array
    and its capacity, the signal handler, the mappings, the interval and the
    trace of system calls are the ones before the call. *)
Theorem C2_failed_start_opens_nothing (os : OS) (event : string) (interval : Z)
    (st : state) (et : option nat) (tbl : list PerfEventType.t) :
  PerfEventType.forName os (table st) event = Done (et, tbl) ->
  et = None \/ interval < 0 ->
  exists st',
    PerfEvents.start os event interval st
      = Done (Err (match et with
                   | Some _ => "interval must be positive"
                   | None => "Unsupported event type"
                   end), st')
    /\ _events st' = _events st
    /\ _max_events st' = _max_events st
    /\ sigprof st' = sigprof st
    /\ memory st' = memory st
    /\ _interval st' = _interval st
    /\ trace st' = trace st.
Proof.
  intros Hname Hwhy. unfold PerfEvents.start. rewrite Hname. simpl.
  destruct et as [i|].
  - destruct Hwhy as [[=] | Hneg].
    destruct (Z.ltb_spec interval 0); [|lia].
    eexists. split; [reflexivity|]. simpl. auto 10.
  - eexists. split; [reflexivity|]. simpl. auto 10.
Qed.

Lemma C2_witness :
  PerfEventType.forName Demo.os (table Demo.sampling) "cycles"
    = Done (Some 3%nat, table Demo.sampling)
  /\ (Some 3%nat = None \/ -1 < 0)
  /\ exists st',
    PerfEvents.start Demo.os "cycles" (-1) Demo.sampling
      = Done (Err "interval must be positive", st')
    /\ _events st' = _events Demo.sampling
    /\ _max_events st' = _max_events Demo.sampling
    /\ sigprof st' = sigprof Demo.sampling
    /\ memory st' = memory Demo.sampling
    /\ _interval st' = _interval Demo.sampling
    /\ trace st' = trace Demo.sampling.
Proof.
  split; [reflexivity|]. split; [right; lia|].
  apply (C2_failed_start_opens_nothing Demo.os "cycles" (-1) Demo.sampling
           (Some 3%nat) (table Demo.sampling)); [reflexivity | right; lia].
Defined.

(** An unknown name that is no symbol either: the other way to fail early. *)
Example start_unknown_event :
  PerfEvents.start Demo.os "no-such-event" 1000 Demo.sampling
  = Done (Err "Unsupported event type",
          {| _max_events := 8; _events := _events Demo.sampling;
             _event_type := None; _interval := 1000000;
             table := table Demo.sampling; memory := memory Demo.sampling;
             sigprof := SigPerfEvents; trace := [] |}).
Proof. reflexivity. Qed.

(** ** Creating and destroying the counter of a thread *)

Lemma destroyForThread_idle (tid : Z) (st : state) (ev : PerfEvent) :
  0 <= tid ->
  _events st !! Z.to_nat tid = Some ev ->
  _fd ev = 0 -> _page ev = None ->
  PerfEvents.destroyForThread tid st = Done st.
Proof.
  intros Htid Hev Hfd Hpage. unfold PerfEvents.destroyForThread.
  destruct (tid >=? _max_events st); [reflexivity|].
  assert (Hi : index (_events st) tid = Done ev) by (apply index_Done; auto).
  rewrite Hi. simpl. rewrite Hfd. simpl. rewrite Hpage. reflexivity.
Qed.

Lemma destroyForThread_closes (tid : Z) (st : state) (ev : PerfEvent) :
  0 <= tid < _max_events st ->
  _events st !! Z.to_nat tid = Some ev ->
  _lock ev = false ->
  exists st',
    PerfEvents.destroyForThread tid st = Done st'
    /\ _events st' = <[Z.to_nat tid := zero_event]> (_events st)
    /\ _max_events st' = _max_events st.
Proof.
  intros Htid Hev Hfree. unfold PerfEvents.destroyForThread.
  destruct (Z.geb_spec tid (_max_events st)); [lia|].
  assert (Hi : index (_events st) tid = Done ev) by (apply index_Done; split; [lia | exact Hev]).
  rewrite Hi. simpl.
  destruct ev as [l fd pg]. simpl in *. subst l.
  destruct (Z.eqb_spec fd 0) as [-> | Hfd]; simpl.
  - destruct pg as [p|]; simpl.
    + eexists. split; [reflexivity|]. simpl.
      rewrite !list_insert_insert_eq. auto.
    + eexists. split; [reflexivity|]. split; [|reflexivity].
      symmetry. apply list_insert_id. exact Hev.
  - destruct pg as [p|]; simpl.
    + eexists. split; [reflexivity|]. simpl.
      rewrite !list_insert_insert_eq. auto.
    + eexists. split; [reflexivity|]. simpl. auto.
Qed.

Lemma createForThread_slot (os : OS) (tid : Z) (st : state) (ev : PerfEvent)
    (et : PerfEventType.t) :
  0 <= tid < _max_events st ->
  active_type st = Done et ->
  _events st !! Z.to_nat tid = Some ev ->
  _lock ev = false ->
  exists ok st' ev',
    PerfEvents.createForThread os tid st = Done (ok, st')
    /\ _max_events st' = _max_events st
    /\ _events st' !! Z.to_nat tid = Some ev'
    /\ _lock ev' = false.
Proof.
  intros Htid Het Hev Hfree. unfold PerfEvents.createForThread.
  destruct (Z.geb_spec tid (_max_events st)); [lia|].
  rewrite Het. simpl.
  destruct (_ =? -1).
  - do 3 eexists. split; [reflexivity|]. simpl. eauto.
  - assert (Hi : forall st0, _events st0 = _events st -> index (_events st0) tid = Done ev).
    { intros st0 ->. apply index_Done. split; [lia | exact Hev]. }
    assert (Hlen : (Z.to_nat tid < length (_events st))%nat).
    { apply lookup_lt_is_Some. eauto. }
    destruct (mmap os _) as [p|]; simpl; (rewrite Hi; [|reflexivity]); simpl;
      do 3 eexists; (split; [reflexivity|]); simpl;
      (split; [reflexivity|]);
      (split; [apply list_lookup_insert_eq; exact Hlen | reflexivity]).
Qed.

(** The capacity and the length of the slot array are left alone by the
    operations on one thread: the array is only replaced by [start]. *)
Lemma createForThread_capacity (os : OS) (tid : Z) (st st' : state) (ok : bool) :
  PerfEvents.createForThread os tid st = Done (ok, st') ->
  _max_events st' = _max_events st /\ length (_events st') = length (_events st).
Proof.
  unfold PerfEvents.createForThread.
  destruct (tid >=? _max_events st); [intros [= _ <-]; auto|].
  destruct (active_type st) as [et| |]; try discriminate. simpl.
  destruct (_ =? -1); [intros [= _ <-]; auto|].
  destruct (mmap os _) as [p|]; simpl;
    (destruct (index (_events st) tid); try discriminate); simpl;
    intros [= _ <-]; simpl; rewrite length_insert; auto.
Qed.

Lemma destroyForThread_capacity (tid : Z) (st st' : state) :
  PerfEvents.destroyForThread tid st = Done st' ->
  _max_events st' = _max_events st /\ length (_events st') = length (_events st).
Proof.
  unfold PerfEvents.destroyForThread.
  destruct (tid >=? _max_events st); [intros [= <-]; auto|].
  destruct (index (_events st) tid) as [[l fd pg]| |]; try discriminate. simpl.
  destruct (negb (fd =? 0)); destruct pg as [p|]; simpl;
    try destruct l; try discriminate;
    intros [= <-]; simpl; rewrite ?length_insert; auto.
Qed.

(** C5: in a session (an event type is selected) and with the guard of the
    slot free, createForThread followed by destroyForThread for a thread id
    inside the array returns with the slot's handle 0 and its buffer pointer
    null, whether or not the counter could be opened; destroyForThread from
    that state changes nothing. *)
Theorem C5_create_destroy_idempotent (os : OS) (tid : Z) (st : state)
    (ev : PerfEvent) (et : PerfEventType.t) :
  0 <= tid < _max_events st ->
  active_type st = Done et ->
  _events st !! Z.to_nat tid = Some ev ->
  _lock ev = false ->
  exists ok st1 st2 ev2,
    PerfEvents.createForThread os tid st = Done (ok, st1)
    /\ PerfEvents.destroyForThread tid st1 = Done st2
    /\ _events st2 !! Z.to_nat tid = Some ev2
    /\ _fd ev2 = 0
    /\ _page ev2 = None
    /\ PerfEvents.destroyForThread tid st2 = Done st2.
Proof.
  intros Htid Het Hev Hfree.
  destruct (createForThread_slot os tid st ev et Htid Het Hev Hfree)
    as (ok & st1 & ev1 & Hcreate & Hmax & Hev1 & Hfree1).
  destruct (destroyForThread_closes tid st1 ev1) as (st2 & Hdestroy & Hevs & _);
    [lia | exact Hev1 | exact Hfree1 |].
  assert (Hev2 : _events st2 !! Z.to_nat tid = Some zero_event).
  { rewrite Hevs. apply list_lookup_insert_eq. apply lookup_lt_is_Some. eauto. }
  exists ok, st1, st2, zero_event.
  repeat split; try assumption.
  apply (destroyForThread_idle tid st2 zero_event); [lia | exact Hev2 | reflexivity..].
Qed.

Lemma C5_witness :
  0 <= 5 < _max_events Demo.idle
  /\ active_type Demo.idle = Done (PerfEventType.entry "cycles" 1000000 2 PERF_TYPE_HARDWARE PERF_COUNT_HW_CPU_CYCLES)
  /\ _events Demo.idle !! Z.to_nat 5 = Some zero_event
  /\ _lock zero_event = false
  /\ exists ok st1 st2 ev2,
    PerfEvents.createForThread Demo.os 5 Demo.idle = Done (ok, st1)
    /\ PerfEvents.destroyForThread 5 st1 = Done st2
    /\ _events st2 !! Z.to_nat 5 = Some ev2
    /\ _fd ev2 = 0
    /\ _page ev2 = None
    /\ PerfEvents.destroyForThread 5 st2 = Done st2.
Proof.
  split; [simpl; lia|]. split; [reflexivity|]. split; [reflexivity|].
  split; [reflexivity|].
  apply (C5_create_destroy_idempotent Demo.os 5 Demo.idle zero_event
           (PerfEventType.entry "cycles" 1000000 2 PERF_TYPE_HARDWARE PERF_COUNT_HW_CPU_CYCLES));
    [simpl; lia | reflexivity..].
Defined.

(** The counter that was opened in between is disabled, closed and unmapped. *)
Example create_destroy_trace :
  (PerfEvents.createForThread Demo.os 5 Demo.idle
     ≫= fun '(_, st) => PerfEvents.destroyForThread 5 st)
  = Done {| _max_events := 8; _events := replicate 8 zero_event;
            _event_type := Some 3%nat; _interval := 1000000;
            table := PerfEventType.AVAILABLE_EVENTS Demo.os;
            memory := delete 524288 (<[524288 := fresh_page]> ∅);
            sigprof := SigPerfEvents;
            trace := [ SysPerfEventOpen
                         (PerfEvents.make_attr Demo.os
                            (PerfEventType.entry "cycles" 1000000 2
                               PERF_TYPE_HARDWARE PERF_COUNT_HW_CPU_CYCLES) 1000000) 5;
                       SysMmap 8;
                       SysFcntl 8 F_SETFL_O_ASYNC; SysFcntl 8 F_SETSIG_SIGPROF;
                       SysFcntl 8 (F_SETOWN_EX_TID 5);
                       SysIoctl 8 PERF_EVENT_IOC_RESET 0;
                       SysIoctl 8 PERF_EVENT_IOC_REFRESH 1;
                       SysIoctl 8 PERF_EVENT_IOC_DISABLE 0; SysClose 8;
                       SysMunmap 524288 ] |}.
Proof. reflexivity. Qed.

(** ** The reader does not look at the capacity *)

(** C9: getCallChain indexes the slot array with its tid before anything
    else and never compares the tid with the capacity.  With the array as
    long as the capacity says, the access is outside the array for every tid
    at or beyond the capacity, and the call is undefined there, while
    createForThread and destroyForThread test the tid and return. *)
Theorem C9_getCallChain_unchecked_tid (os : OS) (fuel : nat) (ucontext : ucontext_t)
    (tid : Z) (callchain : list Z) (max_depth jit_min jit_max : Z) (st : state) :
  Z.of_nat (length (_events st)) = _max_events st ->
  _max_events st <= tid ->
  index (_events st) tid = Fault
  /\ PerfEvents.getCallChain os fuel ucontext tid callchain max_depth jit_min jit_max st
     = Fault
  /\ (exists st', PerfEvents.createForThread os tid st = Done (false, st'))
  /\ PerfEvents.destroyForThread tid st = Done st.
Proof.
  intros Hlen Hge.
  assert (Hi : index (_events st) tid = Fault) by (apply index_beyond; lia).
  split; [exact Hi|]. split; [|split].
  - unfold PerfEvents.getCallChain. rewrite Hi. reflexivity.
  - eexists. apply createForThread_beyond, Hge.
  - apply destroyForThread_beyond, Hge.
Qed.

Lemma C9_witness :
  Z.of_nat (length (_events Demo.sampling)) = _max_events Demo.sampling
  /\ _max_events Demo.sampling <= 8
  /\ index (_events Demo.sampling) 8 = Fault
  /\ PerfEvents.getCallChain Demo.os 5 Demo.ucontext 8 [0; 0; 0; 0] 4 4096 8192 Demo.sampling
     = Fault
  /\ (exists st', PerfEvents.createForThread Demo.os 8 Demo.sampling = Done (false, st'))
  /\ PerfEvents.destroyForThread 8 Demo.sampling = Done Demo.sampling.
Proof.
  split; [reflexivity|]. split; [simpl; lia|].
  apply (C9_getCallChain_unchecked_tid Demo.os 5 Demo.ucontext 8 [0; 0; 0; 0] 4 4096 8192
           Demo.sampling); [reflexivity | simpl; lia].
Defined.

(** A negative tid is not caught by the test of the other two either. *)
Example negative_tid :
  PerfEvents.getCallChain Demo.os 5 Demo.ucontext (-1) [0; 0; 0; 0] 4 4096 8192 Demo.sampling
    = Fault
  /\ PerfEvents.destroyForThread (-1) Demo.sampling = Fault.
Proof. split; reflexivity. Qed.

(** ** The call chain kept of a sample *)

Section Chain.
Variables max_depth jit_min jit_max : Z.

Lemma before_first_clean (l : list Z) :
  Forall (fun a => ~ (jit_min <= a < jit_max))
         (before_first (fun ip => (jit_min <=? ip) && (ip <? jit_max)) l).
Proof.
  induction l as [|x l IH]; simpl; [constructor|].
  destruct (Z.leb_spec jit_min x); destruct (Z.ltb_spec x jit_max); simpl;
    try constructor; try lia; exact IH.
Qed.

Lemma before_first_stop (l r : list Z) (ip : Z) :
  jit_min <= ip < jit_max ->
  before_first (fun ip => (jit_min <=? ip) && (ip <? jit_max)) (l ++ ip :: r)
  = before_first (fun ip => (jit_min <=? ip) && (ip <? jit_max)) l.
Proof.
  intros Hip. induction l as [|x l IH]; simpl.
  - destruct (Z.leb_spec jit_min ip); destruct (Z.ltb_spec ip jit_max);
      simpl; [reflexivity | lia..].
  - destruct ((jit_min <=? x) && (x <? jit_max)); [reflexivity | f_equal; exact IH].
Qed.

Lemma call_chain_of_length (ips : list Z) :
  0 <= max_depth ->
  Z.of_nat (length (call_chain_of max_depth jit_min jit_max ips)) <= max_depth.
Proof.
  intros H. unfold call_chain_of. rewrite length_take. lia.
Qed.

Lemma call_chain_of_clean (ips : list Z) :
  Forall (fun a => ~ (jit_min <= a < jit_max))
         (call_chain_of max_depth jit_min jit_max ips).
Proof. unfold call_chain_of. apply Forall_take, before_first_clean. Qed.

Lemma call_chain_of_stop (pre rest : list Z) (ip : Z) :
  ip < PERF_CONTEXT_MAX ->
  jit_min <= ip < jit_max ->
  call_chain_of max_depth jit_min jit_max (pre ++ ip :: rest)
  = call_chain_of max_depth jit_min jit_max pre.
Proof.
  intros Hm Hip. unfold call_chain_of. f_equal.
  rewrite List.filter_app. simpl.
  destruct (Z.ltb_spec ip PERF_CONTEXT_MAX); [|lia].
  apply before_first_stop, Hip.
Qed.
End Chain.

(** ** The loops of the reader *)

Section Reader.
Variable os : OS.
Variable page : perf_event_mmap_page.
Variables max_depth jit_min jit_max : Z.

Lemma next_Done (_offset o v : Z) :
  RingBuffer.next os page _offset = Done (o, v) ->
  o = Z.land (_offset + sizeof_u64) (PERF_PAGE_SIZE os - 1)
  /\ v = RingBuffer.le_bytes page 8 o.
Proof.
  unfold RingBuffer.next, RingBuffer.load.
  destruct (_ && _); simpl; [|discriminate]. intros [= <- <-]. auto.
Qed.

Lemma store_ip_Done (cc cc' : list Z) (depth ip : Z) :
  PerfEvents.store_ip cc depth ip = Done cc' ->
  0 <= depth /\ (Z.to_nat depth < length cc)%nat /\ cc' = <[Z.to_nat depth := ip]> cc.
Proof.
  unfold PerfEvents.store_ip. destruct (index cc depth) as [a| |] eqn:E; simpl; try discriminate.
  intros [= <-]. apply index_Done in E as [H0 Hl].
  split; [exact H0|]. split; [|reflexivity]. apply lookup_lt_is_Some. eauto.
Qed.

(** The inner loop stores, from [depth] on, the call chain of the words
    it is given, and touches nothing else of the array. *)
Lemma read_ips_chain (nr : nat) :
  forall (_offset depth : Z) (cc cc' : list Z) (d' : Z),
  PerfEvents.read_ips os page max_depth jit_min jit_max nr _offset depth cc
    = Done (d', cc') ->
  0 <= depth ->
  depth <= d'
  /\ (depth <= max_depth -> d' <= max_depth)
  /\ length cc' = length cc
  /\ take (Z.to_nat d') cc'
     = take (Z.to_nat depth) cc
       ++ call_chain_of (max_depth - depth) jit_min jit_max
            (ring_words os page nr _offset)
  /\ drop (Z.to_nat d') cc' = drop (Z.to_nat d') cc.
Proof.
  induction nr as [|nr IH]; intros off depth cc cc' d' H Hd; simpl in H.
  - injection H as <- <-. unfold call_chain_of. simpl.
    rewrite take_nil, app_nil_r. auto with lia.
  - destruct (Z.ltb_spec depth max_depth) as [Hlt | Hge].
    2:{ injection H as <- <-. unfold call_chain_of.
        replace (Z.to_nat (max_depth - depth)) with 0%nat by lia.
        rewrite take_0, app_nil_r. auto with lia. }
    destruct (RingBuffer.next os page off) as [[o ip]| |] eqn:En; simpl in H;
      try discriminate.
    apply next_Done in En as [Eo Eip].
    change (ring_words os page (S nr) off)
      with (RingBuffer.le_bytes page 8 (Z.land (off + sizeof_u64) (PERF_PAGE_SIZE os - 1))
            :: ring_words os page nr (Z.land (off + sizeof_u64) (PERF_PAGE_SIZE os - 1))).
    rewrite <- Eo, <- Eip. clear Eo Eip.
    unfold call_chain_of in *. simpl List.filter.
    destruct (Z.ltb_spec ip PERF_CONTEXT_MAX) as [Hm | Hm].
    2:{ apply IH in H; [|exact Hd]. exact H. }
    simpl before_first.
    destruct ((jit_min <=? ip) && (ip <? jit_max)) eqn:Ej.
    { injection H as <- <-. rewrite take_nil, app_nil_r. auto with lia. }
    destruct (PerfEvents.store_ip cc depth ip) as [cc1| |] eqn:Es; simpl in H;
      try discriminate.
    apply store_ip_Done in Es as (_ & Hlen & ->).
    apply IH in H as (Hle & Hcap & Hl & Ht & Hdr); [|lia].
    unfold call_chain_of in Ht.
    rewrite length_insert in Hl.
    split; [lia|]. split; [intros _; apply Hcap; lia|]. split; [exact Hl|]. split.
    + rewrite Ht.
      replace (Z.to_nat (depth + 1)) with (S (Z.to_nat depth)) by lia.
      rewrite (take_S_r _ _ ip) by (apply list_lookup_insert_eq; exact Hlen).
      rewrite take_insert_ge by lia.
      replace (Z.to_nat (max_depth - depth))
        with (S (Z.to_nat (max_depth - (depth + 1)))) by lia.
      rewrite <- app_assoc. reflexivity.
    + rewrite Hdr. apply drop_insert_lt. lia.
Qed.

(** The outer loop returns what the inner loop makes of the first sample
    record, or nothing. *)
Lemma scan_Done (fuel : nat) :
  forall (tail head : Z) (cc cc' : list Z) (d : Z),
  PerfEvents.scan os page max_depth jit_min jit_max fuel tail head cc = Done (d, cc') ->
  (d = 0 /\ cc' = cc)
  \/ exists t _offset nr,
       t < head
       /\ RingBuffer.hdr_type os page (RingBuffer.seek os t) = Done PERF_RECORD_SAMPLE
       /\ RingBuffer.next os page (RingBuffer.seek os t) = Done (_offset, nr)
       /\ PerfEvents.read_ips os page max_depth jit_min jit_max (Z.to_nat nr) _offset 0 cc
          = Done (d, cc').
Proof.
  induction fuel as [|fuel IH]; intros tail head cc cc' d H; simpl in H.
  - destruct (tail <? head); [discriminate|]. injection H as <- <-. auto.
  - destruct (Z.ltb_spec tail head) as [Hlt|]; [|injection H as <- <-; auto].
    destruct (RingBuffer.hdr_type os page (RingBuffer.seek os tail)) as [ty| |] eqn:Ety;
      simpl in H; try discriminate.
    destruct (Z.eqb_spec ty PERF_RECORD_SAMPLE) as [-> | Hne].
    + destruct (RingBuffer.next os page (RingBuffer.seek os tail)) as [[o nr]| |] eqn:En;
        simpl in H; try discriminate.
      right. exists tail, o, nr. auto.
    + destruct (RingBuffer.hdr_size os page (RingBuffer.seek os tail)) as [sz| |];
        simpl in H; try discriminate.
      apply IH in H. exact H.
Qed.

(** What a returned scan has stored. *)
Lemma scan_chain (fuel : nat) (tail head : Z) (cc cc' : list Z) (d : Z) :
  PerfEvents.scan os page max_depth jit_min jit_max fuel tail head cc = Done (d, cc') ->
  0 <= d
  /\ (0 <= max_depth -> d <= max_depth)
  /\ length cc' = length cc
  /\ drop (Z.to_nat d) cc' = drop (Z.to_nat d) cc
  /\ exists ips,
       take (Z.to_nat d) cc' = call_chain_of max_depth jit_min jit_max ips
       /\ (ips = [] \/
           exists t _offset nr,
             t < head
             /\ RingBuffer.hdr_type os page (RingBuffer.seek os t) = Done PERF_RECORD_SAMPLE
             /\ RingBuffer.next os page (RingBuffer.seek os t) = Done (_offset, nr)
             /\ ips = ring_words os page (Z.to_nat nr) _offset).
Proof.
  intros H. apply scan_Done in H as [[-> ->] | (t & o & nr & Ht & Hty & Hn & Hr)].
  - split; [lia|]. split; [auto|]. split; [reflexivity|]. split; [reflexivity|].
    exists []. split; [|auto]. unfold call_chain_of. simpl. rewrite take_nil. reflexivity.
  - apply read_ips_chain in Hr as (Hle & Hcap & Hl & Htk & Hdr); [|lia].
    split; [exact Hle|]. split; [exact Hcap|]. split; [exact Hl|]. split; [exact Hdr|].
    exists (ring_words os page (Z.to_nat nr) o). split.
    + rewrite Htk. rewrite Z.sub_0_r. reflexivity.
    + right. exists t, o, nr. auto.
Qed.
End Reader.

(** ** Aligned offsets stay inside the data page *)

Lemma byte_range (b : Byte.byte) : 0 <= Z.of_N (Byte.to_N b) <= 255.
Proof. pose proof (Byte.to_N_bounded b). lia. Qed.

Lemma le_bytes_2_range (pg : perf_event_mmap_page) (off : Z) :
  0 <= RingBuffer.le_bytes pg 2 off < 2 ^ 16.
Proof.
  simpl. pose proof (byte_range (data pg off)). pose proof (byte_range (data pg (off + 1))).
  lia.
Qed.

Lemma land_page_mask (os : OS) (k x : Z) :
  0 <= k -> PERF_PAGE_SIZE os = 2 ^ k ->
  Z.land x (PERF_PAGE_SIZE os - 1) = x mod 2 ^ k.
Proof.
  intros Hk ->. replace (2 ^ k - 1) with (Z.ones k) by (rewrite Z.ones_equiv; lia).
  apply Z.land_ones, Hk.
Qed.

Lemma aligned_in_page (k x : Z) :
  3 <= k -> x mod 8 = 0 ->
  0 <= x mod 2 ^ k /\ x mod 2 ^ k + 8 <= 2 ^ k /\ (x mod 2 ^ k) mod 8 = 0.
Proof.
  intros Hk Hx.
  assert (Hpow : 2 ^ k = 8 * 2 ^ (k - 3)).
  { replace k with (3 + (k - 3)) at 1 by lia. rewrite Z.pow_add_r by lia. reflexivity. }
  assert (Hpos : 0 < 2 ^ (k - 3)) by (apply Z.pow_pos_nonneg; lia).
  assert (Hm : (x mod 2 ^ k) mod 8 = 0).
  { rewrite Z.mod_mod_divide; [exact Hx|]. exists (2 ^ (k - 3)). lia. }
  pose proof (Z.mod_pos_bound x (2 ^ k) ltac:(lia)) as Hb.
  split; [lia|]. split; [|exact Hm].
  pose proof (Z.div_mod (x mod 2 ^ k) 8 ltac:(lia)) as Hd. rewrite Hm in Hd.
  lia.
Qed.

Section Returns.
Variable os : OS.
Variable page : perf_event_mmap_page.
Variables max_depth jit_min jit_max : Z.
Variable k : Z.
Hypothesis Hk : 3 <= k.
Hypothesis Hsize : PERF_PAGE_SIZE os = 2 ^ k.

Lemma load_aligned (n : nat) (x d : Z) :
  x mod 8 = 0 -> 0 <= d -> d + Z.of_nat n <= 8 ->
  RingBuffer.load os page n (x mod 2 ^ k + d)
  = Done (RingBuffer.le_bytes page n (x mod 2 ^ k + d)).
Proof.
  intros Hx Hd Hn. destruct (aligned_in_page k x Hk Hx) as (H0 & H8 & _).
  unfold RingBuffer.load. rewrite Hsize.
  destruct (Z.leb_spec 0 (x mod 2 ^ k + d)); [|lia].
  destruct (Z.leb_spec (x mod 2 ^ k + d + Z.of_nat n) (2 ^ k)); [|lia].
  reflexivity.
Qed.

Lemma next_aligned (_offset : Z) :
  _offset mod 8 = 0 ->
  exists o v, RingBuffer.next os page _offset = Done (o, v) /\ o mod 8 = 0.
Proof.
  intros Ho. unfold RingBuffer.next.
  rewrite (land_page_mask os k) by (lia || exact Hsize).
  assert (Ha : (_offset + sizeof_u64) mod 8 = 0).
  { unfold sizeof_u64. rewrite Z.add_mod, Ho by lia. reflexivity. }
  pose proof (load_aligned 8 (_offset + sizeof_u64) 0 Ha ltac:(lia) ltac:(lia)) as Hl.
  rewrite Z.add_0_r in Hl. rewrite Hl. simpl.
  do 2 eexists. split; [reflexivity|]. apply (aligned_in_page k _ Hk Ha).
Qed.

(** With room for [max_depth] addresses in the array, the inner loop
    returns. *)
Lemma read_ips_returns (nr : nat) :
  forall (_offset depth : Z) (cc : list Z),
  _offset mod 8 = 0 -> 0 <= depth ->
  max_depth <= Z.of_nat (length cc) ->
  exists r, PerfEvents.read_ips os page max_depth jit_min jit_max nr _offset depth cc
            = Done r.
Proof.
  induction nr as [|nr IH]; intros off depth cc Ho Hd Hcc; simpl; [eauto|].
  destruct (Z.ltb_spec depth max_depth); [|eauto].
  destruct (next_aligned off Ho) as (o & ip & -> & Ho'). simpl.
  destruct (ip <? PERF_CONTEXT_MAX); [|apply IH; assumption].
  destruct ((jit_min <=? ip) && (ip <? jit_max)); [eauto|].
  unfold PerfEvents.store_ip.
  destruct (index_inside cc depth ltac:(lia)) as [a ->]. simpl.
  apply IH; [exact Ho' | lia | rewrite length_insert; exact Hcc].
Qed.

Lemma seek_aligned (t : Z) :
  0 <= t < 2 ^ 64 -> RingBuffer.seek os t = t mod 2 ^ k.
Proof.
  intros Ht. unfold RingBuffer.seek, LibC.u64. rewrite Z.mod_small by exact Ht.
  apply land_page_mask; [lia | exact Hsize].
Qed.

(** Over records as the kernel lays them out, the outer loop returns. *)
Lemma scan_returns (cc : list Z) (t : Z) :
  records os page t ->
  0 <= t -> t mod 8 = 0 ->
  data_head page <= 2 ^ 64 - 2 ^ 16 ->
  max_depth <= Z.of_nat (length cc) ->
  exists fuel r,
    PerfEvents.scan os page max_depth jit_min jit_max fuel t (data_head page) cc = Done r.
Proof.
  intros Hrec. induction Hrec as [t Hend | t Hlt Hty | t size Hlt Hty Hsz Hpos Hal Hrec IH];
    intros H0 Hmod Hhead Hcc.
  - exists 0%nat. eexists. simpl.
    destruct (Z.ltb_spec t (data_head page)); [lia | reflexivity].
  - exists 1%nat. simpl.
    destruct (Z.ltb_spec t (data_head page)); [|lia].
    rewrite seek_aligned in * by lia.
    unfold RingBuffer.hdr_type.
    pose proof (load_aligned 4 t 0 Hmod ltac:(lia) ltac:(lia)) as Hl.
    rewrite Z.add_0_r in Hl. rewrite Hl, Hty. simpl.
    destruct (next_aligned (t mod 2 ^ k)) as (o & nr & -> & Ho);
      [apply (aligned_in_page k t Hk Hmod)|]. simpl.
    apply read_ips_returns; [exact Ho | lia | exact Hcc].
  - pose proof (le_bytes_2_range page (RingBuffer.seek os t + 6)) as Hr.
    rewrite <- Hsz in Hr.
    destruct IH as (fuel & r & Hscan); [lia | | exact Hhead | exact Hcc |].
    { rewrite Z.add_mod, Hmod, Hal by lia. reflexivity. }
    exists (S fuel), r. simpl.
    destruct (Z.ltb_spec t (data_head page)); [|lia].
    rewrite seek_aligned in * by lia.
    unfold RingBuffer.hdr_type, RingBuffer.hdr_size.
    pose proof (load_aligned 4 t 0 Hmod ltac:(lia) ltac:(lia)) as Hl.
    rewrite Z.add_0_r in Hl. rewrite Hl. unfold mbind, outcome_bind.
    destruct (Z.eqb_spec (RingBuffer.le_bytes page 4 (t mod 2 ^ k)) PERF_RECORD_SAMPLE);
      [contradiction|].
    rewrite (load_aligned 2 t 6 Hmod) by lia.
    rewrite <- Hsz. unfold LibC.u64.
    rewrite (Z.mod_small (t + size) (2 ^ 64)) by lia. exact Hscan.
Qed.
End Returns.

(** ** getCallChain *)

Lemma store_event_same (tid : Z) (ev : PerfEvent) (st : state) :
  _events st !! Z.to_nat tid = Some ev -> store_event tid ev st = st.
Proof.
  intros H. destruct st. unfold store_event, set_events. simpl in *.
  f_equal. apply list_insert_id, H.
Qed.

Lemma store_event_twice (tid : Z) (ev ev' : PerfEvent) (st : state) :
  store_event tid ev (store_event tid ev' st) = store_event tid ev st.
Proof.
  destruct st. unfold store_event, set_events. simpl.
  f_equal. apply list_insert_insert_eq.
Qed.

Lemma store_event_set_memory (tid : Z) (ev : PerfEvent)
    (m : gmap Z perf_event_mmap_page) (st : state) :
  store_event tid ev (set_memory m st) = set_memory m (store_event tid ev st).
Proof. reflexivity. Qed.

(** The three ways in which the call returns: the guard is held; the guard
    is taken and there is no buffer; the guard is taken, the ring is scanned
    and the read cursor is set to the write cursor. *)
Lemma getCallChain_Done (os : OS) (fuel : nat) (ucontext : ucontext_t) (tid : Z)
    (cc : list Z) (max_depth jit_min jit_max : Z) (st : state)
    (depth : Z) (cc' : list Z) (st' : state) :
  PerfEvents.getCallChain os fuel ucontext tid cc max_depth jit_min jit_max st
    = Done (depth, cc', st') ->
  exists ev,
    0 <= tid /\ _events st !! Z.to_nat tid = Some ev
    /\ ((_lock ev = true /\ depth = 0 /\ cc' = cc /\ st' = st)
        \/ (_lock ev = false /\ _page ev = None /\ depth = 0 /\ cc' = cc /\ st' = st)
        \/ (_lock ev = false /\
            exists p pg,
              _page ev = Some p /\ memory st !! p = Some pg
              /\ PerfEvents.scan os pg max_depth jit_min jit_max fuel
                   (data_tail pg) (data_head pg) cc = Done (depth, cc')
              /\ st' = set_memory
                         (<[p := {| data_head := data_head pg;
                                    data_tail := data_head pg;
                                    data := data pg |}]> (memory st)) st)).
Proof.
  unfold PerfEvents.getCallChain. intros H.
  destruct (index (_events st) tid) as [ev| |] eqn:Ei; try discriminate H.
  apply index_Done in Ei as [Ht Hev]. exists ev. split; [exact Ht|]. split; [exact Hev|].
  unfold mbind, outcome_bind in H.
  destruct ev as [[] fd pg]; simpl in *.
  - injection H as <- <- <-. auto.
  - right. destruct pg as [p|].
    + right. split; [reflexivity|].
      unfold deref in H. simpl in H.
      destruct (memory st !! p) as [page|] eqn:Em; [|discriminate H].
      destruct (PerfEvents.scan os page max_depth jit_min jit_max fuel
                  (data_tail page) (data_head page) cc) as [[d c]| |] eqn:Es;
        try discriminate H.
      injection H as <- <- <-. exists p, page.
      split; [reflexivity|]. split; [exact Em|]. split; [exact Es|].
      rewrite store_event_set_memory, store_event_twice, store_event_same by exact Hev.
      reflexivity.
    + left. injection H as <- <- <-.
      rewrite store_event_twice, store_event_same by exact Hev. auto.
Qed.

(** On a ring the kernel has laid out, and with room in the array, the call
    returns. *)
Lemma getCallChain_returns (os : OS) (ucontext : ucontext_t) (tid : Z)
    (cc : list Z) (max_depth jit_min jit_max : Z) (st : state) (ev : PerfEvent) :
  0 <= tid ->
  _events st !! Z.to_nat tid = Some ev ->
  max_depth <= Z.of_nat (length cc) ->
  (forall p, _page ev = Some p -> exists pg, memory st !! p = Some pg /\ ring_wf os pg) ->
  exists fuel depth cc' st',
    PerfEvents.getCallChain os fuel ucontext tid cc max_depth jit_min jit_max st
      = Done (depth, cc', st').
Proof.
  intros Ht Hev Hcc Hpg. unfold PerfEvents.getCallChain.
  assert (Hi : index (_events st) tid = Done ev) by (apply index_Done; auto).
  rewrite Hi. unfold mbind, outcome_bind.
  destruct (_lock ev); [exists 0%nat; eauto|].
  destruct (_page ev) as [p|]; [|exists 0%nat; eauto].
  destruct (Hpg p eq_refl) as (pg & Hm & [(k & Hk & Hsz) [Ht0 Htm] Hhead Hrec]).
  destruct (scan_returns os pg max_depth jit_min jit_max k Hk Hsz cc (data_tail pg)
              Hrec Ht0 Htm Hhead Hcc) as (fuel & [d c] & Hscan).
  exists fuel. unfold deref. simpl. rewrite Hm, Hscan. eauto.
Qed.

(** The reader leaves the slot array and the capacity as they are. *)
Lemma getCallChain_capacity (os : OS) (fuel : nat) (ucontext : ucontext_t) (tid : Z)
    (cc cc' : list Z) (max_depth jit_min jit_max depth : Z) (st st' : state) :
  PerfEvents.getCallChain os fuel ucontext tid cc max_depth jit_min jit_max st
    = Done (depth, cc', st') ->
  _max_events st' = _max_events st /\ _events st' = _events st.
Proof.
  intros H. apply getCallChain_Done in H
    as (ev & _ & _ & [(_ & _ & _ & ->) | [(_ & _ & _ & _ & ->) | (_ & p & pg & _ & _ & _ & ->)]]);
    auto.
Qed.

(** The ring of the example is laid out as the kernel does it. *)
Lemma demo_ring_wf : ring_wf Demo.os Demo.page.
Proof.
  split.
  - exists 12. split; [lia | reflexivity].
  - split; [simpl; lia | reflexivity].
  - vm_compute. discriminate.
  - apply (records_skip Demo.os Demo.page 0 16);
      [reflexivity | vm_compute; discriminate | reflexivity | lia | reflexivity |].
    apply records_sample; reflexivity.
Defined.

(** C1: with a depth limit that is not negative, a call that returns
    gives a depth between 0 and max_depth; no address it has stored, that is
    none of the first depth entries of the array, lies in
    [jit_min_address, jit_max_address); what it has stored is the call chain
    of the words of one sample record (or of none), and that chain ends
    before the first address in the range, which is not part of it; the
    entries from depth on are untouched.  On a ring laid out by the kernel
    and with max_depth entries in the array, the call does return. *)
Theorem C1_getCallChain_bounded (os : OS) (ucontext : ucontext_t) (tid : Z)
    (callchain : list Z) (max_depth jit_min jit_max : Z) (st : state) :
  0 <= max_depth ->
  (forall fuel depth callchain' st',
      PerfEvents.getCallChain os fuel ucontext tid callchain max_depth jit_min jit_max st
        = Done (depth, callchain', st') ->
      0 <= depth <= max_depth
      /\ (forall i a, 0 <= i < depth -> callchain' !! Z.to_nat i = Some a ->
                      ~ (jit_min <= a < jit_max))
      /\ (exists ips,
             sample_of os st tid ips
             /\ take (Z.to_nat depth) callchain' = call_chain_of max_depth jit_min jit_max ips)
      /\ drop (Z.to_nat depth) callchain' = drop (Z.to_nat depth) callchain)
  /\ (forall pre ip rest,
         ip < PERF_CONTEXT_MAX -> jit_min <= ip < jit_max ->
         call_chain_of max_depth jit_min jit_max (pre ++ ip :: rest)
         = call_chain_of max_depth jit_min jit_max pre)
  /\ (forall ev,
         0 <= tid -> _events st !! Z.to_nat tid = Some ev ->
         max_depth <= Z.of_nat (length callchain) ->
         (forall p, _page ev = Some p ->
                    exists pg, memory st !! p = Some pg /\ ring_wf os pg) ->
         exists fuel depth callchain' st',
           PerfEvents.getCallChain os fuel ucontext tid callchain max_depth jit_min jit_max st
             = Done (depth, callchain', st')).
Proof.
  intros Hmax. split; [|split].
  - intros fuel depth cc' st' H.
    assert (Hchain : 0 <= depth <= max_depth
              /\ drop (Z.to_nat depth) cc' = drop (Z.to_nat depth) callchain
              /\ exists ips, sample_of os st tid ips
                   /\ take (Z.to_nat depth) cc' = call_chain_of max_depth jit_min jit_max ips).
    { apply getCallChain_Done in H
        as (ev & Ht & Hev & [(_ & -> & -> & _) | [(_ & _ & -> & -> & _) | (_ & p & pg & Hp & Hm & Hs & _)]]).
      - split; [lia|]. split; [reflexivity|]. exists []. split; [left; reflexivity|].
        unfold call_chain_of. simpl. rewrite take_nil. reflexivity.
      - split; [lia|]. split; [reflexivity|]. exists []. split; [left; reflexivity|].
        unfold call_chain_of. simpl. rewrite take_nil. reflexivity.
      - apply scan_chain in Hs as (H0 & Hcap & _ & Hdr & ips & Htk & Hips).
        split; [auto|]. split; [exact Hdr|]. exists ips. split; [|exact Htk].
        destruct Hips as [-> | (t & o & nr & Hlt & Hty & Hn & ->)]; [left; reflexivity|].
        right. exists ev, p, pg, t, o, nr. auto 10. }
    destruct Hchain as (Hd & Hdr & ips & Hips & Htk).
    split; [exact Hd|]. split; [|split; [exists ips; auto | exact Hdr]].
    intros i a Hi Ha.
    pose proof (call_chain_of_clean max_depth jit_min jit_max ips) as Hclean.
    rewrite <- Htk in Hclean.
    apply (proj1 (Forall_lookup _ _) Hclean (Z.to_nat i) a).
    rewrite lookup_take_lt by lia. exact Ha.
  - intros pre ip rest. apply call_chain_of_stop.
  - intros ev. apply getCallChain_returns.
Qed.

Lemma C1_witness :
  0 <= 4
  /\ exists st',
      PerfEvents.getCallChain Demo.os 5 Demo.ucontext 5 [0; 0; 0; 0] 4 4096 8192 Demo.sampling
        = Done (1, [100; 0; 0; 0], st')
      /\ (0 <= 1 <= 4
          /\ (forall i a, 0 <= i < 1 -> [100; 0; 0; 0] !! Z.to_nat i = Some a ->
                          ~ (4096 <= a < 8192))
          /\ (exists ips,
                 sample_of Demo.os Demo.sampling 5 ips
                 /\ take (Z.to_nat 1) [100; 0; 0; 0] = call_chain_of 4 4096 8192 ips)
          /\ drop (Z.to_nat 1) [100; 0; 0; 0] = drop (Z.to_nat 1) [0; 0; 0; 0])
      /\ exists fuel depth callchain' st'',
          PerfEvents.getCallChain Demo.os fuel Demo.ucontext 5 [0; 0; 0; 0] 4 4096 8192
            Demo.sampling = Done (depth, callchain', st'').
Proof.
  split; [lia|].
  pose (C1_getCallChain_bounded Demo.os Demo.ucontext 5 [0; 0; 0; 0] 4 4096 8192
          Demo.sampling ltac:(lia)) as C.
  eexists. split; [reflexivity|]. split.
  - eapply (proj1 C 5%nat 1 [100; 0; 0; 0]). reflexivity.
  - apply (proj2 (proj2 C) {| _lock := false; _fd := 8; _page := Some 524288 |});
      [lia | reflexivity | simpl; lia |].
    intros p [= <-]. exists Demo.page. split; [reflexivity | exact demo_ring_wf].
Defined.

(** C1 as stated fails: the depth limit is not checked for its sign.  With
    max_depth = -1 the inner loop stores nothing and the call returns depth
    0, which is above max_depth. *)
Lemma C1_counterexample :
  ~ (forall (os : OS) (fuel : nat) (ucontext : ucontext_t) (tid : Z)
        (callchain : list Z) (max_depth jit_min jit_max : Z) (st : state)
        (depth : Z) (callchain' : list Z) (st' : state),
        PerfEvents.getCallChain os fuel ucontext tid callchain max_depth jit_min jit_max st
          = Done (depth, callchain', st') ->
        depth <= max_depth
        /\ (forall i a, 0 <= i < depth -> callchain' !! Z.to_nat i = Some a ->
                        ~ (jit_min <= a < jit_max))).
Proof.
  intros H.
  assert (Hcall : PerfEvents.getCallChain Demo.os 5 Demo.ucontext 5 [0; 0; 0; 0] (-1)
                    4096 8192 Demo.sampling = Done (0, [0; 0; 0; 0], Demo.sampled))
    by reflexivity.
  destruct (H _ _ _ _ _ _ _ _ _ _ _ _ Hcall) as [Hle _]. lia.
Qed.

(** The sample of the example: the marker is skipped, and 5000, which lies
    in the excluded range, ends the chain after the one address before it. *)
Example getCallChain_stops_at_jit :
  exists st',
    PerfEvents.getCallChain Demo.os 5 Demo.ucontext 5 [0; 0; 0; 0] 4 4096 8192 Demo.sampling
      = Done (1, [100; 0; 0; 0], st')
  /\ call_chain_of 4 4096 8192 [100; 2 ^ 64 - 512; 5000; 200] = [100].
Proof. exists Demo.sampled. split; reflexivity. Qed.

(** Without an excluded range the depth limit ends it. *)
Example getCallChain_stops_at_max_depth :
  exists st',
    PerfEvents.getCallChain Demo.os 5 Demo.ucontext 5 [0; 0; 0; 0] 2 0 0 Demo.sampling
      = Done (2, [100; 5000; 0; 0], st').
Proof. exists Demo.sampled. reflexivity. Qed.

(** ** The read cursor *)

(** C7: a call that takes the guard and finds a buffer leaves the read
    cursor of that buffer at the write cursor it found, whatever the ring
    holds and however far the scan went; so, from a ring whose read cursor
    is not beyond its write cursor, through any number of calls for the
    thread and of writes of the kernel, the read cursor never moves back.
    On a ring laid out by the kernel and with max_depth entries in the array,
    the call does return. *)
Theorem C7_read_cursor_follows_head (os : OS) (tid p : Z) :
  (forall fuel ucontext callchain max_depth jit_min jit_max st depth callchain' st' ev pg,
      PerfEvents.getCallChain os fuel ucontext tid callchain max_depth jit_min jit_max st
        = Done (depth, callchain', st') ->
      _events st !! Z.to_nat tid = Some ev ->
      _lock ev = false -> _page ev = Some p -> memory st !! p = Some pg ->
      exists pg',
        memory st' !! p = Some pg'
        /\ data_tail pg' = data_head pg
        /\ data_head pg' = data_head pg
        /\ data pg' = data pg)
  /\ (forall st st' ev pg,
      rtc (ring_step os tid p) st st' ->
      _events st !! Z.to_nat tid = Some ev ->
      _page ev = Some p -> memory st !! p = Some pg ->
      data_tail pg <= data_head pg ->
      exists pg',
        memory st' !! p = Some pg'
        /\ data_tail pg <= data_tail pg'
        /\ data_tail pg' <= data_head pg')
  /\ (forall ucontext callchain max_depth jit_min jit_max st ev pg,
      0 <= tid -> _events st !! Z.to_nat tid = Some ev ->
      _page ev = Some p -> memory st !! p = Some pg ->
      ring_wf os pg ->
      max_depth <= Z.of_nat (length callchain) ->
      exists fuel depth callchain' st',
        PerfEvents.getCallChain os fuel ucontext tid callchain max_depth jit_min jit_max st
          = Done (depth, callchain', st')).
Proof.
  split; [|split].
  - intros fuel uc cc md jmin jmax st depth cc' st' ev pg H Hev Hfree Hp Hm.
    apply getCallChain_Done in H
      as (ev' & _ & Hev' & [(Hl & _) | [(_ & Hn & _) | (_ & p' & pg' & Hp' & Hm' & _ & ->)]]);
      rewrite Hev in Hev'; injection Hev' as <-; try congruence.
    rewrite Hp in Hp'. injection Hp' as <-. rewrite Hm in Hm'. injection Hm' as <-.
    eexists. split; [apply lookup_insert_eq|]. simpl. auto.
  - intros st st' ev pg Hrun Hev Hp Hm Hok.
    cut (exists pg', _events st' !! Z.to_nat tid = Some ev
                     /\ memory st' !! p = Some pg'
                     /\ data_tail pg <= data_tail pg'
                     /\ data_tail pg' <= data_head pg').
    { intros (pg' & _ & H). eauto. }
    revert st' Hrun. apply rtc_ind_r;
      [| intros st1 st2 Hrun Hstep (pg1 & Hev1 & Hm1 & Hmono & Hok1)].
    + exists pg. split; [exact Hev|]. split; [exact Hm|]. lia.
    + destruct Hstep as [fuel uc cc md jmin jmax st1 depth cc' st2 H | st1 pga pgb Hma [Ht Hh]].
      * apply getCallChain_Done in H
          as (ev' & _ & Hev' & [(_ & _ & _ & ->) | [(_ & _ & _ & _ & ->) | (_ & p' & pg' & Hp' & Hm' & _ & ->)]]).
        -- exists pg1. auto.
        -- exists pg1. auto.
        -- rewrite Hev1 in Hev'. injection Hev' as <-.
           rewrite Hp in Hp'. injection Hp' as <-.
           rewrite Hm1 in Hm'. injection Hm' as <-.
           eexists. split; [exact Hev1|]. split; [apply lookup_insert_eq|]. simpl. lia.
      * rewrite Hm1 in Hma. injection Hma as <-.
        exists pgb. split; [exact Hev1|]. split; [apply lookup_insert_eq|]. lia.
  - intros uc cc md jmin jmax st ev pg Ht Hev Hp Hm Hwf Hcc.
    apply (getCallChain_returns os uc tid cc md jmin jmax st ev Ht Hev Hcc).
    intros p' Hp'. rewrite Hp in Hp'. injection Hp' as <-. eauto.
Qed.

Lemma C7_witness :
  (_events Demo.sampling !! Z.to_nat 5
     = Some {| _lock := false; _fd := 8; _page := Some 524288 |}
   /\ memory Demo.sampling !! 524288 = Some Demo.page
   /\ data_tail Demo.page <= data_head Demo.page)
  /\ PerfEvents.getCallChain Demo.os 5 Demo.ucontext 5 [0; 0; 0; 0] 4 4096 8192 Demo.sampling
     = Done (1, [100; 0; 0; 0], Demo.sampled)
  /\ (exists pg',
        memory Demo.sampled !! 524288 = Some pg'
        /\ data_tail pg' = data_head Demo.page
        /\ data_head pg' = data_head Demo.page
        /\ data pg' = data Demo.page)
  /\ (exists pg',
        memory Demo.sampled !! 524288 = Some pg'
        /\ data_tail Demo.page <= data_tail pg'
        /\ data_tail pg' <= data_head pg')
  /\ (exists fuel depth callchain' st',
        PerfEvents.getCallChain Demo.os fuel Demo.ucontext 5 [0; 0; 0; 0] 4 4096 8192
          Demo.sampling = Done (depth, callchain', st')).
Proof.
  pose (C7_read_cursor_follows_head Demo.os 5 524288) as C.
  assert (Hcall : PerfEvents.getCallChain Demo.os 5 Demo.ucontext 5 [0; 0; 0; 0] 4 4096 8192
                    Demo.sampling = Done (1, [100; 0; 0; 0], Demo.sampled))
    by reflexivity.
  split; [split; [reflexivity | split; [reflexivity | simpl; lia]]|].
  split; [exact Hcall|]. split; [|split].
  - apply (proj1 C 5%nat Demo.ucontext [0; 0; 0; 0] 4 4096 8192 Demo.sampling
             1 [100; 0; 0; 0] Demo.sampled
             {| _lock := false; _fd := 8; _page := Some 524288 |} Demo.page);
      [exact Hcall | reflexivity..].
  - apply (proj1 (proj2 C) Demo.sampling Demo.sampled
             {| _lock := false; _fd := 8; _page := Some 524288 |} Demo.page);
      [| reflexivity | reflexivity | reflexivity | simpl; lia].
    apply rtc_once. exact (ring_read Demo.os 5 524288 _ _ _ _ _ _ _ _ _ _ Hcall).
  - apply (proj2 (proj2 C) Demo.ucontext [0; 0; 0; 0] 4 4096 8192 Demo.sampling
             {| _lock := false; _fd := 8; _page := Some 524288 |} Demo.page);
      [lia | reflexivity | reflexivity | reflexivity | exact demo_ring_wf | simpl; lia].
Defined.

(** Why [records] asks for positive sizes: past the sample the page of the
    example is zero, and over a header of size 0 the loop does not advance. *)
Example zero_size_record_spins (fuel : nat) :
  PerfEvents.scan Demo.os Demo.page 4 4096 8192 fuel 64 80 [0; 0; 0; 0] = Spin.
Proof.
  induction fuel as [|fuel IH]; [reflexivity|].
  change (PerfEvents.scan Demo.os Demo.page 4 4096 8192 (S fuel) 64 80 [0; 0; 0; 0])
    with (PerfEvents.scan Demo.os Demo.page 4 4096 8192 fuel 64 80 [0; 0; 0; 0]).
  exact IH.
Qed.

(** * Further properties of the catalog *)

Lemma findByType_tracepoint (os : OS) (tbl : list PerfEventType.t) :
  catalog_shape os tbl ->
  exists e, PerfEventType.findByType tbl PERF_TYPE_TRACEPOINT = Done 14%nat
            /\ tbl !! 14%nat = Some e
            /\ PerfEventType.type e = PERF_TYPE_TRACEPOINT
            /\ PerfEventType.name e = Some "trace:tracepoint"%string.
Proof.
  intros Hs. pose proof (catalog_shape_length os tbl Hs) as Hlen.
  destruct Hs as [Hn Ht].
  destruct (lookup_lt_is_Some_2 tbl 14) as [e He]; [lia|].
  exists e. split; [|split; [exact He|split]].
  - unfold PerfEventType.findByType.
    rewrite (findByType_from_types _ _ _ _ Ht). reflexivity.
  - apply (f_equal (fun l => l !! 14%nat)) in Ht.
    rewrite list_lookup_fmap, He in Ht. simpl in Ht. congruence.
  - apply (f_equal (fun l => l !! 14%nat)) in Hn.
    rewrite list_lookup_fmap, He in Hn. simpl in Hn. congruence.
Qed.

Lemma getTracepoint_resolved (os : OS) (tbl : list PerfEventType.t) (id : Z) :
  catalog_shape os tbl ->
  exists e,
    tbl !! 14%nat = Some e
    /\ PerfEventType.type e = PERF_TYPE_TRACEPOINT
    /\ PerfEventType.getTracepoint tbl id
       = Done (14%nat,
               <[14%nat :=
                   {| PerfEventType.name := PerfEventType.name e;
                      PerfEventType.default_interval := PerfEventType.default_interval e;
                      PerfEventType.precise_ip := PerfEventType.precise_ip e;
                      PerfEventType.type := PerfEventType.type e;
                      PerfEventType.config := LibC.u64 id;
                      PerfEventType.bp_type := PerfEventType.bp_type e;
                      PerfEventType.bp_len := PerfEventType.bp_len e;
                      PerfEventType.counter_arg := PerfEventType.counter_arg e |}]> tbl).
Proof.
  intros Hs. destruct (findByType_tracepoint os tbl Hs) as (e & Hf & He & Hty & _).
  exists e. split; [exact He|]. split; [exact Hty|].
  assert (Hi : index tbl (Z.of_nat 14) = Done e) by (apply index_Done; split; [lia | exact He]).
  unfold PerfEventType.getTracepoint. rewrite Hf. unfold mbind, outcome_bind.
  rewrite Hi. reflexivity.
Qed.

(** X1: "trace:" followed by text whose [atoi] is positive resolves to the
    tracepoint template with that number as its config; with an [atoi] of 0
    or less the result is [NULL] and the table is not written. *)
Theorem forName_raw_tracepoint (os : OS) (tbl : list PerfEventType.t) (rest : string) :
  catalog_shape os tbl ->
  (0 < LibC.atoi rest ->
   exists tbl' d,
     PerfEventType.forName os tbl ("trace:" +:+ rest) = Done (Some 14%nat, tbl')
     /\ tbl' !! 14%nat = Some d
     /\ PerfEventType.type d = PERF_TYPE_TRACEPOINT
     /\ PerfEventType.config d = LibC.atoi rest
     /\ forall j, j <> 14%nat -> tbl' !! j = tbl !! j)
  /\ (LibC.atoi rest <= 0 ->
      PerfEventType.forName os tbl ("trace:" +:+ rest) = Done (None, tbl)).
Proof.
  intros Hs.
  assert (E : PerfEventType.forName os tbl ("trace:" +:+ rest)
              = if 0 <? LibC.atoi rest
                then PerfEventType.getTracepoint tbl (LibC.atoi rest)
                       ≫= (fun '(i, t) => Done (Some i, t))
                else Done (None, tbl)).
  { unfold PerfEventType.forName.
    change (LibC.has_prefix "mem:" ("trace:" +:+ rest)) with false.
    replace (LibC.has_prefix "trace:" ("trace:" +:+ rest)) with true
      by (destruct rest; reflexivity).
    reflexivity. }
  rewrite E. split; intros Hid.
  - destruct (Z.ltb_spec 0 (LibC.atoi rest)); [|lia].
    destruct (getTracepoint_resolved os tbl (LibC.atoi rest) Hs) as (e & He & Hty & ->).
    simpl. do 2 eexists. split; [reflexivity|].
    split; [apply list_lookup_insert_eq; rewrite (catalog_shape_length os tbl Hs); lia|].
    simpl. split; [exact Hty|]. split.
    + unfold LibC.u64. apply Z.mod_small. unfold LibC.atoi, LibC.int in *.
      pose proof (Z.mod_pos_bound (LibC.strtol rest 10 + 2 ^ 31) (2 ^ 32) ltac:(lia)). lia.
    + intros j Hj. apply list_lookup_insert_ne. congruence.
  - destruct (Z.ltb_spec 0 (LibC.atoi rest)); [lia | reflexivity].
Qed.

Lemma forName_raw_tracepoint_witness :
  catalog_shape Demo.os (PerfEventType.AVAILABLE_EVENTS Demo.os)
  /\ 0 < LibC.atoi "42"
  /\ exists tbl' d,
       PerfEventType.forName Demo.os (PerfEventType.AVAILABLE_EVENTS Demo.os) "trace:42"
         = Done (Some 14%nat, tbl')
       /\ tbl' !! 14%nat = Some d
       /\ PerfEventType.type d = PERF_TYPE_TRACEPOINT
       /\ PerfEventType.config d = LibC.atoi "42"
       /\ forall j, j <> 14%nat
            -> tbl' !! j = PerfEventType.AVAILABLE_EVENTS Demo.os !! j.
Proof.
  split; [exact (catalog_shape_init Demo.os)|]. split; [reflexivity|].
  apply (proj1 (forName_raw_tracepoint Demo.os (PerfEventType.AVAILABLE_EVENTS Demo.os) "42"
                  (catalog_shape_init Demo.os))).
  reflexivity.
Defined.

Lemma findCounterArg_range (n : string) (a : Z) :
  PerfEventType.findCounterArg n = Done a -> 0 <= a <= 3.
Proof.
  unfold PerfEventType.findCounterArg, PerfEventType.KNOWN_FUNCTIONS. simpl.
  repeat (destruct (LibC.streq n _); [intros [= <-]; lia|]).
  intros [= <-]. lia.
Qed.

(** What a call of [getBreakpoint] that returns has done. *)
Lemma getBreakpoint_Done (os : OS) (tbl tbl' : list PerfEventType.t) (n : string)
    (bt bl : Z) (r : option nat) :
  catalog_shape os tbl ->
  PerfEventType.getBreakpoint os tbl n bt bl = Done (r, tbl') ->
  (r = None /\ tbl' = tbl)
  \/ (r = Some 13%nat /\
      exists e d,
        tbl !! 13%nat = Some e /\ tbl' = <[13%nat := d]> tbl
        /\ PerfEventType.name d = PerfEventType.name e
        /\ PerfEventType.type d = PERF_TYPE_BREAKPOINT
        /\ 0 <= PerfEventType.counter_arg d <= 3
        /\ (PerfEventType.bp_type d <> HW_BREAKPOINT_X -> PerfEventType.counter_arg d = 0)).
Proof.
  intros Hs. unfold PerfEventType.getBreakpoint.
  destruct (PerfEventType.copy_name n) as [buf| |]; try discriminate. simpl.
  destruct (PerfEventType.parse_access buf bt bl) as [[buf0 bt0] bl0].
  destruct (PerfEventType.parse_length buf0 bl0) as [buf1 bl1] eqn:Hl.
  destruct (PerfEventType.parse_offset buf1) as [buf2 off] eqn:Ho.
  destruct (PerfEventType.parse_address os buf2) as [addr|] eqn:Ha.
  - destruct (getBreakpoint_rest_resolved os tbl buf0 buf1 buf2 bt0 bl0 bl1 off addr
                Hs Hl Ho Ha) as (e & arg & He & Hty & Harg & ->).
    intros [= <- <-]. right. split; [reflexivity|].
    do 2 eexists. split; [exact He|]. split; [reflexivity|]. simpl.
    split; [reflexivity|]. split; [exact Hty|].
    destruct (Z.eqb_spec bt0 HW_BREAKPOINT_X).
    + split; [exact (findCounterArg_range _ _ Harg) | contradiction].
    + injection Harg as <-. split; [lia | reflexivity].
  - rewrite (getBreakpoint_rest_unresolved os tbl buf0 buf1 buf2 bt0 bl0 bl1 off Hl Ho Ha).
    intros [= <- <-]. left. auto.
Qed.

Lemma getBreakpoint_defined (os : OS) (tbl : list PerfEventType.t) (n : string)
    (bt bl : Z) :
  catalog_shape os tbl ->
  (String.length n < 256)%nat ->
  exists r tbl', PerfEventType.getBreakpoint os tbl n bt bl = Done (r, tbl').
Proof.
  intros Hs Hlen. unfold PerfEventType.getBreakpoint, PerfEventType.copy_name.
  destruct (Z.ltb_spec (Z.of_nat (String.length n)) 256); [|lia]. simpl.
  destruct (PerfEventType.parse_access n bt bl) as [[buf0 bt0] bl0].
  destruct (PerfEventType.parse_length buf0 bl0) as [buf1 bl1] eqn:Hl.
  destruct (PerfEventType.parse_offset buf1) as [buf2 off] eqn:Ho.
  destruct (PerfEventType.parse_address os buf2) as [addr|] eqn:Ha.
  - destruct (getBreakpoint_rest_resolved os tbl buf0 buf1 buf2 bt0 bl0 bl1 off addr
                Hs Hl Ho Ha) as (e & arg & _ & _ & _ & ->). eauto.
  - rewrite (getBreakpoint_rest_unresolved os tbl buf0 buf1 buf2 bt0 bl0 bl1 off Hl Ho Ha).
    eauto.
Qed.

Lemma drop_length (k : nat) (s : string) :
  (String.length (LibC.drop k s) <= String.length s)%nat.
Proof.
  revert s. induction k as [|k IH]; intros [|a s]; simpl; try lia.
  specialize (IH s). lia.
Qed.

Lemma contains_append (c : ascii) (a b : string) :
  LibC.contains c (a +:+ b) = LibC.contains c a || LibC.contains c b.
Proof.
  induction a as [|x a IH]; simpl; [reflexivity|]. rewrite IH. apply orb_assoc.
Qed.

Lemma replace_first_defined (c d : ascii) (s : string) :
  LibC.contains c s = true -> exists r, LibC.replace_first c d s = Done r.
Proof.
  induction s as [|a s IH]; simpl; [discriminate|].
  destruct (Ascii.eqb a c); [eauto|]. simpl. intros H.
  destruct (IH H) as [r ->]. simpl. eauto.
Qed.

(** With a ':' in the name, the write through [strchr] has a target. *)
Lemma findTracepointId_defined (os : OS) (n : string) :
  LibC.contains ":" n = true ->
  exists id, PerfEventType.findTracepointId os n = Done id.
Proof.
  intros Hc. unfold PerfEventType.findTracepointId.
  destruct (256 <=? _); [eauto|].
  destruct (replace_first_defined ":" "/"
              ("/sys/kernel/debug/tracing/events/" +:+ n +:+ "/id")) as [buf ->].
  { rewrite !contains_append, Hc. reflexivity. }
  simpl. destruct (slurp os buf); eauto.
Qed.

Lemma lookup_name_from_defined (tbl : list PerfEventType.t) (i : nat) (n : string) :
  Exists (fun e => PerfEventType.name e = None) tbl ->
  exists r, PerfEventType.lookup_name_from tbl i n = Done r.
Proof.
  intros H. revert i. induction H as [e tbl He | e tbl _ IH]; intros i; simpl.
  - rewrite He. eauto.
  - destruct (PerfEventType.name e) as [en|]; [|eauto].
    destruct (LibC.streq n en); [eauto | apply IH].
Qed.

Lemma lookup_name_defined (os : OS) (tbl : list PerfEventType.t) (n : string) :
  catalog_shape os tbl ->
  exists r, PerfEventType.lookup_name_from tbl 0 n = Done r.
Proof.
  intros Hs. rewrite (forName_lookup os tbl n Hs).
  apply lookup_name_from_defined. unfold PerfEventType.AVAILABLE_EVENTS.
  do 15 apply Exists_cons_tl. apply Exists_cons_hd. reflexivity.
Qed.

(** X2: resolution is defined for every name of fewer than 256 characters:
    the call returns a table entry or [NULL]; it reads no array out of
    bounds and writes through no null pointer. *)
Theorem forName_defined (os : OS) (tbl : list PerfEventType.t) (n : string) :
  catalog_shape os tbl ->
  (String.length n < 256)%nat ->
  exists r tbl', PerfEventType.forName os tbl n = Done (r, tbl').
Proof.
  intros Hs Hlen. unfold PerfEventType.forName.
  assert (Htp : forall id, exists r tbl',
    (if 0 <? id
     then PerfEventType.getTracepoint tbl id ≫= (fun '(i, t) => Done (Some i, t))
     else Done (None, tbl)) = Done (r, tbl')).
  { intros id. destruct (0 <? id); [|eauto].
    destruct (getTracepoint_resolved os tbl id Hs) as (e & _ & _ & ->). simpl. eauto. }
  destruct (LibC.has_prefix "mem:" n).
  { apply getBreakpoint_defined; [exact Hs|]. pose proof (drop_length 4 n). lia. }
  destruct (LibC.has_prefix "trace:" n); [apply Htp|].
  destruct (lookup_name_defined os tbl n Hs) as [[j|] ->]; simpl; [eauto|].
  destruct (LibC.contains ":" n) eqn:Hc.
  - destruct (findTracepointId_defined os n Hc) as [id ->]. simpl.
    destruct (0 <? id) eqn:Eid.
    + specialize (Htp id). rewrite Eid in Htp. exact Htp.
    + apply getBreakpoint_defined; assumption.
  - simpl. apply getBreakpoint_defined; assumption.
Qed.

Lemma forName_defined_witness :
  catalog_shape Demo.os (PerfEventType.AVAILABLE_EVENTS Demo.os)
  /\ (String.length "mem:foo:rw" < 256)%nat
  /\ exists r tbl',
       PerfEventType.forName Demo.os (PerfEventType.AVAILABLE_EVENTS Demo.os) "mem:foo:rw"
         = Done (r, tbl').
Proof.
  split; [exact (catalog_shape_init Demo.os)|]. split; [simpl; lia|].
  apply (forName_defined Demo.os (PerfEventType.AVAILABLE_EVENTS Demo.os) "mem:foo:rw");
    [exact (catalog_shape_init Demo.os) | simpl; lia].
Defined.

(** The four ways in which a resolution returns: nothing found; the
    breakpoint template, filled in; the tracepoint template, with its config
    set; a predefined entry, with the table as it was. *)
Lemma forName_Done (os : OS) (tbl tbl' : list PerfEventType.t) (n : string)
    (r : option nat) :
  catalog_shape os tbl ->
  PerfEventType.forName os tbl n = Done (r, tbl') ->
  (r = None /\ tbl' = tbl)
  \/ (r = Some 13%nat /\
      exists e d,
        tbl !! 13%nat = Some e /\ tbl' = <[13%nat := d]> tbl
        /\ PerfEventType.name d = PerfEventType.name e
        /\ PerfEventType.type d = PERF_TYPE_BREAKPOINT
        /\ 0 <= PerfEventType.counter_arg d <= 3
        /\ (PerfEventType.bp_type d <> HW_BREAKPOINT_X -> PerfEventType.counter_arg d = 0))
  \/ (r = Some 14%nat /\
      exists e d,
        tbl !! 14%nat = Some e /\ tbl' = <[14%nat := d]> tbl
        /\ PerfEventType.name d = PerfEventType.name e
        /\ PerfEventType.type d = PERF_TYPE_TRACEPOINT
        /\ PerfEventType.counter_arg d = PerfEventType.counter_arg e)
  \/ (exists j e, r = Some j /\ tbl' = tbl /\ tbl !! j = Some e
                  /\ PerfEventType.name e = Some n).
Proof.
  intros Hs. unfold PerfEventType.forName.
  assert (Hbp : forall m bt bl,
    PerfEventType.getBreakpoint os tbl m bt bl = Done (r, tbl') ->
    (r = None /\ tbl' = tbl)
    \/ (r = Some 13%nat /\
        exists e d,
          tbl !! 13%nat = Some e /\ tbl' = <[13%nat := d]> tbl
          /\ PerfEventType.name d = PerfEventType.name e
          /\ PerfEventType.type d = PERF_TYPE_BREAKPOINT
          /\ 0 <= PerfEventType.counter_arg d <= 3
          /\ (PerfEventType.bp_type d <> HW_BREAKPOINT_X -> PerfEventType.counter_arg d = 0))
    \/ (r = Some 14%nat /\
        exists e d,
          tbl !! 14%nat = Some e /\ tbl' = <[14%nat := d]> tbl
          /\ PerfEventType.name d = PerfEventType.name e
          /\ PerfEventType.type d = PERF_TYPE_TRACEPOINT
          /\ PerfEventType.counter_arg d = PerfEventType.counter_arg e)
    \/ (exists j e, r = Some j /\ tbl' = tbl /\ tbl !! j = Some e
                    /\ PerfEventType.name e = Some n)).
  { intros m bt bl H. destruct (getBreakpoint_Done os tbl tbl' m bt bl r Hs H); auto. }
  assert (Htp : forall id,
    (if 0 <? id
     then PerfEventType.getTracepoint tbl id ≫= (fun '(i, t) => Done (Some i, t))
     else Done (None, tbl)) = Done (r, tbl') ->
    (r = None /\ tbl' = tbl)
    \/ (r = Some 14%nat /\
        exists e d,
          tbl !! 14%nat = Some e /\ tbl' = <[14%nat := d]> tbl
          /\ PerfEventType.name d = PerfEventType.name e
          /\ PerfEventType.type d = PERF_TYPE_TRACEPOINT
          /\ PerfEventType.counter_arg d = PerfEventType.counter_arg e)).
  { intros id. destruct (Z.ltb_spec 0 id); [|intros [= <- <-]; auto].
    destruct (getTracepoint_resolved os tbl id Hs) as (e & He & Hty & ->).
    unfold mbind, outcome_bind.
    intros [= <- <-]. right. split; [reflexivity|].
    do 2 eexists. split; [exact He|]. split; [reflexivity|].
    split; [reflexivity|]. split; [exact Hty | reflexivity]. }
  destruct (LibC.has_prefix "mem:" n); [apply Hbp|].
  destruct (LibC.has_prefix "trace:" n).
  { intros H. destruct (Htp _ H); auto. }
  destruct (PerfEventType.lookup_name_from tbl 0 n) as [[j|]| |] eqn:El;
    try discriminate; unfold mbind, outcome_bind.
  - intros [= <- <-]. do 3 right.
    destruct (lookup_name_from_found tbl 0 j n El) as (e & _ & He & Hn).
    rewrite Nat.sub_0_r in He. exists j, e. auto.
  - destruct (if LibC.contains ":" n then PerfEventType.findTracepointId os n else Done 0)
      as [id| |]; try discriminate.
    destruct (0 <? id) eqn:Eid; [|apply Hbp].
    intros H. destruct (Htp id); [rewrite Eid; exact H | auto..].
Qed.

(** X3: a descriptor that resolution returns is an entry of the table it
    leaves and never the terminating entry: the pointer can be followed and
    the entry has a name. *)
Theorem forName_returns_entry (os : OS) (tbl tbl' : list PerfEventType.t)
    (n : string) (i : nat) :
  catalog_shape os tbl ->
  PerfEventType.forName os tbl n = Done (Some i, tbl') ->
  exists d,
    index tbl' (Z.of_nat i) = Done d
    /\ (i < 15)%nat
    /\ PerfEventType.name d <> None.
Proof.
  intros Hs H. pose proof (catalog_shape_length os tbl Hs) as Hlen.
  pose proof (forName_keeps_shape os tbl tbl' n (Some i) Hs H) as Hs'.
  assert (Hd : exists d, tbl' !! i = Some d /\ PerfEventType.name d <> None).
  { destruct (forName_Done os tbl tbl' n (Some i) Hs H)
      as [[[=] _] | [[[= ->] (e & d & He & -> & Hn & _)]
                    | [[[= ->] (e & d & He & -> & Hn & _)]
                      | (j & e & [= ->] & -> & He & Hn)]]].
    - exists d. split; [apply list_lookup_insert_eq; lia|].
      rewrite Hn. destruct Hs as [Hnames _].
      apply (f_equal (fun l => l !! 13%nat)) in Hnames.
      rewrite list_lookup_fmap, He in Hnames. simpl in Hnames.
      injection Hnames as ->. discriminate.
    - exists d. split; [apply list_lookup_insert_eq; lia|].
      rewrite Hn. destruct Hs as [Hnames _].
      apply (f_equal (fun l => l !! 14%nat)) in Hnames.
      rewrite list_lookup_fmap, He in Hnames. simpl in Hnames.
      injection Hnames as ->. discriminate.
    - exists e. split; [exact He | congruence]. }
  destruct Hd as (d & Hd & Hname). exists d.
  split; [apply index_Done; rewrite Nat2Z.id; split; [lia | exact Hd]|].
  split; [|exact Hname].
  destruct (Nat.lt_ge_cases i 15) as [|Hge]; [assumption|]. exfalso.
  pose proof (lookup_lt_Some _ _ _ Hd) as Hlt.
  rewrite (catalog_shape_length os tbl' Hs') in Hlt.
  assert (i = 15%nat) by lia. subst i.
  destruct Hs' as [Hnames _].
  apply (f_equal (fun l => l !! 15%nat)) in Hnames.
  rewrite list_lookup_fmap, Hd in Hnames. simpl in Hnames.
  injection Hnames as Hnone. contradiction.
Qed.

Lemma forName_returns_entry_witness :
  catalog_shape Demo.os (PerfEventType.AVAILABLE_EVENTS Demo.os)
  /\ PerfEventType.forName Demo.os (PerfEventType.AVAILABLE_EVENTS Demo.os) "cycles"
     = Done (Some 3%nat, PerfEventType.AVAILABLE_EVENTS Demo.os)
  /\ exists d,
       index (PerfEventType.AVAILABLE_EVENTS Demo.os) (Z.of_nat 3) = Done d
       /\ (3 < 15)%nat
       /\ PerfEventType.name d <> None.
Proof.
  split; [exact (catalog_shape_init Demo.os)|]. split; [reflexivity|].
  apply (forName_returns_entry Demo.os (PerfEventType.AVAILABLE_EVENTS Demo.os)
           (PerfEventType.AVAILABLE_EVENTS Demo.os) "cycles" 3);
    [exact (catalog_shape_init Demo.os) | reflexivity].
Defined.

(** X4: the catalog keeps its layout through every resolution: afterwards
    the table still has its 16 entries with the names and types it was
    initialised with, so the next resolution finds the breakpoint template
    at entry 13 and the tracepoint template at entry 14 again. *)
Theorem forName_keeps_catalog (os : OS) (tbl tbl' : list PerfEventType.t)
    (n : string) (r : option nat) :
  catalog_shape os tbl ->
  PerfEventType.forName os tbl n = Done (r, tbl') ->
  length tbl' = 16%nat
  /\ PerfEventType.name <$> tbl' = PerfEventType.name <$> PerfEventType.AVAILABLE_EVENTS os
  /\ PerfEventType.type <$> tbl' = PerfEventType.type <$> PerfEventType.AVAILABLE_EVENTS os
  /\ PerfEventType.findByType tbl' PERF_TYPE_BREAKPOINT = Done 13%nat
  /\ PerfEventType.findByType tbl' PERF_TYPE_TRACEPOINT = Done 14%nat.
Proof.
  intros Hs H. pose proof (forName_keeps_shape os tbl tbl' n r Hs H) as Hs'.
  split; [exact (catalog_shape_length os tbl' Hs')|].
  split; [exact (proj1 Hs')|]. split; [exact (proj2 Hs')|]. split.
  - destruct (findByType_breakpoint os tbl' Hs') as (e & Hf & _). exact Hf.
  - destruct (findByType_tracepoint os tbl' Hs') as (e & Hf & _). exact Hf.
Qed.

Lemma forName_keeps_catalog_witness :
  catalog_shape Demo.os (PerfEventType.AVAILABLE_EVENTS Demo.os)
  /\ exists tbl',
       PerfEventType.forName Demo.os (PerfEventType.AVAILABLE_EVENTS Demo.os) "mem:foo:rw"
         = Done (Some 13%nat, tbl')
       /\ length tbl' = 16%nat
       /\ PerfEventType.name <$> tbl'
          = PerfEventType.name <$> PerfEventType.AVAILABLE_EVENTS Demo.os
       /\ PerfEventType.type <$> tbl'
          = PerfEventType.type <$> PerfEventType.AVAILABLE_EVENTS Demo.os
       /\ PerfEventType.findByType tbl' PERF_TYPE_BREAKPOINT = Done 13%nat
       /\ PerfEventType.findByType tbl' PERF_TYPE_TRACEPOINT = Done 14%nat.
Proof.
  split; [exact (catalog_shape_init Demo.os)|].
  eexists. split; [reflexivity|].
  eapply (forName_keeps_catalog Demo.os (PerfEventType.AVAILABLE_EVENTS Demo.os) _
            "mem:foo:rw" (Some 13%nat));
    [exact (catalog_shape_init Demo.os) | reflexivity].
Defined.

(** X5: resolution never writes the predefined entries: only the entries 13
    and 14, the two templates, can differ afterwards; a resolution that
    fails, or that finds a predefined event, leaves the whole table as it
    was. *)
Theorem forName_frame (os : OS) (tbl tbl' : list PerfEventType.t) (n : string)
    (r : option nat) :
  catalog_shape os tbl ->
  PerfEventType.forName os tbl n = Done (r, tbl') ->
  (forall j, j <> 13%nat -> j <> 14%nat -> tbl' !! j = tbl !! j)
  /\ (r <> Some 13%nat -> r <> Some 14%nat -> tbl' = tbl).
Proof.
  intros Hs H.
  destruct (forName_Done os tbl tbl' n r Hs H)
    as [[-> ->] | [[-> (e & d & _ & -> & _)]
                  | [[-> (e & d & _ & -> & _)] | (j & e & -> & -> & _)]]].
  - auto.
  - split; [|congruence]. intros j H13 _. apply list_lookup_insert_ne. congruence.
  - split; [|congruence]. intros j _ H14. apply list_lookup_insert_ne. congruence.
  - auto.
Qed.

Lemma forName_frame_witness :
  catalog_shape Demo.os (PerfEventType.AVAILABLE_EVENTS Demo.os)
  /\ exists tbl',
       PerfEventType.forName Demo.os (PerfEventType.AVAILABLE_EVENTS Demo.os) "trace:42"
         = Done (Some 14%nat, tbl')
       /\ (forall j, j <> 13%nat -> j <> 14%nat
             -> tbl' !! j = PerfEventType.AVAILABLE_EVENTS Demo.os !! j)
       /\ (Some 14%nat <> Some 13%nat -> Some 14%nat <> Some 14%nat
             -> tbl' = PerfEventType.AVAILABLE_EVENTS Demo.os).
Proof.
  split; [exact (catalog_shape_init Demo.os)|].
  eexists. split; [reflexivity|].
  eapply (forName_frame Demo.os (PerfEventType.AVAILABLE_EVENTS Demo.os) _
            "trace:42" (Some 14%nat));
    [exact (catalog_shape_init Demo.os) | reflexivity].
Defined.

(** X6: a breakpoint descriptor carries a counter argument between 0 and 3,
    and 0 unless its access is execute: only an execution breakpoint makes
    the signal handler take the weight of a sample from a register. *)
Theorem getBreakpoint_counter_arg (os : OS) (tbl tbl' : list PerfEventType.t)
    (n : string) (bt bl : Z) (i : nat) :
  catalog_shape os tbl ->
  PerfEventType.getBreakpoint os tbl n bt bl = Done (Some i, tbl') ->
  exists d,
    tbl' !! i = Some d
    /\ PerfEventType.type d = PERF_TYPE_BREAKPOINT
    /\ 0 <= PerfEventType.counter_arg d <= 3
    /\ (PerfEventType.bp_type d <> HW_BREAKPOINT_X -> PerfEventType.counter_arg d = 0).
Proof.
  intros Hs H. pose proof (catalog_shape_length os tbl Hs) as Hlen.
  destruct (getBreakpoint_Done os tbl tbl' n bt bl (Some i) Hs H)
    as [[[=] _] | [[= ->] (e & d & He & -> & _ & Hty & Hr & Hz)]].
  exists d. split; [apply list_lookup_insert_eq; lia | auto].
Qed.

Lemma getBreakpoint_counter_arg_witness :
  catalog_shape Demo.os (PerfEventType.AVAILABLE_EVENTS Demo.os)
  /\ exists tbl',
       PerfEventType.getBreakpoint Demo.os (PerfEventType.AVAILABLE_EVENTS Demo.os)
         "foo" HW_BREAKPOINT_RW 1 = Done (Some 13%nat, tbl')
       /\ exists d,
            tbl' !! 13%nat = Some d
            /\ PerfEventType.type d = PERF_TYPE_BREAKPOINT
            /\ 0 <= PerfEventType.counter_arg d <= 3
            /\ (PerfEventType.bp_type d <> HW_BREAKPOINT_X
                -> PerfEventType.counter_arg d = 0).
Proof.
  split; [exact (catalog_shape_init Demo.os)|].
  eexists. split; [reflexivity|].
  eapply (getBreakpoint_counter_arg Demo.os (PerfEventType.AVAILABLE_EVENTS Demo.os) _
            "foo" HW_BREAKPOINT_RW 1 13);
    [exact (catalog_shape_init Demo.os) | reflexivity].
Defined.

Lemma parse_stages_plain (n : string) (bt bl : Z) :
  LibC.contains ":" n = false ->
  LibC.contains "/" n = false ->
  LibC.contains "+" n = false ->
  PerfEventType.parse_access n bt bl = (n, bt, bl)
  /\ PerfEventType.parse_length n bl = (n, bl)
  /\ PerfEventType.parse_offset n = (n, 0).
Proof.
  intros H1 H2 H3.
  unfold PerfEventType.parse_access, PerfEventType.parse_length, PerfEventType.parse_offset.
  rewrite (cut_last_absent _ _ H1), (cut_last_absent _ _ H2), (cut_last_absent _ _ H3).
  auto.
Qed.

(** X7: a breakpoint specification without ':', '/' and '+' keeps the access
    type and the length the caller passes, with offset 0.  Written as an
    absolute address (it starts with 0x) it always resolves, to the number
    [strtoll] reads, and the symbol table is not asked; otherwise it
    resolves to the address of the symbol, and fails exactly when [dlsym]
    gives a null pointer. *)
Theorem getBreakpoint_plain (os : OS) (tbl : list PerfEventType.t) (n : string)
    (bt bl : Z) :
  catalog_shape os tbl ->
  (String.length n < 256)%nat ->
  LibC.contains ":" n = false ->
  LibC.contains "/" n = false ->
  LibC.contains "+" n = false ->
  let addr := if LibC.has_prefix "0x" n then LibC.u64 (LibC.strtoll n 0)
              else LibC.u64 (dlsym os n) in
  if negb (LibC.has_prefix "0x" n) && (addr =? 0)
  then PerfEventType.getBreakpoint os tbl n bt bl = Done (None, tbl)
  else exists tbl' d,
         PerfEventType.getBreakpoint os tbl n bt bl = Done (Some 13%nat, tbl')
         /\ tbl' !! 13%nat = Some d
         /\ PerfEventType.type d = PERF_TYPE_BREAKPOINT
         /\ PerfEventType.config d = addr
         /\ PerfEventType.bp_type d = bt
         /\ PerfEventType.bp_len d = bl.
Proof.
  intros Hs Hlen H1 H2 H3 addr.
  destruct (parse_stages_plain n bt bl H1 H2 H3) as (Ea & El & Eo).
  assert (E : PerfEventType.getBreakpoint os tbl n bt bl
              = PerfEventType.getBreakpoint_rest os tbl n bt bl).
  { unfold PerfEventType.getBreakpoint, PerfEventType.copy_name.
    destruct (Z.ltb_spec (Z.of_nat (String.length n)) 256); [|lia].
    unfold mbind, outcome_bind. rewrite Ea. reflexivity. }
  rewrite E.
  assert (Hmod : LibC.u64 (addr + 0) = addr).
  { rewrite Z.add_0_r. subst addr. unfold LibC.u64.
    destruct (LibC.has_prefix "0x" n); apply Zmod_mod. }
  assert (Hres : PerfEventType.parse_address os n = Some addr ->
    exists tbl' d,
      PerfEventType.getBreakpoint_rest os tbl n bt bl = Done (Some 13%nat, tbl')
      /\ tbl' !! 13%nat = Some d
      /\ PerfEventType.type d = PERF_TYPE_BREAKPOINT
      /\ PerfEventType.config d = addr
      /\ PerfEventType.bp_type d = bt
      /\ PerfEventType.bp_len d = bl).
  { intros Ha.
    destruct (getBreakpoint_rest_resolved os tbl n n n bt bl bl 0 addr Hs El Eo Ha)
      as (e & arg & He & Hty & _ & ->).
    do 2 eexists. split; [reflexivity|]. split.
    { apply list_lookup_insert_eq. rewrite (catalog_shape_length os tbl Hs). lia. }
    simpl. auto. }
  unfold PerfEventType.parse_address in Hres. subst addr.
  destruct (LibC.has_prefix "0x" n) eqn:Hp; simpl.
  - apply Hres. reflexivity.
  - destruct (Z.eqb_spec (LibC.u64 (dlsym os n)) 0) as [Hz | Hnz].
    + apply (getBreakpoint_rest_unresolved os tbl n n n bt bl bl 0 El Eo).
      unfold PerfEventType.parse_address. rewrite Hp, Hz. reflexivity.
    + apply Hres. reflexivity.
Qed.

Lemma getBreakpoint_plain_witness :
  catalog_shape Demo.os (PerfEventType.AVAILABLE_EVENTS Demo.os)
  /\ (String.length "foo" < 256)%nat
  /\ LibC.contains ":" "foo" = false
  /\ LibC.contains "/" "foo" = false
  /\ LibC.contains "+" "foo" = false
  /\ exists tbl' d,
       PerfEventType.getBreakpoint Demo.os (PerfEventType.AVAILABLE_EVENTS Demo.os)
         "foo" HW_BREAKPOINT_RW 1 = Done (Some 13%nat, tbl')
       /\ tbl' !! 13%nat = Some d
       /\ PerfEventType.type d = PERF_TYPE_BREAKPOINT
       /\ PerfEventType.config d = 4198400
       /\ PerfEventType.bp_type d = HW_BREAKPOINT_RW
       /\ PerfEventType.bp_len d = 1.
Proof.
  split; [exact (catalog_shape_init Demo.os)|]. split; [simpl; lia|].
  split; [reflexivity|]. split; [reflexivity|]. split; [reflexivity|].
  exact (getBreakpoint_plain Demo.os (PerfEventType.AVAILABLE_EVENTS Demo.os) "foo"
           HW_BREAKPOINT_RW 1 (catalog_shape_init Demo.os) ltac:(simpl; lia)
           eq_refl eq_refl eq_refl).
Defined.

(** * Further properties of the counter life cycle *)

Lemma trace_emit (e : effect) (st : state) : trace (emit e st) = trace st ++ [e].
Proof. reflexivity. Qed.

(** X8: createForThread returns true exactly when [perf_event_open] gave a
    descriptor.  Then the slot of the thread holds the descriptor and the
    mapping (none when [mmap] failed, which is not an error), with its guard
    free, no other slot is written, and the last things done are the reset
    and the refresh that arm the counter.  When it returns false, no slot
    and no mapping has changed. *)
Theorem createForThread_result (os : OS) (tid : Z) (st st' : state) (ok : bool) :
  PerfEvents.createForThread os tid st = Done (ok, st') ->
  if ok then
    exists et fd,
      active_type st = Done et
      /\ fd = LibC.int (perf_event_open os (PerfEvents.make_attr os et (_interval st)) tid)
      /\ fd <> -1
      /\ 0 <= tid < _max_events st
      /\ _events st' = <[Z.to_nat tid := {| _lock := false; _fd := fd; _page := mmap os fd |}]>
                         (_events st)
      /\ memory st' = match mmap os fd with
                      | Some p => <[p := fresh_page]> (memory st)
                      | None => memory st
                      end
      /\ trace st'
         = trace st
           ++ [SysPerfEventOpen (PerfEvents.make_attr os et (_interval st)) tid; SysMmap fd]
           ++ match mmap os fd with
              | Some _ => []
              | None => [Stderr (perror "perf_event mmap failed")]
              end
           ++ [SysFcntl fd F_SETFL_O_ASYNC; SysFcntl fd F_SETSIG_SIGPROF;
               SysFcntl fd (F_SETOWN_EX_TID tid);
               SysIoctl fd PERF_EVENT_IOC_RESET 0;
               SysIoctl fd PERF_EVENT_IOC_REFRESH 1]
  else
    _events st' = _events st /\ memory st' = memory st
    /\ (_max_events st <= tid
        \/ exists et, active_type st = Done et
             /\ LibC.int (perf_event_open os (PerfEvents.make_attr os et (_interval st)) tid)
                = -1).
Proof.
  unfold PerfEvents.createForThread.
  destruct (Z.geb_spec tid (_max_events st)) as [Hge | Hlt].
  { intros [= <- <-]. simpl. auto with lia. }
  destruct (active_type st) as [et| |] eqn:Het; try discriminate.
  unfold mbind, outcome_bind.
  destruct (Z.eqb_spec (LibC.int (perf_event_open os
              (PerfEvents.make_attr os et (_interval st)) tid)) (-1)) as [Hfd | Hfd].
  { intros [= <- <-]. simpl. split; [reflexivity|]. split; [reflexivity|].
    right. exists et. auto. }
  remember (LibC.int (perf_event_open os (PerfEvents.make_attr os et (_interval st)) tid))
    as fd eqn:Efd.
  destruct (mmap os fd) as [p|] eqn:Hmap;
    (destruct (index _ tid) as [ev| |] eqn:Hi; try discriminate);
    intros [= <- <-]; apply index_Done in Hi as [Ht _];
    exists et, fd; rewrite Hmap; (split; [reflexivity|]); (split; [exact Efd|]);
    (split; [exact Hfd|]); (split; [lia|]); (split; [reflexivity|]);
    (split; [reflexivity|]); simpl; rewrite <- !app_assoc; reflexivity.
Qed.

Lemma createForThread_result_witness :
  exists st',
    PerfEvents.createForThread Demo.os 5 Demo.idle = Done (true, st')
    /\ exists et fd,
         active_type Demo.idle = Done et
         /\ fd = LibC.int (perf_event_open Demo.os
                             (PerfEvents.make_attr Demo.os et (_interval Demo.idle)) 5)
         /\ fd <> -1
         /\ 0 <= 5 < _max_events Demo.idle
         /\ _events st'
            = <[Z.to_nat 5 := {| _lock := false; _fd := fd; _page := mmap Demo.os fd |}]>
                (_events Demo.idle)
         /\ memory st' = match mmap Demo.os fd with
                         | Some p => <[p := fresh_page]> (memory Demo.idle)
                         | None => memory Demo.idle
                         end
         /\ trace st'
            = trace Demo.idle
              ++ [SysPerfEventOpen (PerfEvents.make_attr Demo.os et (_interval Demo.idle)) 5;
                  SysMmap fd]
              ++ match mmap Demo.os fd with
                 | Some _ => []
                 | None => [Stderr (perror "perf_event mmap failed")]
                 end
              ++ [SysFcntl fd F_SETFL_O_ASYNC; SysFcntl fd F_SETSIG_SIGPROF;
                  SysFcntl fd (F_SETOWN_EX_TID 5);
                  SysIoctl fd PERF_EVENT_IOC_RESET 0;
                  SysIoctl fd PERF_EVENT_IOC_REFRESH 1].
Proof.
  assert (E : PerfEvents.createForThread Demo.os 5 Demo.idle = Done (true, DemoRun.created))
    by (vm_compute; reflexivity).
  exists DemoRun.created. split; [exact E|].
  exact (createForThread_result Demo.os 5 Demo.idle DemoRun.created true E).
Defined.

Lemma createForThread_false (os : OS) (tid : Z) (st st' : state) :
  PerfEvents.createForThread os tid st = Done (false, st') ->
  _events st' = _events st /\ memory st' = memory st.
Proof.
  unfold PerfEvents.createForThread.
  destruct (tid >=? _max_events st); [intros [= <-]; auto|].
  destruct (active_type st) as [et| |]; try discriminate. unfold mbind, outcome_bind.
  destruct (_ =? -1); [intros [= <-]; auto|].
  destruct (mmap os _) as [p|];
    (destruct (index _ tid); try discriminate); intros [=].
Qed.

Lemma createForThread_statics (os : OS) (tid : Z) (st st' : state) (ok : bool) :
  PerfEvents.createForThread os tid st = Done (ok, st') ->
  _max_events st' = _max_events st /\ _event_type st' = _event_type st
  /\ _interval st' = _interval st /\ table st' = table st /\ sigprof st' = sigprof st
  /\ length (_events st') = length (_events st).
Proof.
  unfold PerfEvents.createForThread.
  destruct (tid >=? _max_events st); [intros [= _ <-]; simpl; auto 10|].
  destruct (active_type st) as [et| |]; try discriminate. unfold mbind, outcome_bind.
  destruct (_ =? -1); [intros [= _ <-]; simpl; auto 10|].
  destruct (mmap os _) as [p|];
    (destruct (index _ tid); try discriminate);
    intros [= _ <-]; simpl; rewrite length_insert; auto 10.
Qed.

Lemma createForEntries_sticky (os : OS) (entries : list string) :
  forall (st st' : state) (ok : bool),
  PerfEvents.createForEntries os entries true st = Done (ok, st') -> ok = true.
Proof.
  induction entries as [|d rest IH]; intros st st' ok; simpl.
  - intros [= <- _]. reflexivity.
  - destruct (LibC.has_prefix "." d); [apply IH|].
    destruct (PerfEvents.createForThread os (LibC.atoi d) st) as [[b st1]| |];
      try discriminate. simpl. apply IH.
Qed.

Lemma createForEntries_statics (os : OS) (entries : list string) :
  forall (st st' : state) (b ok : bool),
  PerfEvents.createForEntries os entries b st = Done (ok, st') ->
  _max_events st' = _max_events st /\ _event_type st' = _event_type st
  /\ _interval st' = _interval st /\ table st' = table st /\ sigprof st' = sigprof st
  /\ length (_events st') = length (_events st).
Proof.
  induction entries as [|d rest IH]; intros st st' b ok; simpl.
  - intros [= _ <-]. auto 10.
  - destruct (LibC.has_prefix "." d); [apply IH|].
    destruct (PerfEvents.createForThread os (LibC.atoi d) st) as [[b1 st1]| |] eqn:E1;
      try discriminate. simpl. intros H.
    apply IH in H as (-> & -> & -> & -> & -> & ->).
    exact (createForThread_statics os _ st st1 b1 E1).
Qed.

Lemma createForEntries_none (os : OS) (entries : list string) :
  forall (st st' : state),
  PerfEvents.createForEntries os entries false st = Done (false, st') ->
  _events st' = _events st /\ memory st' = memory st.
Proof.
  induction entries as [|d rest IH]; intros st st'; simpl.
  - intros [= <-]. auto.
  - destruct (LibC.has_prefix "." d); [apply IH|].
    destruct (PerfEvents.createForThread os (LibC.atoi d) st) as [[[] st1]| |] eqn:E1;
      try discriminate; simpl; intros H.
    + apply createForEntries_sticky in H. discriminate.
    + apply IH in H as [-> ->].
      exact (createForThread_false os _ st st1 E1).
Qed.

(** X9: when createForAllThreads returns false, no counter has been opened:
    the slot array and the mappings are the ones before the call; and in any
    case the call leaves the capacity, the selected event, the interval and
    the length of the slot array alone. *)
Theorem createForAllThreads_result (os : OS) (st st' : state) (ok : bool) :
  PerfEvents.createForAllThreads os st = Done (ok, st') ->
  (ok = false -> _events st' = _events st /\ memory st' = memory st)
  /\ _max_events st' = _max_events st
  /\ _event_type st' = _event_type st
  /\ _interval st' = _interval st
  /\ length (_events st') = length (_events st).
Proof.
  unfold PerfEvents.createForAllThreads.
  destruct (task_dir os) as [entries|]; [|intros [= <- <-]; auto 10].
  intros H. split.
  - intros ->. exact (createForEntries_none os entries st st' H).
  - destruct (createForEntries_statics os entries st st' false ok H)
      as (? & ? & ? & _ & _ & ?). auto.
Qed.

Lemma createForAllThreads_result_witness :
  PerfEvents.createForAllThreads Demo.os DemoRun.small = Done (false, DemoRun.refused)
  /\ _events DemoRun.refused = _events DemoRun.small
  /\ memory DemoRun.refused = memory DemoRun.small
  /\ _max_events DemoRun.refused = _max_events DemoRun.small
  /\ _event_type DemoRun.refused = _event_type DemoRun.small
  /\ _interval DemoRun.refused = _interval DemoRun.small
  /\ length (_events DemoRun.refused) = length (_events DemoRun.small).
Proof.
  assert (E : PerfEvents.createForAllThreads Demo.os DemoRun.small
              = Done (false, DemoRun.refused))
    by (vm_compute; reflexivity).
  split; [exact E|].
  destruct (createForAllThreads_result Demo.os DemoRun.small DemoRun.refused false E)
    as (Hnone & Hrest).
  destruct (Hnone eq_refl) as [Hev Hmem].
  split; [exact Hev|]. split; [exact Hmem|]. exact Hrest.
Defined.

(** * Tearing down *)

Lemma destroyForThread_effect (tid : Z) (st : state) (ev : PerfEvent) :
  0 <= tid < _max_events st ->
  _events st !! Z.to_nat tid = Some ev ->
  _lock ev = false ->
  PerfEvents.destroyForThread tid st
  = Done {| _max_events := _max_events st;
            _events := <[Z.to_nat tid := zero_event]> (_events st);
            _event_type := _event_type st; _interval := _interval st;
            table := table st;
            memory := unmap_all [ev] (memory st);
            sigprof := sigprof st;
            trace := trace st ++ teardown_effects ev |}.
Proof.
  intros Htid Hev Hfree. unfold PerfEvents.destroyForThread.
  destruct (Z.geb_spec tid (_max_events st)); [lia|].
  assert (Hi : index (_events st) tid = Done ev) by (apply index_Done; split; [lia | exact Hev]).
  rewrite Hi. unfold mbind, outcome_bind, teardown_effects, unmap_all.
  destruct ev as [l fd pg]. simpl in Hfree. subst l. destruct st as [mx evs ety itv tb mem sg tr].
  cbn [_fd _page _lock] in *.
  destruct (Z.eqb_spec fd 0) as [-> | Hfd]; destruct pg as [p|];
    cbv [negb store_event set_events set_memory emit
         _max_events _events _event_type _interval table memory sigprof trace
         _fd _page _lock zero_event foldl];
    rewrite ?list_insert_insert_eq, ?app_nil_r, <- ?app_assoc; try reflexivity.
  cbv [_events] in Hev. rewrite (list_insert_id _ _ _ Hev). reflexivity.
Qed.

Lemma unmap_all_cons (ev : PerfEvent) (evs : list PerfEvent)
    (m : gmap Z perf_event_mmap_page) :
  unmap_all (ev :: evs) m = unmap_all evs (unmap_all [ev] m).
Proof. reflexivity. Qed.

Lemma unmap_all_gone (evs : list PerfEvent) :
  forall (m : gmap Z perf_event_mmap_page) (q : Z),
  m !! q = None -> unmap_all evs m !! q = None.
Proof.
  induction evs as [|ev evs IH]; intros m q Hq; [exact Hq|].
  rewrite unmap_all_cons. apply IH. unfold unmap_all. simpl.
  destruct (_page ev) as [p|]; [|exact Hq].
  rewrite lookup_delete. case_decide; [reflexivity | exact Hq].
Qed.

Lemma unmap_all_lookup (evs : list PerfEvent) :
  forall (m : gmap Z perf_event_mmap_page) (q : Z),
  unmap_all evs m !! q
  = if decide (Exists (fun ev => _page ev = Some q) evs) then None else m !! q.
Proof.
  induction evs as [|ev evs IH]; intros m q.
  - case_decide as H; [inversion H | reflexivity].
  - rewrite unmap_all_cons.
    destruct (decide (_page ev = Some q)) as [Hp | Hp].
    + rewrite decide_True by (apply Exists_cons_hd; exact Hp).
      apply unmap_all_gone. unfold unmap_all. simpl. rewrite Hp.
      apply lookup_delete_eq.
    + rewrite IH.
      assert (Hm : unmap_all [ev] m !! q = m !! q).
      { unfold unmap_all. simpl. destruct (_page ev) as [p|]; [|reflexivity].
        apply lookup_delete_ne. congruence. }
      rewrite Hm. repeat case_decide; try reflexivity.
      * exfalso. apply H0. apply Exists_cons_tl. assumption.
      * exfalso. apply Exists_cons in H0 as [? | ?]; contradiction.
Qed.

Lemma destroyFrom_spec (n : nat) :
  forall (k : nat) (st : state),
  Z.of_nat (k + n) <= _max_events st ->
  (k + n <= length (_events st))%nat ->
  Forall (fun ev => _lock ev = false) (_events st) ->
  PerfEvents.destroyFrom n (Z.of_nat k) st
  = Done {| _max_events := _max_events st;
            _events := take k (_events st) ++ replicate n zero_event
                       ++ drop (k + n) (_events st);
            _event_type := _event_type st; _interval := _interval st;
            table := table st;
            memory := unmap_all (take n (drop k (_events st))) (memory st);
            sigprof := sigprof st;
            trace := trace st
                     ++ flat_map teardown_effects (take n (drop k (_events st))) |}.
Proof.
  induction n as [|n IH]; intros k st Hmax Hlen Hfree.
  - simpl. rewrite Nat.add_0_r, take_drop, app_nil_r. destruct st. reflexivity.
  - destruct (lookup_lt_is_Some_2 (_events st) k) as [ev Hev]; [lia|].
    assert (Hl : _lock ev = false).
    { apply (proj1 (Forall_lookup _ _) Hfree k ev Hev). }
    cbn [PerfEvents.destroyFrom].
    rewrite (destroyForThread_effect (Z.of_nat k) st ev)
      by (rewrite ?Nat2Z.id; (lia || assumption)).
    unfold mbind, outcome_bind. rewrite Nat2Z.id.
    replace (Z.of_nat k + 1) with (Z.of_nat (S k)) by lia.
    rewrite IH; cbn [_max_events _events memory trace _event_type _interval table sigprof].
    + f_equal. rewrite (drop_S _ _ _ Hev).
      rewrite !drop_insert_lt by lia.
      rewrite (take_S_r _ _ zero_event) by (apply list_lookup_insert_eq; lia).
      rewrite take_insert_ge by lia.
      replace (k + S n)%nat with (S k + n)%nat by lia.
      cbn [firstn flat_map replicate]. rewrite <- !app_assoc. reflexivity.
    + lia.
    + rewrite length_insert. lia.
    + apply Forall_insert; [exact Hfree | reflexivity].
Qed.

(** X10: destroyForThread for a thread id inside the array whose guard is
    free disables and closes the counter when the handle is not 0, and only
    then unmaps the buffer when there is one; it leaves the slot empty with
    its guard free, and changes no other slot and no other mapping. *)
Theorem destroyForThread_teardown (tid : Z) (st : state) (ev : PerfEvent) :
  0 <= tid < _max_events st ->
  _events st !! Z.to_nat tid = Some ev ->
  _lock ev = false ->
  exists st',
    PerfEvents.destroyForThread tid st = Done st'
    /\ _events st' = <[Z.to_nat tid := zero_event]> (_events st)
    /\ trace st'
       = trace st
         ++ (if _fd ev =? 0 then []
             else [SysIoctl (_fd ev) PERF_EVENT_IOC_DISABLE 0; SysClose (_fd ev)])
         ++ match _page ev with
            | Some p => [SysMunmap p]
            | None => []
            end
    /\ (forall q, memory st' !! q
                  = if decide (_page ev = Some q) then None else memory st !! q).
Proof.
  intros Htid Hev Hfree. rewrite (destroyForThread_effect tid st ev Htid Hev Hfree).
  eexists. split; [reflexivity|]. cbn [_events trace memory].
  split; [reflexivity|]. split; [reflexivity|].
  intros q. unfold unmap_all. cbn [foldl].
  destruct (_page ev) as [p|].
  - case_decide as Hp.
    + injection Hp as ->. apply lookup_delete_eq.
    + apply lookup_delete_ne. congruence.
  - case_decide; [discriminate | reflexivity].
Qed.

Lemma destroyForThread_teardown_witness :
  0 <= 5 < _max_events Demo.sampling
  /\ _events Demo.sampling !! Z.to_nat 5
     = Some {| _lock := false; _fd := 8; _page := Some 524288 |}
  /\ exists st',
       PerfEvents.destroyForThread 5 Demo.sampling = Done st'
       /\ _events st' = <[Z.to_nat 5 := zero_event]> (_events Demo.sampling)
       /\ trace st'
          = trace Demo.sampling
            ++ [SysIoctl 8 PERF_EVENT_IOC_DISABLE 0; SysClose 8]
            ++ [SysMunmap 524288]
       /\ (forall q, memory st' !! q
                     = if decide (Some 524288 = Some q) then None
                       else memory Demo.sampling !! q).
Proof.
  split; [simpl; lia|]. split; [reflexivity|].
  apply (destroyForThread_teardown 5 Demo.sampling
           {| _lock := false; _fd := 8; _page := Some 524288 |});
    [simpl; lia | reflexivity | reflexivity].
Defined.

Lemma teardown_idle (n : nat) :
  flat_map teardown_effects (replicate n zero_event) = []
  /\ forall m, unmap_all (replicate n zero_event) m = m.
Proof.
  induction n as [|n [IH1 IH2]]; [auto|]. split.
  - simpl. exact IH1.
  - intros m. simpl replicate. rewrite unmap_all_cons. apply IH2.
Qed.

Lemma destroyForAllThreads_spec (st : state) :
  Z.of_nat (length (_events st)) = _max_events st ->
  Forall (fun ev => _lock ev = false) (_events st) ->
  PerfEvents.destroyForAllThreads st
  = Done {| _max_events := _max_events st;
            _events := replicate (length (_events st)) zero_event;
            _event_type := _event_type st; _interval := _interval st;
            table := table st;
            memory := unmap_all (_events st) (memory st);
            sigprof := sigprof st;
            trace := trace st ++ flat_map teardown_effects (_events st) |}.
Proof.
  intros Hcap Hfree. unfold PerfEvents.destroyForAllThreads.
  pose proof (destroyFrom_spec (Z.to_nat (_max_events st)) 0 st) as H.
  change (Z.of_nat 0) with 0 in H.
  rewrite H by (simpl; (lia || assumption)). clear H.
  replace (Z.to_nat (_max_events st)) with (length (_events st)) by lia.
  rewrite Nat.add_0_l, drop_0, firstn_all, drop_all, app_nil_r. reflexivity.
Qed.

(** X11: with the slot array as long as the capacity and no guard held,
    destroyForAllThreads returns with every slot empty (handle 0, no buffer,
    guard free) and every buffer that a slot pointed to unmapped; mappings
    that no slot pointed to are as before; each open counter has been
    disabled and closed, in the order of the thread ids. *)
Theorem destroyForAllThreads_closes_all (st : state) :
  Z.of_nat (length (_events st)) = _max_events st ->
  Forall (fun ev => _lock ev = false) (_events st) ->
  exists st',
    PerfEvents.destroyForAllThreads st = Done st'
    /\ _events st' = replicate (length (_events st)) zero_event
    /\ (forall q, memory st' !! q
                  = if decide (Exists (fun ev => _page ev = Some q) (_events st))
                    then None else memory st !! q)
    /\ trace st' = trace st ++ flat_map teardown_effects (_events st)
    /\ _max_events st' = _max_events st.
Proof.
  intros Hcap Hfree. rewrite (destroyForAllThreads_spec st Hcap Hfree).
  eexists. split; [reflexivity|].
  cbn [_max_events _events memory trace].
  split; [reflexivity|]. split; [apply unmap_all_lookup | auto].
Qed.

Lemma destroyForAllThreads_closes_all_witness :
  Z.of_nat (length (_events Demo.sampling)) = _max_events Demo.sampling
  /\ Forall (fun ev => _lock ev = false) (_events Demo.sampling)
  /\ exists st',
       PerfEvents.destroyForAllThreads Demo.sampling = Done st'
       /\ _events st' = replicate (length (_events Demo.sampling)) zero_event
       /\ (forall q, memory st' !! q
                     = if decide (Exists (fun ev => _page ev = Some q)
                                    (_events Demo.sampling))
                       then None else memory Demo.sampling !! q)
       /\ trace st' = trace Demo.sampling
                      ++ flat_map teardown_effects (_events Demo.sampling)
       /\ _max_events st' = _max_events Demo.sampling.
Proof.
  assert (Hfree : Forall (fun ev => _lock ev = false) (_events Demo.sampling))
    by (repeat constructor).
  split; [reflexivity|]. split; [exact Hfree|].
  apply (destroyForAllThreads_closes_all Demo.sampling); [reflexivity | exact Hfree].
Defined.

(** X12: with the slot array as long as the capacity and no guard held, stop
    returns with every slot empty, and a second stop does nothing but
    switch the two thread notifications off again: it makes no system call
    and changes no slot and no mapping. *)
Theorem stop_twice (st : state) :
  Z.of_nat (length (_events st)) = _max_events st ->
  Forall (fun ev => _lock ev = false) (_events st) ->
  exists st',
    PerfEvents.stop st = Done st'
    /\ _events st' = replicate (length (_events st)) zero_event
    /\ PerfEvents.stop st'
       = Done (emit (SetEventNotificationMode false JVMTI_EVENT_THREAD_END)
                 (emit (SetEventNotificationMode false JVMTI_EVENT_THREAD_START) st')).
Proof.
  intros Hcap Hfree.
  set (st0 := emit (SetEventNotificationMode false JVMTI_EVENT_THREAD_END)
                (emit (SetEventNotificationMode false JVMTI_EVENT_THREAD_START) st)).
  assert (H0 : PerfEvents.stop st = PerfEvents.destroyForAllThreads st0) by reflexivity.
  pose proof (destroyForAllThreads_spec st0 Hcap Hfree) as Hd.
  match type of Hd with _ = Done ?s => set (st' := s) in Hd end.
  assert (Hev : _events st' = replicate (length (_events st)) zero_event) by reflexivity.
  assert (Hmx : _max_events st' = _max_events st) by reflexivity.
  clearbody st'.
  exists st'. rewrite H0. split; [exact Hd|]. split; [exact Hev|].
  set (st1 := emit (SetEventNotificationMode false JVMTI_EVENT_THREAD_END)
                (emit (SetEventNotificationMode false JVMTI_EVENT_THREAD_START) st')).
  change (PerfEvents.stop st') with (PerfEvents.destroyForAllThreads st1).
  assert (Hev1 : _events st1 = replicate (length (_events st)) zero_event) by exact Hev.
  assert (Hmx1 : _max_events st1 = _max_events st) by exact Hmx.
  clearbody st1. clear - Hcap Hev1 Hmx1.
  unfold PerfEvents.destroyForAllThreads.
  pose proof (destroyFrom_spec (Z.to_nat (_max_events st1)) 0 st1) as H.
  change (Z.of_nat 0) with 0 in H.
  rewrite H; clear H.
  - rewrite Hmx1, Hev1. rewrite <- Hcap, Nat2Z.id.
    rewrite Nat.add_0_l, drop_0, take_0.
    rewrite firstn_all2 by (rewrite length_replicate; lia).
    rewrite drop_ge by (rewrite length_replicate; lia).
    destruct (teardown_idle (length (_events st))) as [Ht Hu].
    rewrite Ht, Hu, !app_nil_r. cbn [firstn app].
    rewrite Hcap, <- Hev1, <- Hmx1. destruct st1. reflexivity.
  - rewrite Hmx1, <- Hcap. lia.
  - rewrite Hev1, Hmx1, length_replicate, <- Hcap. lia.
  - rewrite Hev1. apply Forall_replicate. reflexivity.
Qed.

Lemma stop_twice_witness :
  Z.of_nat (length (_events Demo.sampling)) = _max_events Demo.sampling
  /\ Forall (fun ev => _lock ev = false) (_events Demo.sampling)
  /\ exists st',
       PerfEvents.stop Demo.sampling = Done st'
       /\ _events st' = replicate (length (_events Demo.sampling)) zero_event
       /\ PerfEvents.stop st'
          = Done (emit (SetEventNotificationMode false JVMTI_EVENT_THREAD_END)
                    (emit (SetEventNotificationMode false JVMTI_EVENT_THREAD_START) st')).
Proof.
  assert (Hfree : Forall (fun ev => _lock ev = false) (_events Demo.sampling))
    by (repeat constructor).
  split; [reflexivity|]. split; [exact Hfree|].
  apply (stop_twice Demo.sampling); [reflexivity | exact Hfree].
Defined.

(** * Further properties of the reader *)

Lemma set_memory_same (m : gmap Z perf_event_mmap_page) (st : state) :
  m = memory st -> set_memory m st = st.
Proof. intros ->. destruct st. reflexivity. Qed.

(** X13: getCallChain makes no system call and writes nothing but the read
    cursor of the buffer of its thread: the slots, the capacity, the event
    catalog, the signal handler and the trace are as before, every other
    mapping is as before, and the write cursor and the data page of the
    buffer itself are as before. *)
Theorem getCallChain_frame (os : OS) (fuel : nat) (ucontext : ucontext_t) (tid : Z)
    (cc cc' : list Z) (max_depth jit_min jit_max depth : Z) (st st' : state) :
  PerfEvents.getCallChain os fuel ucontext tid cc max_depth jit_min jit_max st
    = Done (depth, cc', st') ->
  trace st' = trace st
  /\ _events st' = _events st
  /\ _max_events st' = _max_events st
  /\ _event_type st' = _event_type st
  /\ table st' = table st
  /\ sigprof st' = sigprof st
  /\ forall q,
       match memory st !! q, memory st' !! q with
       | Some pg, Some pg' =>
           data_head pg' = data_head pg /\ data pg' = data pg
           /\ (data_tail pg' = data_tail pg
               \/ (index (_events st) tid ≫= fun ev => Done (_page ev)) = Done (Some q))
       | None, None => True
       | _, _ => False
       end.
Proof.
  intros H. apply getCallChain_Done in H
    as (ev & Ht & Hev & [(_ & _ & _ & ->) | [(_ & _ & _ & _ & ->) | (_ & p & pg & Hp & Hm & _ & ->)]]).
  - repeat split; [..|intros q; destruct (memory st !! q); auto].
  - repeat split; [..|intros q; destruct (memory st !! q); auto].
  - repeat split. intros q. simpl.
    destruct (decide (p = q)) as [<- | Hne].
    + rewrite Hm, lookup_insert_eq. simpl. split; [reflexivity|]. split; [reflexivity|].
      right. assert (Hi : index (_events st) tid = Done ev) by (apply index_Done; auto).
      rewrite Hi. simpl. rewrite Hp. reflexivity.
    + rewrite lookup_insert_ne by exact Hne. destruct (memory st !! q); auto.
Qed.

Lemma getCallChain_frame_witness :
  PerfEvents.getCallChain Demo.os 5 Demo.ucontext 5 [0; 0; 0; 0] 4 4096 8192 Demo.sampling
    = Done (1, [100; 0; 0; 0], Demo.sampled)
  /\ trace Demo.sampled = trace Demo.sampling
  /\ _events Demo.sampled = _events Demo.sampling
  /\ _max_events Demo.sampled = _max_events Demo.sampling
  /\ _event_type Demo.sampled = _event_type Demo.sampling
  /\ table Demo.sampled = table Demo.sampling
  /\ sigprof Demo.sampled = sigprof Demo.sampling
  /\ forall q,
       match memory Demo.sampling !! q, memory Demo.sampled !! q with
       | Some pg, Some pg' =>
           data_head pg' = data_head pg /\ data pg' = data pg
           /\ (data_tail pg' = data_tail pg
               \/ (index (_events Demo.sampling) 5 ≫= fun ev => Done (_page ev))
                  = Done (Some q))
       | None, None => True
       | _, _ => False
       end.
Proof.
  assert (Hcall : PerfEvents.getCallChain Demo.os 5 Demo.ucontext 5 [0; 0; 0; 0] 4 4096 8192
                    Demo.sampling = Done (1, [100; 0; 0; 0], Demo.sampled))
    by reflexivity.
  split; [exact Hcall|].
  exact (getCallChain_frame Demo.os 5 Demo.ucontext 5 [0; 0; 0; 0] [100; 0; 0; 0]
           4 4096 8192 1 Demo.sampling Demo.sampled Hcall).
Defined.

(** X14: a sample is handed out once.  After a call that has taken the guard
    and read the ring, a second call for the same thread, with no write of
    the kernel in between, finds the cursors equal: it returns depth 0,
    leaves the caller's array alone and changes nothing, whatever the fuel. *)
Theorem getCallChain_again (os : OS) (fuel fuel2 : nat) (ucontext ucontext2 : ucontext_t)
    (tid : Z) (cc cc' cc2 : list Z)
    (max_depth jit_min jit_max max_depth2 jit_min2 jit_max2 depth : Z)
    (st st' : state) (ev : PerfEvent) :
  PerfEvents.getCallChain os fuel ucontext tid cc max_depth jit_min jit_max st
    = Done (depth, cc', st') ->
  _events st !! Z.to_nat tid = Some ev ->
  _lock ev = false ->
  PerfEvents.getCallChain os fuel2 ucontext2 tid cc2 max_depth2 jit_min2 jit_max2 st'
    = Done (0, cc2, st').
Proof.
  intros H Hev Hfree.
  apply getCallChain_Done in H
    as (ev' & Ht & Hev' & [(Hl & _) | [(_ & Hn & _ & _ & ->) | (_ & p & pg & Hp & Hm & _ & ->)]]);
    rewrite Hev in Hev'; injection Hev' as <-; [congruence | |].
  - unfold PerfEvents.getCallChain.
    assert (Hi : index (_events st) tid = Done ev) by (apply index_Done; auto).
    rewrite Hi. unfold mbind, outcome_bind. rewrite Hfree, Hn.
    rewrite store_event_twice.
    rewrite store_event_same by (rewrite Hev; destruct ev; simpl in *; congruence).
    reflexivity.
  - unfold PerfEvents.getCallChain. cbn [_events set_memory].
    assert (Hi : index (_events st) tid = Done ev) by (apply index_Done; auto).
    rewrite Hi. unfold mbind, outcome_bind. rewrite Hfree, Hp.
    unfold deref. cbn [memory store_event set_events set_memory].
    rewrite lookup_insert_eq. cbn [data_tail data_head data].
    assert (Hscan : forall pg0, PerfEvents.scan os pg0 max_depth2 jit_min2 jit_max2 fuel2
                      (data_head pg) (data_head pg) cc2 = Done (0, cc2)).
    { intros pg0. destruct fuel2; simpl; rewrite Z.ltb_irrefl; reflexivity. }
    rewrite Hscan.
    f_equal. f_equal. destruct st. unfold store_event, set_memory, set_events.
    simpl in *. f_equal; [|apply insert_insert_eq].
    rewrite list_insert_insert_eq. apply list_insert_id.
    rewrite Hev. destruct ev; simpl in *; congruence.
Qed.

Lemma getCallChain_again_witness :
  PerfEvents.getCallChain Demo.os 5 Demo.ucontext 5 [0; 0; 0; 0] 4 4096 8192 Demo.sampling
    = Done (1, [100; 0; 0; 0], Demo.sampled)
  /\ _events Demo.sampling !! Z.to_nat 5
     = Some {| _lock := false; _fd := 8; _page := Some 524288 |}
  /\ PerfEvents.getCallChain Demo.os 7 Demo.ucontext 5 [1; 2; 3] 3 0 0 Demo.sampled
     = Done (0, [1; 2; 3], Demo.sampled).
Proof.
  assert (Hcall : PerfEvents.getCallChain Demo.os 5 Demo.ucontext 5 [0; 0; 0; 0] 4 4096 8192
                    Demo.sampling = Done (1, [100; 0; 0; 0], Demo.sampled))
    by reflexivity.
  split; [exact Hcall|]. split; [reflexivity|].
  exact (getCallChain_again Demo.os 5 7 Demo.ucontext Demo.ucontext 5
           [0; 0; 0; 0] [100; 0; 0; 0] [1; 2; 3] 4 4096 8192 3 0 0 1
           Demo.sampling Demo.sampled
           {| _lock := false; _fd := 8; _page := Some 524288 |} Hcall eq_refl eq_refl).
Defined.

(** X15: the reader after the teardown.  When destroyForThread has returned
    for a thread, getCallChain for that thread returns depth 0 and touches
    neither the caller's array nor the state: it looks at no buffer. *)
Theorem getCallChain_after_destroy (os : OS) (fuel : nat) (ucontext : ucontext_t)
    (tid : Z) (cc : list Z) (max_depth jit_min jit_max : Z)
    (st st' : state) (ev : PerfEvent) :
  0 <= tid < _max_events st ->
  _events st !! Z.to_nat tid = Some ev ->
  _lock ev = false ->
  PerfEvents.destroyForThread tid st = Done st' ->
  PerfEvents.getCallChain os fuel ucontext tid cc max_depth jit_min jit_max st'
    = Done (0, cc, st').
Proof.
  intros Htid Hev Hfree Hd.
  rewrite (destroyForThread_effect tid st ev Htid Hev Hfree) in Hd.
  injection Hd as <-.
  assert (Hz : <[Z.to_nat tid := zero_event]> (_events st) !! Z.to_nat tid = Some zero_event).
  { apply list_lookup_insert_eq. apply lookup_lt_is_Some. eauto. }
  unfold PerfEvents.getCallChain. cbn [_events].
  assert (Hi : index (<[Z.to_nat tid := zero_event]> (_events st)) tid = Done zero_event)
    by (apply index_Done; split; [lia | exact Hz]).
  rewrite Hi. unfold mbind, outcome_bind. cbn [_lock _page _fd zero_event].
  rewrite store_event_twice. rewrite store_event_same by exact Hz. reflexivity.
Qed.

Lemma getCallChain_after_destroy_witness :
  0 <= 5 < _max_events Demo.sampling
  /\ _events Demo.sampling !! Z.to_nat 5
     = Some {| _lock := false; _fd := 8; _page := Some 524288 |}
  /\ PerfEvents.destroyForThread 5 Demo.sampling = Done DemoRun.destroyed
  /\ PerfEvents.getCallChain Demo.os 5 Demo.ucontext 5 [0; 0; 0; 0] 4 4096 8192
       DemoRun.destroyed
     = Done (0, [0; 0; 0; 0], DemoRun.destroyed).
Proof.
  assert (E : PerfEvents.destroyForThread 5 Demo.sampling = Done DemoRun.destroyed)
    by (vm_compute; reflexivity).
  split; [simpl; lia|]. split; [reflexivity|]. split; [exact E|].
  apply (getCallChain_after_destroy Demo.os 5 Demo.ucontext 5 [0; 0; 0; 0] 4 4096 8192
           Demo.sampling DemoRun.destroyed
           {| _lock := false; _fd := 8; _page := Some 524288 |});
    [simpl; lia | reflexivity | reflexivity | exact E].
Defined.

(** * Offsets in the ring *)

(** X16: with a page size that is a power of two, at least 8, the ring wraps
    inside the data page: [seek] of an aligned 64-bit cursor and [next] from
    an aligned offset give an aligned offset between 0 and the page size
    minus 8, namely the cursor, or the offset plus 8, modulo the page size;
    [next] reads the word there and does not fault. *)
Theorem ring_offsets_wrap (os : OS) (pg : perf_event_mmap_page) (k x : Z) :
  3 <= k -> PERF_PAGE_SIZE os = 2 ^ k ->
  x mod 8 = 0 ->
  (0 <= x < 2 ^ 64 ->
   RingBuffer.seek os x = x mod PERF_PAGE_SIZE os
   /\ 0 <= RingBuffer.seek os x <= PERF_PAGE_SIZE os - 8
   /\ RingBuffer.seek os x mod 8 = 0)
  /\ RingBuffer.next os pg x
     = Done ((x + 8) mod PERF_PAGE_SIZE os,
             RingBuffer.le_bytes pg 8 ((x + 8) mod PERF_PAGE_SIZE os))
  /\ 0 <= (x + 8) mod PERF_PAGE_SIZE os <= PERF_PAGE_SIZE os - 8
  /\ ((x + 8) mod PERF_PAGE_SIZE os) mod 8 = 0.
Proof.
  intros Hk Hsz Hx.
  assert (Hx8 : (x + 8) mod 8 = 0) by (rewrite Z.add_mod, Hx by lia; reflexivity).
  destruct (aligned_in_page k x Hk Hx) as (A0 & A8 & Am).
  destruct (aligned_in_page k (x + 8) Hk Hx8) as (B0 & B8 & Bm).
  split; [|split; [|split]].
  - intros Hr. rewrite (seek_aligned os k Hk Hsz x Hr), Hsz. auto with lia.
  - unfold RingBuffer.next, sizeof_u64.
    rewrite (land_page_mask os k) by (lia || exact Hsz). rewrite Hsz.
    pose proof (load_aligned os pg k Hk Hsz 8 (x + 8) 0 Hx8 ltac:(lia) ltac:(lia)) as Hl.
    rewrite Z.add_0_r in Hl. rewrite Hl. reflexivity.
  - rewrite Hsz. lia.
  - rewrite Hsz. exact Bm.
Qed.

Lemma ring_offsets_wrap_witness :
  3 <= 12 /\ PERF_PAGE_SIZE Demo.os = 2 ^ 12 /\ 4088 mod 8 = 0 /\ 0 <= 4088 < 2 ^ 64
  /\ (RingBuffer.seek Demo.os 4088 = 4088 mod PERF_PAGE_SIZE Demo.os
      /\ 0 <= RingBuffer.seek Demo.os 4088 <= PERF_PAGE_SIZE Demo.os - 8
      /\ RingBuffer.seek Demo.os 4088 mod 8 = 0)
  /\ RingBuffer.next Demo.os Demo.page 4088
     = Done ((4088 + 8) mod PERF_PAGE_SIZE Demo.os,
             RingBuffer.le_bytes Demo.page 8 ((4088 + 8) mod PERF_PAGE_SIZE Demo.os))
  /\ 0 <= (4088 + 8) mod PERF_PAGE_SIZE Demo.os <= PERF_PAGE_SIZE Demo.os - 8
  /\ ((4088 + 8) mod PERF_PAGE_SIZE Demo.os) mod 8 = 0.
Proof.
  split; [lia|]. split; [reflexivity|]. split; [reflexivity|]. split; [lia|].
  destruct (ring_offsets_wrap Demo.os Demo.page 12 4088) as (Hseek & Hnext);
    [lia | reflexivity | reflexivity |].
  split; [apply Hseek; lia | exact Hnext].
Defined.

(** * The signal handler on a signal of the kernel *)

(** X17: on a signal of the kernel (si_code above 0) in a session, the
    handler hands exactly one sample to the sink and then re-arms the
    counter of the signal: reset, then refresh with 1.  The weight comes
    from the argument register that the descriptor names (1 to 4), and then
    the counter is not read; otherwise the counter is read, and the weight
    is the value read, or 1 when the read does not deliver 8 bytes.
    Nothing but the trace changes. *)
Theorem signalHandler_sample (os : OS) (signo : Z) (siginfo : siginfo_t)
    (ucontext : ucontext_t) (st : state) (et : PerfEventType.t) :
  0 < si_code siginfo ->
  active_type st = Done et ->
  let arg := PerfEventType.counter_arg et in
  let from_register := (1 <=? arg) && (arg <=? 4) in
  let weight :=
    if arg =? 1 then LibC.u64 (arg0 ucontext)
    else if arg =? 2 then LibC.u64 (arg1 ucontext)
    else if arg =? 3 then LibC.u64 (arg2 ucontext)
    else if arg =? 4 then LibC.u64 (arg3 ucontext)
    else match read_counter os (si_fd siginfo) with
         | Some v => LibC.u64 v
         | None => 1
         end in
  PerfEvents.signalHandler os signo siginfo ucontext st
  = Done {| _max_events := _max_events st; _events := _events st;
            _event_type := _event_type st; _interval := _interval st;
            table := table st; memory := memory st; sigprof := sigprof st;
            trace := trace st
                     ++ (if from_register then [] else [SysRead (si_fd siginfo)])
                     ++ [RecordSample ucontext weight;
                         SysIoctl (si_fd siginfo) PERF_EVENT_IOC_RESET 0;
                         SysIoctl (si_fd siginfo) PERF_EVENT_IOC_REFRESH 1] |}.
Proof.
  intros Hcode Het arg from_register weight. unfold PerfEvents.signalHandler.
  destruct (Z.leb_spec (si_code siginfo) 0); [lia|].
  rewrite Het. unfold mbind, outcome_bind. fold arg.
  subst from_register weight. destruct st as [mx evs ety itv tb mem sg tr].
  destruct (Z.eqb_spec arg 1) as [E1|N1]; [rewrite E1|];
    [|destruct (Z.eqb_spec arg 2) as [E2|N2]; [rewrite E2|];
      [|destruct (Z.eqb_spec arg 3) as [E3|N3]; [rewrite E3|];
        [|destruct (Z.eqb_spec arg 4) as [E4|N4]; [rewrite E4|]]]];
    cbv [emit _max_events _events _event_type _interval table memory sigprof trace];
    try (cbn [Z.leb Z.compare Pos.compare Pos.compare_cont andb];
         rewrite <- !app_assoc; reflexivity).
  assert (Hr : (1 <=? arg) && (arg <=? 4) = false).
  { destruct (Z.leb_spec 1 arg); destruct (Z.leb_spec arg 4); simpl; try reflexivity. lia. }
  rewrite Hr, <- !app_assoc. reflexivity.
Qed.

Lemma signalHandler_sample_witness :
  0 < si_code {| si_code := 1; si_fd := 8 |}
  /\ active_type Demo.sampling
     = Done (PerfEventType.entry "cycles" 1000000 2 PERF_TYPE_HARDWARE
               PERF_COUNT_HW_CPU_CYCLES)
  /\ PerfEvents.signalHandler Demo.os 27 {| si_code := 1; si_fd := 8 |} Demo.ucontext
       Demo.sampling
     = Done {| _max_events := _max_events Demo.sampling;
               _events := _events Demo.sampling;
               _event_type := _event_type Demo.sampling;
               _interval := _interval Demo.sampling;
               table := table Demo.sampling; memory := memory Demo.sampling;
               sigprof := sigprof Demo.sampling;
               trace := trace Demo.sampling
                        ++ [SysRead 8]
                        ++ [RecordSample Demo.ucontext 7;
                            SysIoctl 8 PERF_EVENT_IOC_RESET 0;
                            SysIoctl 8 PERF_EVENT_IOC_REFRESH 1] |}.
Proof.
  split; [simpl; lia|]. split; [reflexivity|].
  exact (signalHandler_sample Demo.os 27 {| si_code := 1; si_fd := 8 |} Demo.ucontext
           Demo.sampling
           (PerfEventType.entry "cycles" 1000000 2 PERF_TYPE_HARDWARE
              PERF_COUNT_HW_CPU_CYCLES)
           ltac:(simpl; lia) eq_refl).
Defined.

(** * A start that gets past its checks *)

(** The state in which [start] calls createForAllThreads. *)
Lemma start_Done (os : OS) (event : string) (interval : Z) (st st' : state)
    (i : nat) (tbl : list PerfEventType.t) (e : Error) :
  PerfEventType.forName os (table st) event = Done (Some i, tbl) ->
  0 <= interval ->
  PerfEvents.start os event interval st = Done (e, st') ->
  exists itv st3 ok,
    (if interval =? 0
     then exists d, index tbl (Z.of_nat i) = Done d
                    /\ itv = PerfEventType.default_interval d
     else itv = interval)
    /\ st3 = {| _max_events := PerfEvents.getMaxPID os;
                _events := if PerfEvents.getMaxPID os =? _max_events st
                           then _events st
                           else replicate (Z.to_nat (PerfEvents.getMaxPID os)) zero_event;
                _event_type := Some i; _interval := itv; table := tbl;
                memory := memory st; sigprof := SigPerfEvents;
                trace := trace st
                         ++ [SysSigaction;
                             SetEventNotificationMode true JVMTI_EVENT_THREAD_START;
                             SetEventNotificationMode true JVMTI_EVENT_THREAD_END] |}
    /\ PerfEvents.createForAllThreads os st3 = Done (ok, st')
    /\ e = if ok then OK
           else Err "Perf events unavailble. See stderr of the target process.".
Proof.
  intros Hname Hitv. unfold PerfEvents.start. rewrite Hname.
  unfold mbind, outcome_bind. destruct (Z.ltb_spec interval 0); [lia|].
  unfold active_type. cbn [_event_type table].
  assert (Hst3 : forall itv,
    emit (SetEventNotificationMode true JVMTI_EVENT_THREAD_END)
      (emit (SetEventNotificationMode true JVMTI_EVENT_THREAD_START)
         (PerfEvents.installSignalHandler
            {| _max_events := if negb (PerfEvents.getMaxPID os =? _max_events st)
                              then PerfEvents.getMaxPID os else _max_events st;
               _events := if negb (PerfEvents.getMaxPID os =? _max_events st)
                          then replicate (Z.to_nat (PerfEvents.getMaxPID os)) zero_event
                          else _events st;
               _event_type := Some i; _interval := itv; table := tbl;
               memory := memory st; sigprof := sigprof st; trace := trace st |}))
    = {| _max_events := PerfEvents.getMaxPID os;
         _events := if PerfEvents.getMaxPID os =? _max_events st
                    then _events st
                    else replicate (Z.to_nat (PerfEvents.getMaxPID os)) zero_event;
         _event_type := Some i; _interval := itv; table := tbl;
         memory := memory st; sigprof := SigPerfEvents;
         trace := trace st
                  ++ [SysSigaction;
                      SetEventNotificationMode true JVMTI_EVENT_THREAD_START;
                      SetEventNotificationMode true JVMTI_EVENT_THREAD_END] |}).
  { intros itv. clear. destruct st as [mx evs ety it0 tb mem sg tr].
    cbv [emit PerfEvents.installSignalHandler
         _max_events _events _event_type _interval table memory sigprof trace].
    rewrite <- !app_assoc. cbn [app].
    destruct (Z.eqb_spec (PerfEvents.getMaxPID os) mx) as [->|]; reflexivity. }
  destruct (Z.eqb_spec interval 0) as [-> | Hnz].
  - destruct (index tbl (Z.of_nat i)) as [d| |] eqn:Hd; try discriminate.
    cbn [_max_events _events _event_type _interval table memory sigprof trace].
    rewrite Hst3.
    destruct (PerfEvents.createForAllThreads os _) as [[ok st4]| |] eqn:Hc;
      try discriminate.
    intros Hres. exists (PerfEventType.default_interval d). eexists. exists ok.
    assert (st4 = st') as -> by (destruct ok; congruence).
    split; [exists d; auto|]. split; [reflexivity|]. split; [exact Hc|].
    destruct ok; congruence.
  - cbn [_max_events _events _event_type _interval table memory sigprof trace].
    rewrite Hst3.
    destruct (PerfEvents.createForAllThreads os _) as [[ok st4]| |] eqn:Hc;
      try discriminate.
    intros Hres. exists interval. eexists. exists ok.
    assert (st4 = st') as -> by (destruct ok; congruence).
    split; [reflexivity|]. split; [reflexivity|]. split; [exact Hc|].
    destruct ok; congruence.
Qed.

(** X18: a start that gets past the resolution and the interval check and
    returns has selected the resolved descriptor, taken the interval given,
    or the default interval of the descriptor when 0 was given, set the
    capacity to the platform's limit and installed the signal handler
    before anything else: the first three things it did are the sigaction
    and the two thread notifications.  It returns OK or the error that no
    counter could be opened, and in the second case the handler and the
    notifications stay on although no slot holds a counter that this call
    opened. *)
Theorem start_session (os : OS) (event : string) (interval : Z) (st st' : state)
    (i : nat) (tbl : list PerfEventType.t) (e : Error) :
  PerfEventType.forName os (table st) event = Done (Some i, tbl) ->
  0 <= interval ->
  PerfEvents.start os event interval st = Done (e, st') ->
  _event_type st' = Some i
  /\ (if interval =? 0
      then exists d, index tbl (Z.of_nat i) = Done d
                     /\ _interval st' = PerfEventType.default_interval d
      else _interval st' = interval)
  /\ _max_events st' = PerfEvents.getMaxPID os
  /\ (e = OK \/
      (e = Err "Perf events unavailble. See stderr of the target process."
       /\ memory st' = memory st
       /\ _events st' = if PerfEvents.getMaxPID os =? _max_events st
                        then _events st
                        else replicate (Z.to_nat (PerfEvents.getMaxPID os)) zero_event)).
Proof.
  intros Hname Hitv H.
  destruct (start_Done os event interval st st' i tbl e Hname Hitv H)
    as (itv & st3 & ok & Hi & -> & Hc & ->).
  assert (Hst : _max_events st' = PerfEvents.getMaxPID os
                /\ _event_type st' = Some i /\ _interval st' = itv).
  { unfold PerfEvents.createForAllThreads in Hc.
    destruct (task_dir os) as [entries|]; [|injection Hc as _ <-; auto].
    destruct (createForEntries_statics os entries _ st' false ok Hc)
      as (? & ? & ? & _). auto. }
  destruct Hst as (Hmx & Hety & Hint).
  split; [exact Hety|]. split; [|split; [exact Hmx|]].
  - rewrite Hint. destruct (interval =? 0); exact Hi.
  - destruct ok; [left; reflexivity | right]. split; [reflexivity|].
    unfold PerfEvents.createForAllThreads in Hc.
    destruct (task_dir os) as [entries|]; [|injection Hc as <-; auto].
    destruct (createForEntries_none os entries _ st' Hc) as [He Hm]. auto.
Qed.

Lemma start_session_witness :
  PerfEventType.forName Demo.os (table Demo.idle) "cycles"
    = Done (Some 3%nat, table Demo.idle)
  /\ 0 <= 0
  /\ PerfEvents.start Demo.os "cycles" 0 Demo.idle = Done (OK, DemoRun.started)
  /\ _event_type DemoRun.started = Some 3%nat
  /\ (exists d, index (table Demo.idle) (Z.of_nat 3) = Done d
                /\ _interval DemoRun.started = PerfEventType.default_interval d)
  /\ _max_events DemoRun.started = PerfEvents.getMaxPID Demo.os
  /\ (OK = OK \/
      (OK = Err "Perf events unavailble. See stderr of the target process."
       /\ memory DemoRun.started = memory Demo.idle
       /\ _events DemoRun.started
          = if PerfEvents.getMaxPID Demo.os =? _max_events Demo.idle
            then _events Demo.idle
            else replicate (Z.to_nat (PerfEvents.getMaxPID Demo.os)) zero_event)).
Proof.
  assert (E : PerfEvents.start Demo.os "cycles" 0 Demo.idle = Done (OK, DemoRun.started))
    by (vm_compute; reflexivity).
  split; [reflexivity|]. split; [lia|]. split; [exact E|].
  exact (start_session Demo.os "cycles" 0 Demo.idle DemoRun.started 3
           (table Demo.idle) OK eq_refl ltac:(lia) E).
Defined.

(** X19: start establishes what the other operations rely on.  When it gets
    past its checks and the platform's limit is not negative, the slot
    array it leaves is as long as the capacity (provided that this held
    before, in case the limit has not changed and the array is kept). *)
Theorem start_capacity (os : OS) (event : string) (interval : Z) (st st' : state)
    (i : nat) (tbl : list PerfEventType.t) (e : Error) :
  PerfEventType.forName os (table st) event = Done (Some i, tbl) ->
  0 <= interval ->
  0 <= PerfEvents.getMaxPID os ->
  (PerfEvents.getMaxPID os = _max_events st ->
   Z.of_nat (length (_events st)) = _max_events st) ->
  PerfEvents.start os event interval st = Done (e, st') ->
  Z.of_nat (length (_events st')) = _max_events st'
  /\ sigprof st' = SigPerfEvents.
Proof.
  intros Hname Hitv Hpos Hold H.
  destruct (start_Done os event interval st st' i tbl e Hname Hitv H)
    as (itv & st3 & ok & _ & -> & Hc & _).
  unfold PerfEvents.createForAllThreads in Hc.
  destruct (task_dir os) as [entries|].
  - destruct (createForEntries_statics os entries _ st' false ok Hc)
      as (Hmx & _ & _ & _ & Hsg & Hlen).
    cbn [_max_events _events sigprof] in *. rewrite Hmx, Hlen. split; [|exact Hsg].
    destruct (Z.eqb_spec (PerfEvents.getMaxPID os) (_max_events st)) as [Heq|].
    + rewrite Heq. apply Hold. exact Heq.
    + rewrite length_replicate. lia.
  - injection Hc as _ <-. cbn [_max_events _events sigprof]. split; [|reflexivity].
    destruct (Z.eqb_spec (PerfEvents.getMaxPID os) (_max_events st)) as [Heq|].
    + rewrite Heq. apply Hold. exact Heq.
    + rewrite length_replicate. lia.
Qed.

Lemma start_capacity_witness :
  PerfEventType.forName Demo.os (table Demo.idle) "cycles"
    = Done (Some 3%nat, table Demo.idle)
  /\ 0 <= PerfEvents.getMaxPID Demo.os
  /\ Z.of_nat (length (_events Demo.idle)) = _max_events Demo.idle
  /\ PerfEvents.start Demo.os "cycles" 0 Demo.idle = Done (OK, DemoRun.started)
  /\ Z.of_nat (length (_events DemoRun.started)) = _max_events DemoRun.started
  /\ sigprof DemoRun.started = SigPerfEvents.
Proof.
  assert (E : PerfEvents.start Demo.os "cycles" 0 Demo.idle = Done (OK, DemoRun.started))
    by (vm_compute; reflexivity).
  split; [reflexivity|]. split; [vm_compute; discriminate|]. split; [reflexivity|].
  split; [exact E|].
  apply (start_capacity Demo.os "cycles" 0 Demo.idle DemoRun.started 3
           (table Demo.idle) OK);
    [reflexivity | lia | vm_compute; discriminate | reflexivity | exact E].
Defined.


(** * Numbers read from files *)

Lemma digit_not_special (a : ascii) :
  LibC.is_digit_in 10 a = true ->
  LibC.isspace a = false /\ Ascii.eqb a "-" = false /\ Ascii.eqb a "+" = false.
Proof.
  destruct a as [[] [] [] [] [] [] [] []]; vm_compute; intros H;
    try discriminate H; auto.
Qed.

Lemma digit_range (a : ascii) (d : Z) :
  LibC.is_digit_in 10 a = true -> LibC.digit_val a = Some d -> 0 <= d <= 9.
Proof.
  unfold LibC.is_digit_in. intros H Hd. rewrite Hd in H.
  destruct a as [[] [] [] [] [] [] [] []]; vm_compute in Hd; vm_compute in H;
    try discriminate; injection Hd as <-; lia.
Qed.

Lemma digits_stop (ds : string) (c : ascii) (t : string) :
  decimal ds = true -> LibC.is_digit_in 10 c = false ->
  forall acc, LibC.digits 10 acc (ds +:+ String c t) = LibC.digits 10 acc ds.
Proof.
  intros Hds Hc. induction ds as [|a ds IH]; intros acc.
  - simpl. unfold LibC.is_digit_in in Hc.
    destruct (LibC.digit_val c) as [d|]; [rewrite Hc|]; reflexivity.
  - simpl in Hds. apply andb_true_iff in Hds as [Ha Hr].
    change (String a ds +:+ String c t) with (String a (ds +:+ String c t)).
    cbn [LibC.digits]. unfold LibC.is_digit_in in Ha.
    destruct (LibC.digit_val a) as [d|]; [|discriminate]. rewrite Ha. apply IH, Hr.
Qed.

Lemma digits_bound (ds : string) :
  decimal ds = true ->
  forall acc, 0 <= acc ->
  0 <= LibC.digits 10 acc ds < (acc + 1) * 10 ^ Z.of_nat (String.length ds).
Proof.
  induction ds as [|a ds IH]; intros Hds acc Hacc.
  - simpl. lia.
  - simpl in Hds. apply andb_true_iff in Hds as [Ha Hr].
    cbn [LibC.digits String.length].
    pose proof Ha as Ha'. unfold LibC.is_digit_in in Ha'.
    destruct (LibC.digit_val a) as [d|] eqn:Hd; [|discriminate]. rewrite Ha'.
    pose proof (digit_range a d Ha Hd) as Hrange.
    specialize (IH Hr (acc * 10 + d) ltac:(lia)).
    rewrite Nat2Z.inj_succ, Z.pow_succ_r by lia.
    assert (0 < 10 ^ Z.of_nat (String.length ds)) by (apply Z.pow_pos_nonneg; lia).
    nia.
Qed.

(** [strtol] in base 10 on a string that begins with a digit. *)
Lemma strtol_digit_start (a : ascii) (r : string) :
  LibC.is_digit_in 10 a = true ->
  LibC.strtol (String a r) 10 = Z.min LibC.LONG_MAX (LibC.digits 10 0 (String a r)).
Proof.
  intros Ha. destruct (digit_not_special a Ha) as (Hsp & Hm & Hp).
  unfold LibC.strtol. cbn [LibC.skip_space]. rewrite Hsp. cbv beta iota zeta.
  rewrite Hm, Hp. cbv beta iota zeta.
  change (10 =? 0) with false. change (10 =? 16) with false.
  destruct r as [|x [|h r]]; cbv beta iota zeta; cbn [orb];
    rewrite ?andb_false_r; reflexivity.
Qed.

Lemma strtol_decimal (ds : string) (c : ascii) (t : string) :
  ds <> EmptyString -> decimal ds = true -> LibC.is_digit_in 10 c = false ->
  LibC.strtol (ds +:+ String c t) 10 = Z.min LibC.LONG_MAX (LibC.digits 10 0 ds).
Proof.
  intros Hne Hds Hc. destruct ds as [|a ds]; [contradiction|].
  pose proof Hds as Hds'. simpl in Hds'. apply andb_true_iff in Hds' as [Ha _].
  change (String a ds +:+ String c t) with (String a (ds +:+ String c t)).
  rewrite (strtol_digit_start a _ Ha). f_equal.
  exact (digits_stop (String a ds) c t Hds Hc 0).
Qed.

Lemma take_append (ds : string) (c : ascii) (rest : string) (m : nat) :
  LibC.take (String.length ds + S m) (ds +:+ String c rest)
  = ds +:+ String c (LibC.take m rest).
Proof.
  induction ds as [|a ds IH]; [reflexivity|].
  change (String a ds +:+ String c rest) with (String a (ds +:+ String c rest)).
  cbn [String.length Nat.add LibC.take]. rewrite IH. reflexivity.
Qed.

Lemma append_assoc (a b c : string) : (a +:+ b) +:+ c = a +:+ (b +:+ c).
Proof.
  induction a as [|x a IH]; [reflexivity|].
  change (String x ((a +:+ b) +:+ c) = String x (a +:+ (b +:+ c))).
  rewrite IH. reflexivity.
Qed.

(** What [atoi] makes of a buffer that a file has been read into, when the
    file begins with a number of at most 9 digits and a line feed. *)
Lemma atoi_read_over (init ds rest : string) :
  ds <> EmptyString -> decimal ds = true -> (String.length ds <= 9)%nat ->
  LibC.atoi (LibC.read_over init (ds +:+ String LF rest)) = LibC.digits 10 0 ds.
Proof.
  intros Hne Hds Hlen. unfold LibC.read_over.
  replace 15%nat with (String.length ds + S (14 - String.length ds))%nat by lia.
  rewrite take_append.
  set (tl := LibC.drop _ init).
  rewrite append_assoc.
  change (String LF (LibC.take (14 - String.length ds) rest) +:+ tl)
    with (String LF (LibC.take (14 - String.length ds) rest +:+ tl)).
  unfold LibC.atoi. rewrite strtol_decimal by (assumption || reflexivity).
  pose proof (digits_bound ds Hds 0 ltac:(lia)) as Hb.
  assert (Hp : 10 ^ Z.of_nat (String.length ds) <= 10 ^ 9)
    by (apply Z.pow_le_mono_r; lia).
  unfold LibC.LONG_MAX, LibC.int.
  rewrite Z.min_r by lia. rewrite Z.mod_small by lia. lia.
Qed.

(** X20: getMaxPID is 65536 when the file of the limit cannot be opened, and
    when the file begins with a number of at most 9 digits and a line feed,
    as the kernel writes it, it is that number, whatever follows in the
    file. *)
Theorem getMaxPID_reads_limit (os : OS) :
  (slurp os "/proc/sys/kernel/pid_max" = None -> PerfEvents.getMaxPID os = 65536)
  /\ (forall ds rest,
        slurp os "/proc/sys/kernel/pid_max" = Some (ds +:+ String LF rest) ->
        ds <> EmptyString -> decimal ds = true -> (String.length ds <= 9)%nat ->
        PerfEvents.getMaxPID os = LibC.digits 10 0 ds
        /\ 0 <= PerfEvents.getMaxPID os < 10 ^ 9).
Proof.
  unfold PerfEvents.getMaxPID. split.
  - intros ->. reflexivity.
  - intros ds rest -> Hne Hds Hlen. rewrite atoi_read_over by assumption.
    split; [reflexivity|].
    pose proof (digits_bound ds Hds 0 ltac:(lia)) as Hb.
    assert (Hp : 10 ^ Z.of_nat (String.length ds) <= 10 ^ 9)
      by (apply Z.pow_le_mono_r; lia).
    lia.
Qed.

Lemma getMaxPID_reads_limit_witness :
  slurp Demo.os "/proc/sys/kernel/pid_max" = Some ("8" +:+ String LF "")
  /\ "8"%string <> EmptyString /\ decimal "8" = true /\ (String.length "8" <= 9)%nat
  /\ PerfEvents.getMaxPID Demo.os = LibC.digits 10 0 "8"
  /\ 0 <= PerfEvents.getMaxPID Demo.os < 10 ^ 9.
Proof.
  split; [reflexivity|]. split; [discriminate|]. split; [reflexivity|].
  split; [simpl; lia|].
  apply (proj2 (getMaxPID_reads_limit Demo.os) "8"%string ""%string);
    [reflexivity | discriminate | reflexivity | simpl; lia].
Defined.

(** * Kernel tracepoints *)







